(** * openreview-expertise: score aggregation, sparsification and job store

    A shallow embedding of
      - [expertise/models/specter2_scincl/specter.py]
        ([Specter2Predictor.__init__], [set_archives_dataset],
        [set_submissions_dataset], [_fetch_batches], [_batch_predict],
        [embed_submissions], [embed_publications], [all_scores],
        [_sparse_scores_helper], [sparse_scores]),
      - [expertise/service/utils.py] ([get_user_id], [_camel_to_snake],
        [APIRequest] and its [to_json]; of [JobConfig]: [to_json],
        [from_json], [from_request], [load_job], [remove_job],
        [load_all_jobs]),
      - [expertise/service/expertise.py] ([_filter_config],
        [_prepare_config], [_get_subdirs], [_get_score_and_metadata_dir],
        the index of jobs, [start_expertise], [get_expertise_all_status],
        [get_expertise_status], [get_expertise_results],
        [del_expertise_job]),
    followed by the properties of the specification that were checked
    against it and by further properties of the code. *)

From stdpp Require Import gmap strings list fin_maps sorting pretty.
From Stdlib Require Import ZArith QArith.

Set Warnings "-register-all,-clear-no-such-hyp".
Local Open Scope Z_scope.

(** ** Python exceptions and fallible computations *)

Inductive exn :=
| RuntimeError (msg : string)
| AssertionError (msg : string)
| IndexError (msg : string)
| TypeError (msg : string)
| KeyError (key : string)
| AttributeError (msg : string)
| UnboundLocalError (name : string)
| FileNotFoundError (path : string)
| OpenReviewException (msg : string).

Inductive result (A : Type) :=
| Ok (a : A)
| Raise (e : exn).
Arguments Ok {A} a.
Arguments Raise {A} e.

Global Instance result_ret : MRet result := λ A a, Ok a.
Global Instance result_bind : MBind result :=
  λ A B f m, match m with Ok a => f a | Raise e => Raise e end.

Definition is_ok {A} (r : result A) : bool :=
  match r with Ok _ => true | Raise _ => false end.

(** A list comprehension whose body may raise: the first exception ends it. *)
Fixpoint mapR {A B} (f : A → result B) (l : list A) : result (list B) :=
  match l with
  | [] => Ok []
  | x :: l' => y ← f x; ys ← mapR f l'; Ok (y :: ys)
  end.

(** A loop that appends to a list as it goes: what was appended before an
    exception stays appended. *)
Fixpoint for_each {A B} (body : A → option exn * list B) (l : list A)
  : option exn * list B :=
  match l with
  | [] => (None, [])
  | x :: l' =>
      match body x with
      | (Some e, out) => (Some e, out)
      | (None, out) => let r := for_each body l' in (r.1, out ++ r.2)
      end
  end.

(** [enumerate(l)], counting from [i]. *)
Fixpoint enumerate_from {A} (i : nat) (l : list A) : list (nat * A) :=
  match l with
  | [] => []
  | x :: l' => (i, x) :: enumerate_from (Datatypes.S i) l'
  end.

(** ** [list.sort(key=..., reverse=True)]

    Python's sort is stable, also under [reverse=True]: entries come out in
    descending key order and entries with equal keys keep the order they had
    in the list.  [lt x y] is the comparison [key(x) < key(y)]. *)

Section py_sort.
Context {A : Type} (lt : A → A → bool).

Fixpoint insert_desc (x : A) (l : list A) : list A :=
  match l with
  | [] => [x]
  | y :: l' => if lt x y then y :: insert_desc x l' else x :: y :: l'
  end.

Fixpoint sort_desc (l : list A) : list A :=
  match l with
  | [] => []
  | x :: l' => insert_desc x (sort_desc l')
  end.

(** [x] may stand before [y] in a descending list. *)
Definition not_below (x y : A) : Prop := lt x y = false.

Definition desc_sorted (l : list A) : Prop := StronglySorted not_below l.

End py_sort.

(** ** specter.py *)

Module Specter.

(** [id_index] of [_sparse_scores_helper]: 0 selects [note_id], 1 selects
    [profile_id]; the helper is only ever called with these two. *)
Inductive id_index := Idx0 | Idx1.

Global Instance id_index_eq_dec : EqDecision id_index.
Proof. solve_decision. Defined.

Section predictor.
Context {score : Type} `{Countable score}.
(** [<] on the floats of the score column. *)
Variable score_lt : score → score → bool.
(** The torch operations of [all_scores], on rows of floats:
    - [zero]: the float [0] of the placeholder row [[0] * 768];
    - [normalize row]: [row / (row.norm() + 0.000000000001)] (line 214);
    - [dot u v]: [torch.sum(u * v)] (line 258);
    - [tensor_mean row]: [.mean(dim=1)] of one row of the selection
      (nan when no column is selected);
    - [tensor_max row]: [.max(dim=1)[0]] of one row of the selection; torch
      raises when no column is selected, which is [None] here. *)
Variable zero : score.
Variable normalize : list score → list score.
Variable dot : list score → list score → score.
Variable tensor_mean : list score → score.
Variable tensor_max : list score → option score.

(** A score entry [(note_id, profile_id, score)]. *)
Definition entry : Type := string * string * score.

Definition note_id (e : entry) : string := e.1.1.
Definition profile_id (e : entry) : string := e.1.2.
Definition score_of (e : entry) : score := e.2.

(** [(note_id, profile_id)[id_index]] *)
Definition get_id (idx : id_index) (e : entry) : string :=
  match idx with Idx0 => note_id e | Idx1 => profile_id e end.

(** Tuple comparison [(x[idx], x[2]) < (y[idx], y[2])]: the first
    component that differs decides. *)
Definition key_lt (idx : id_index) (x y : entry) : bool :=
  if decide (get_id idx x = get_id idx y) then
    if decide (score_of x = score_of y) then false
    else score_lt (score_of x) (score_of y)
  else String.ltb (get_id idx x) (get_id idx y).

(** The part of [Specter2Predictor] that scoring and sparsification use. *)
Record predictor := {
  average_score : bool;
  max_score : bool;
  sparse_value : option Z;
  preliminary_scores : option (list entry);
  (* set by [set_archives_dataset]; a dict, in insertion order *)
  pub_author_ids_to_note_id : option (list (string * list string))
}.

Definition set_preliminary_scores (self : predictor) (l : option (list entry)) : predictor :=
  {| average_score := average_score self;
     max_score := max_score self;
     sparse_value := sparse_value self;
     preliminary_scores := l;
     pub_author_ids_to_note_id := pub_author_ids_to_note_id self |}.

(** *** [__init__] (lines 42-59) *)

Definition __init__ (average_score max_score : bool) (sparse_value : option Z)
  : result predictor :=
  if xorb max_score average_score then
    Ok {| average_score := average_score;
          max_score := max_score;
          sparse_value := sparse_value;
          preliminary_scores := None;
          pub_author_ids_to_note_id := None |}
  else Raise (AssertionError "(Only) One of max_score or average_score must be True").

(** *** [all_scores] (lines 195-293), for a predictor built with
    [use_redis=False] *)

Definition paper_emb_size_default : nat := 768.

(** The loop of [load_emb_file] (lines 201-212) over the parsed lines of
    an embedding file, each a [paper_id] and an [embedding]: [(id_list,
    emb_list, bad_id_set)]. *)
Fixpoint load_emb_lines (lines : list (string * list score))
  : result (list string * list (list score) * gset string) :=
  match lines with
  | [] => Ok ([], [], ∅)
  | (paper_id, embedding) :: lines' =>
      let paper_emb_size := length embedding in
      if bool_decide (paper_emb_size = 0%nat ∨ paper_emb_size = paper_emb_size_default) then
        '(id_list, emb_list, bad_id_set) ← load_emb_lines lines';
        if bool_decide (paper_emb_size = 0%nat) then
          Ok (paper_id :: id_list,
              replicate paper_emb_size_default zero :: emb_list,
              {[ paper_id ]} ∪ bad_id_set)
        else Ok (paper_id :: id_list, embedding :: emb_list, bad_id_set)
      else Raise (AssertionError "")
  end.

(** [load_emb_file] (lines 196-216): [(emb_tensor, id_list, bad_id_set)].
    With no line at all [torch.tensor([])] has one dimension and
    [.norm(dim=1)] raises. *)
Definition load_emb_file (lines : list (string * list score))
  : result (list (list score) * list string * gset string) :=
  '(id_list, emb_list, bad_id_set) ← load_emb_lines lines;
  match emb_list with
  | [] => Raise (IndexError "Dimension out of range (expected to be in range of [-1, 0], but got 1)")
  | _ => Ok (normalize <$> emb_list, id_list, bad_id_set)
  end.

(** [paper_id2train_idx] (lines 246-248): a later line with the same id
    overwrites an earlier one. *)
Definition paper_id2train_idx (train_id_list : list string) : gmap string nat :=
  foldl (λ m p, <[p.2 := p.1]> m) ∅ (enumerate_from 0 train_id_list).

(** [p2p_aff] (lines 256-258): one row per submission, one column per
    publication line. *)
Definition p2p_affinity (paper_emb_test paper_emb_train : list (list score))
  : list (list score) :=
  (λ t, dot t <$> paper_emb_train) <$> paper_emb_test.

(** [p2p_aff[:, train_paper_idx]] *)
Definition select_columns (p2p_aff : list (list score)) (train_paper_idx : list nat)
  : result (list (list score)) :=
  mapR (λ row,
    mapR (λ c, match row !! c with
               | Some s => Ok s
               | None => Raise (IndexError "index out of range")
               end) train_paper_idx) p2p_aff.

(** Lines 278-281: the reduction over the selected columns; with neither
    flag set [all_paper_aff] stays unbound. *)
Definition reduce_affinity (self : predictor) (train_paper_aff_j : list (list score))
  : result (option (list score)) :=
  if average_score self then Ok (Some (tensor_mean <$> train_paper_aff_j))
  else if max_score self then
    all_paper_aff ← mapR (λ row,
      match tensor_max row with
      | Some s => Ok s
      | None => Raise (IndexError "max(): Expected reduction dim 1 to have non-zero size.")
      end) train_paper_aff_j;
    Ok (Some all_paper_aff)
  else Ok None.

(** The usable publications of a reviewer (lines 273-275, the test). *)
Definition usable (train_bad_id_set : gset string) (train_note_id_list : list string)
  : list string :=
  filter (λ paper_id, paper_id ∉ train_bad_id_set) train_note_id_list.

(** The body of the loop over reviewers (lines 269-286): the exception it
    ends with, if any, and the entries it appends. *)
Definition reviewer_body (self : predictor) (train_bad_id_set : gset string)
  (idx : gmap string nat) (test_id_list : list string)
  (p2p_aff : list (list score)) (item : string * list string)
  : option exn * list entry :=
  let '(reviewer_id, train_note_id_list) := item in
  if bool_decide (length train_note_id_list = 0%nat) then (None, [])
  else
    match
      train_paper_idx ← mapR (λ paper_id,
        match idx !! paper_id with
        | Some i => Ok i
        | None => Raise (KeyError paper_id)
        end) (usable train_bad_id_set train_note_id_list);
      train_paper_aff_j ← select_columns p2p_aff train_paper_idx;
      reduce_affinity self train_paper_aff_j
    with
    | Raise e => (Some e, [])
    | Ok all_paper_aff =>
        for_each (λ jt : nat * string,
          match all_paper_aff with
          | None => (Some (UnboundLocalError "all_paper_aff"), [])
          | Some aff =>
              match aff !! jt.1 with
              | Some s => (None, [(jt.2, reviewer_id, s)])
              | None => (Some (IndexError "index out of range"), [])
              end
          end) (enumerate_from 0 test_id_list)
    end.

(** Lines 267-286. *)
Definition aggregate (self : predictor) (train_bad_id_set : gset string)
  (idx : gmap string nat) (test_id_list : list string)
  (p2p_aff : list (list score)) : option exn * list entry :=
  match pub_author_ids_to_note_id self with
  | None => (Some (AttributeError "'Specter2Predictor' object has no attribute 'pub_author_ids_to_note_id'"), [])
  | Some items =>
      for_each (reviewer_body self train_bad_id_set idx test_id_list p2p_aff) items
  end.

Definition all_scores (self : predictor)
  (publications submissions : list (string * list score))
  (scores_path : option string) (files : gmap string (list entry))
  : result (list entry) * predictor * gmap string (list entry) :=
  match load_emb_file publications with
  | Raise e => (Raise e, self, files)
  | Ok (paper_emb_train, train_id_list, train_bad_id_set) =>
      match load_emb_file submissions with
      | Raise e => (Raise e, self, files)
      | Ok (paper_emb_test, test_id_list, test_bad_id_set) =>
          let p2p_aff := p2p_affinity paper_emb_test paper_emb_train in
          match aggregate self train_bad_id_set (paper_id2train_idx train_id_list)
                  test_id_list p2p_aff with
          | (Some e, scores) => (Raise e, set_preliminary_scores self (Some scores), files)
          | (None, scores) =>
              (Ok scores, set_preliminary_scores self (Some scores),
               match scores_path with
               | Some p => <[p := scores]> files
               | None => files
               end)
          end
      end
  end.

(** *** [_sparse_scores_helper] (lines 295-311) *)

(** One iteration of the loop on entry [e], from [(counter, current_id)]:
    the state after [counter += 1] and whether [e] was added. *)
Definition helper_step (k : Z) (idx : id_index) (st : Z * string) (e : entry)
  : (Z * string) * bool :=
  let '(counter, current_id) := st in
  if counter <? k then ((counter + 1, current_id), true)
  else if decide (get_id idx e ≠ current_id) then ((0 + 1, get_id idx e), true)
  else ((counter + 1, current_id), false).

Fixpoint helper_loop (k : Z) (idx : id_index) (st : Z * string)
  (l : list entry) (all_scores : gset entry) : gset entry * (Z * string) :=
  match l with
  | [] => (all_scores, st)
  | e :: l' =>
      let '(st', added) := helper_step k idx st e in
      helper_loop k idx st' l' (if added then all_scores ∪ {[ e ]} else all_scores)
  end.

(** The entries the loop adds, in scan order and with repetitions (the set
    forgets both). *)
Fixpoint helper_emitted (k : Z) (idx : id_index) (st : Z * string)
  (l : list entry) : list entry :=
  match l with
  | [] => []
  | e :: l' =>
      let '(st', added) := helper_step k idx st e in
      if added then e :: helper_emitted k idx st' l' else helper_emitted k idx st' l'
  end.

(** The loop's [(counter, current_id)] after scanning [l]. *)
Fixpoint helper_state (k : Z) (idx : id_index) (st : Z * string)
  (l : list entry) : Z * string :=
  match l with
  | [] => st
  | e :: l' => helper_state k idx (helper_step k idx st e).1 l'
  end.

Definition _sparse_scores_helper (self : predictor) (all_scores : gset entry)
  (idx : id_index) : result (gset entry) :=
  match preliminary_scores self with
  | None => Raise (TypeError "'NoneType' object is not subscriptable")
  | Some [] => Raise (IndexError "list index out of range")
  | Some ((e0 :: _) as l) =>
      match sparse_value self with
      | None => Raise (TypeError "'<' not supported between instances of 'int' and 'NoneType'")
      | Some k => Ok (helper_loop k idx (0, get_id idx e0) l all_scores).1
      end
  end.

(** *** [sparse_scores] (lines 313-338)

    Returns the outcome, the predictor (whose [preliminary_scores] the
    in-place sorts reorder) and the files: [scores_path], when given, receives
    the rows of the result.  The iteration order of a Python set is not
    specified; [elements] fixes one. *)
Definition sparse_scores (self : predictor) (scores_path : option string)
  (files : gmap string (list entry))
  : result (list entry) * predictor * gmap string (list entry) :=
  match preliminary_scores self with
  | None => (Raise (RuntimeError "Call all_scores before calling sparse_scores"), self, files)
  | Some l =>
      let self1 := set_preliminary_scores self (Some (sort_desc (key_lt Idx0) l)) in
      match _sparse_scores_helper self1 ∅ Idx0 with
      | Raise e => (Raise e, self1, files)
      | Ok all_scores =>
          let self2 := set_preliminary_scores self1
                         (Some (sort_desc (key_lt Idx1) (sort_desc (key_lt Idx0) l))) in
          match _sparse_scores_helper self2 all_scores Idx1 with
          | Raise e => (Raise e, self2, files)
          | Ok all_scores =>
              let out := sort_desc (key_lt Idx0) (elements all_scores) in
              (Ok out, self2,
               match scores_path with
               | Some p => <[p := out]> files
               | None => files
               end)
          end
      end
  end.

(** *** Ranking used to state the properties *)

(** The [k] best entries of entity [a] (a note for [Idx0], a profile for
    [Idx1]) among [l]: highest score first, equal scores in the order of [l]. *)
Definition by_score_lt (x y : entry) : bool := score_lt (score_of x) (score_of y).

Definition top_k (idx : id_index) (a : string) (k : Z) (l : list entry) : list entry :=
  take (Z.to_nat k) (sort_desc by_score_lt (filter (λ e, get_id idx e = a) l)).

(** The run of entity [a] in a scanned sequence, and the entries of [a]
    that one pass over [l] adds. *)
Definition run_of (idx : id_index) (a : string) (l : list entry) : list entry :=
  filter (λ e, get_id idx e = a) l.

Definition pass_emitted (k : Z) (idx : id_index) (l : list entry) : list entry :=
  match l with
  | [] => []
  | e0 :: _ => helper_emitted k idx (0, get_id idx e0) l
  end.

(** How many entries a run of entity [a] can still add, from the state
    [(counter, current_id)] it starts in. *)
Definition run_budget (k : Z) (a : string) (st : Z * string) : Z :=
  if decide (st.2 = a) then Z.max (k - st.1) 0
  else if st.1 <? k then 2 * k - st.1
  else Z.max k 1.



(** The pass as the specification words it: the counter is reset at every
    boundary between runs, and an entry is kept when its position within its
    own run is below [k] or it is the first entry of a run. *)
Fixpoint spec_pass (k : Z) (idx : id_index) (prev : option string) (pos : Z)
  (l : list entry) : list entry :=
  match l with
  | [] => []
  | e :: l' =>
      let boundary := bool_decide (prev ≠ Some (get_id idx e)) in
      let pos' := if boundary then 0 else pos in
      if (pos' <? k) || boundary
      then e :: spec_pass k idx (Some (get_id idx e)) (pos' + 1) l'
      else spec_pass k idx (Some (get_id idx e)) (pos' + 1) l'
  end.

Definition spec_pass_emitted (k : Z) (idx : id_index) (l : list entry) : list entry :=
  spec_pass k idx None 0 l.

End predictor.

Global Arguments entry : clear implicits.
Global Arguments predictor : clear implicits.

End Specter.

(** ** Further exception classes

    [ValueError] and [ZeroDivisionError] are raised by the functions
    modelled below only; [outcome] is [result] over the larger set of
    exceptions. *)

Inductive error :=
| Exn (e : exn)
| ValueError (msg : string)
| ZeroDivisionError (msg : string).

Inductive outcome (A : Type) :=
| Return (a : A)
| Throw (e : error).
Arguments Return {A} a.
Arguments Throw {A} e.

Global Instance outcome_ret : MRet outcome := λ A a, Return a.
Global Instance outcome_bind : MBind outcome :=
  λ A B f m, match m with Return a => f a | Throw e => Throw e end.

Definition of_result {A} (r : result A) : outcome A :=
  match r with Ok a => Return a | Raise e => Throw (Exn e) end.

(** A loop body run over a list, with an accumulator; the first exception
    ends the loop. *)
Fixpoint foldR {A S} (f : S → A → result S) (s : S) (l : list A) : result S :=
  match l with
  | [] => Ok s
  | x :: l' => s' ← f s x; foldR f s' l'
  end.

(** ** Python dicts in insertion order

    A dict that is iterated is a list of items with distinct keys: a new key
    goes to the end, an assignment to a key that exists keeps its place. *)

Fixpoint dict_get {V} (k : string) (d : list (string * V)) : option V :=
  match d with
  | [] => None
  | (k', v) :: d' => if decide (k' = k) then Some v else dict_get k d'
  end.

(** [d[k] = v] *)
Fixpoint dict_set {V} (k : string) (v : V) (d : list (string * V)) : list (string * V) :=
  match d with
  | [] => [(k, v)]
  | (k', v') :: d' =>
      if decide (k' = k) then (k, v) :: d' else (k', v') :: dict_set k v d'
  end.

(** [d[k].append(v)] on a [defaultdict(list)] *)
Fixpoint dict_append {V} (k : string) (v : V) (d : list (string * list V))
  : list (string * list V) :=
  match d with
  | [] => [(k, [v])]
  | (k', vs) :: d' =>
      if decide (k' = k) then (k, vs ++ [v]) :: d' else (k', vs) :: dict_append k v d'
  end.

(** [os.path.join(a, b)] on POSIX paths. *)
Definition path_join (a b : string) : string :=
  if String.prefix "/" b then b
  else if bool_decide (a = "") || String.prefix "/" (String.rev a) then a +:+ b
  else a +:+ "/" +:+ b.

(** ** JSON values and Python dicts

    A dict with string keys is a finite map; the order of [dict.keys()]
    (used only to print the offending keys of a request) is the order in
    which the map enumerates them. *)

Inductive json :=
| JNull
| JBool (b : bool)
| JNum (z : Z)
| JStr (s : string)
| JArr (l : list json)
| JObj (m : gmap string json).

(** [v == s] for a string literal [s]. *)
Definition json_is_str (v : json) (s : string) : bool :=
  match v with
  | JStr s' => bool_decide (s' = s)
  | _ => false
  end.

(** [list(d.keys())] as an f-string prints it, for keys without quotes. *)
Definition repr_keys {V} (d : gmap string V) : string :=
  "[" +:+ String.concat ", " ((λ k, "'" +:+ k +:+ "'") <$> (map_to_list d).*1) +:+ "]".

(** [needle in v] where [v] is the value of a JSON field. *)
Definition json_contains (needle : string) (v : json) : result bool :=
  match v with
  | JStr s => Ok (bool_decide (is_Some (String.index 0 needle s)))
  | JArr l => Ok (existsb (λ x, json_is_str x needle) l)
  | JObj m => Ok (bool_decide (is_Some (m !! needle)))
  | _ => Raise (TypeError "argument is not iterable")
  end.

(** Python's truth value of a JSON value. *)
Definition truthy (v : json) : bool :=
  match v with
  | JNull => false
  | JBool b => b
  | JNum z => bool_decide (z ≠ 0)
  | JStr s => bool_decide (s ≠ "")
  | JArr l => match l with [] => false | _ => true end
  | JObj m => bool_decide (m ≠ ∅)
  end.

(** [d[k][field] = value] for a dict-valued [d[k]]. *)
Definition set_nested (d : gmap string json) (k field : string) (value : json)
  : result (gmap string json) :=
  match d !! k with
  | None => Raise (KeyError k)
  | Some (JObj inner) => Ok (<[k := JObj (<[field := value]> inner)]> d)
  | Some _ => Raise (TypeError "object does not support item assignment")
  end.

(** [str.lower()] on the ASCII letters. *)
Definition ascii_lower (c : Ascii.ascii) : Ascii.ascii :=
  let n := Ascii.nat_of_ascii c in
  if bool_decide (65 ≤ n ≤ 90)%nat then Ascii.ascii_of_nat (n + 32) else c.

Fixpoint lower (s : string) : string :=
  match s with
  | EmptyString => EmptyString
  | String c s' => String (ascii_lower c) (lower s')
  end.

Definition SUPERUSER_IDS : list string := ["openreview.net"].


Definition NotFound : exn := OpenReviewException "Job not found".

(** ** service/utils.py *)

Module Utils.

(** [_get_required_field] (lines 191-196): the field and the dict without it. *)
Definition _get_required_field (req : gmap string json) (superkey key : string)
  : result (json * gmap string json) :=
  match req !! key with
  | Some field => Ok (field, delete key req)
  | None =>
      Raise (OpenReviewException
        ("Bad request: required field missing in " +:+ superkey +:+ ": " +:+ key))
  end.

(** [APIRequest._load_entity] (lines 253-285): the target entity. *)
Definition _load_entity (entity_id : string) (source_entity : json)
  : result (gmap string json) :=
  match source_entity with
  | JObj source_entity =>
      '(type, source_entity) ← _get_required_field source_entity entity_id "type";
      let target_entity : gmap string json := {[ "type" := type ]} in
      '(target_entity, source_entity) ←
        (if json_is_str type "Group" then
           match source_entity !! "memberOf" with
           | Some member_of =>
               let target_entity := <["memberOf" := member_of]> target_entity in
               let source_entity := delete "memberOf" source_entity in
               match source_entity !! "expertise" with
               | Some expertise =>
                   Ok (<["expertise" := expertise]> target_entity,
                       delete "expertise" source_entity)
               | None => Ok (target_entity, source_entity)
               end
           | None =>
               Raise (OpenReviewException
                 ("Bad request: no valid Group properties in " +:+ entity_id))
           end
         else if json_is_str type "Note" then
           match source_entity !! "invitation", source_entity !! "id" with
           | Some _, Some _ =>
               Raise (OpenReviewException
                 ("Bad request: only provide a single id or single invitation in "
                  +:+ entity_id))
           | Some invitation, None =>
               Ok (<["invitation" := invitation]> target_entity,
                   delete "invitation" source_entity)
           | None, Some id =>
               Ok (<["id" := id]> target_entity, delete "id" source_entity)
           | None, None =>
               Raise (OpenReviewException
                 ("Bad request: no valid Note properties in " +:+ entity_id))
           end
         else
           Raise (OpenReviewException
             ("Bad request: invalid type in " +:+ entity_id)));
      if bool_decide (source_entity ≠ ∅) then
        Raise (OpenReviewException
          ("Bad request: unexpected fields in " +:+ entity_id +:+ ": "
           +:+ repr_keys source_entity))
      else Ok target_entity
  | JArr _ => Raise (TypeError "'str' object cannot be interpreted as an integer")
  | _ => Raise (AttributeError "object has no attribute 'pop'")
  end.

Record APIRequest := {
  api_name : json;
  api_entityA : gmap string json;
  api_entityB : gmap string json;
  api_model : json
}.

(** [APIRequest.__init__] (lines 220-251). *)
Definition APIRequest_init (request : gmap string json) : result APIRequest :=
  '(name, request) ← _get_required_field request "request" "name";
  '(entity_a, request) ← _get_required_field request "request" "entityA";
  '(entity_b, request) ← _get_required_field request "request" "entityB";
  entityA ← _load_entity "entityA" entity_a;
  entityB ← _load_entity "entityB" entity_b;
  let model := default (JObj ∅) (request !! "model") in
  let request := delete "model" request in
  if bool_decide (request ≠ ∅) then
    Raise (OpenReviewException
      ("Bad request: unexpected fields in request: " +:+ repr_keys request))
  else Ok {| api_name := name; api_entityA := entityA;
             api_entityB := entityB; api_model := model |}.

(** The requests [APIRequest] is meant to accept: [name], [entityA] and
    [entityB] present, each entity an object of type Group with [memberOf]
    (and possibly [expertise]) or of type Note with exactly one of
    [invitation] and [id], and nothing else but an optional [model]. *)
Definition valid_entity (e : json) : bool :=
  match e with
  | JObj m =>
      match m !! "type" with
      | Some type =>
          if json_is_str type "Group" then
            bool_decide (is_Some (m !! "memberOf")
                         ∧ dom m ⊆ {[ "type"; "memberOf"; "expertise" ]})
          else if json_is_str type "Note" then
            bool_decide ((is_Some (m !! "invitation") ∧ dom m ⊆ {[ "type"; "invitation" ]})
                         ∨ (is_Some (m !! "id") ∧ dom m ⊆ {[ "type"; "id" ]}))
          else false
      | None => false
      end
  | _ => false
  end.

Definition valid_request (request : gmap string json) : bool :=
  bool_decide (is_Some (request !! "name"))
  && from_option valid_entity false (request !! "entityA")
  && from_option valid_entity false (request !! "entityB")
  && bool_decide (dom request ⊆ {[ "name"; "entityA"; "entityB"; "model" ]}).


(** The attributes of a [JobConfig] that the store operations read. *)
Record JobConfig := {
  name : string;
  user_id : string;
  job_id : string;
  job_dir : string;
  status : string;
  description : string
}.

(** The Redis database of job records, and the directories that exist. *)
Record store := {
  db : gmap string JobConfig;
  dirs : gset string
}.

Definition job_key (job_id : string) : string := "job:" +:+ job_id.

(** [JobConfig.remove_job] (lines 419-430). *)
Definition remove_job (user_id job_id : string) (st : store)
  : result JobConfig * store :=
  match db st !! job_key job_id with
  | None => (Raise (OpenReviewException "Job not found"), st)
  | Some config =>
      if bool_decide (Utils.user_id config ≠ user_id)
         && bool_decide (user_id ∉ SUPERUSER_IDS)
      then (Raise (OpenReviewException
              "Forbidden: Insufficient permissions to modify job"), st)
      else (Ok config, {| db := delete (job_key job_id) (db st); dirs := dirs st |})
  end.


(** [JobConfig.load_all_jobs] (lines 378-398); [scan_iter] enumerates the
    keys that start with "job:" in the order of the map. *)
Fixpoint load_all_jobs_loop (user_id : string) (keys : list string) (st : store)
  : result (list JobConfig) * store :=
  match keys with
  | [] => (Ok [], st)
  | job_key :: keys' =>
      match db st !! job_key with
      | None => (Raise (TypeError "a bytes-like object is required, not 'NoneType'"), st)
      | Some current_config =>
          if bool_decide (job_dir current_config ∉ dirs st) then
            match remove_job user_id (job_id current_config) st with
            | (Raise e, st') => (Raise e, st')
            | (Ok _, st') => load_all_jobs_loop user_id keys' st'
            end
          else
            match load_all_jobs_loop user_id keys' st with
            | (Raise e, st') => (Raise e, st')
            | (Ok configs, st') =>
                if bool_decide (Utils.user_id current_config = user_id)
                   || bool_decide (user_id ∈ SUPERUSER_IDS)
                then (Ok (current_config :: configs), st')
                else (Ok configs, st')
            end
      end
  end.

Definition load_all_jobs (user_id : string) (st : store)
  : result (list JobConfig) * store :=
  load_all_jobs_loop user_id
    (filter (λ k, String.prefix "job:" k = true) (map_to_list (db st)).*1) st.

(** Every record is stored under the key of its own id, as [save] (lines
    373-376) stores it. *)
Definition well_keyed (st : store) : Prop :=
  ∀ k config, db st !! k = Some config → String.prefix "job:" k = true →
              k = job_key (job_id config).

(** Whom [remove_job] lets through. *)
Definition may_modify (user_id : string) (config : JobConfig) : Prop :=
  Utils.user_id config = user_id ∨ user_id ∈ SUPERUSER_IDS.

(** [d[k]] *)
Definition subscript (d : gmap string json) (k : string) : result json :=
  match d !! k with
  | Some v => Ok v
  | None => Raise (KeyError k)
  end.

(** [get_user_id] (lines 179-189); the client is given by its [user]
    attribute, and is [None] when there is no client. *)
Definition get_user_id (openreview_client : option json) : result json :=
  match openreview_client with
  | None => Raise (AttributeError "'NoneType' object has no attribute 'user'")
  | Some user =>
      if truthy user then
        match user with
        | JObj u =>
            match default (JObj ∅) (u !! "user") with
            | JObj inner => Ok (default JNull (inner !! "id"))
            | _ => Raise (AttributeError "object has no attribute 'get'")
            end
        | _ => Raise (AttributeError "object has no attribute 'get'")
        end
      else Ok JNull
  end.

(** [APIRequest.to_json] (lines 287-296). *)
Definition APIRequest_to_json (self : APIRequest) : result (gmap string json) :=
  let body : gmap string json :=
    {[ "name" := api_name self;
       "entityA" := JObj (api_entityA self);
       "entityB" := JObj (api_entityB self) ]} in
  match api_model self with
  | JObj model =>
      if bool_decide (model ≠ ∅) then Ok (<["model" := JObj model]> body) else Ok body
  | _ => Raise (AttributeError "object has no attribute 'keys'")
  end.

(** A request as [to_json] gives it back: an empty [model] is left out. *)
Definition without_empty_model (request : gmap string json) : gmap string json :=
  match request !! "model" with
  | Some (JObj model) => if bool_decide (model = ∅) then delete "model" request else request
  | _ => request
  end.

(** *** [_camel_to_snake] (lines 448-450), on ASCII text *)

Definition is_upper (c : Ascii.ascii) : bool :=
  bool_decide (65 ≤ Ascii.nat_of_ascii c ≤ 90)%nat.
Definition is_lower (c : Ascii.ascii) : bool :=
  bool_decide (97 ≤ Ascii.nat_of_ascii c ≤ 122)%nat.
Definition is_digit (c : Ascii.ascii) : bool :=
  bool_decide (48 ≤ Ascii.nat_of_ascii c ≤ 57)%nat.
Definition is_newline (c : Ascii.ascii) : bool :=
  bool_decide (Ascii.nat_of_ascii c = 10)%nat.
Definition underscore : Ascii.ascii := Ascii.ascii_of_nat 95.

(** [re.sub('(.)([A-Z][a-z]+)', r'\1_\2', s)]: the scan from the left; at a
    character that is followed by an upper-case letter and a lower-case
    letter the three are a match, which goes on over the lower-case letters
    that follow ([in_match]); the scan resumes behind the match. *)
Fixpoint sub_word (in_match : bool) (s : string) : string :=
  match s with
  | EmptyString => EmptyString
  | String c s' =>
      if in_match && is_lower c then String c (sub_word true s')
      else
        match s' with
        | String u s'' =>
            match s'' with
            | String l _ =>
                if negb (is_newline c) && is_upper u && is_lower l
                then String c (String underscore (String u (sub_word true s'')))
                else String c (sub_word false s')
            | EmptyString => String c (sub_word false s')
            end
        | EmptyString => String c (sub_word false s')
        end
  end.

(** [re.sub('([a-z0-9])([A-Z])', r'\1_\2', s)] *)
Fixpoint sub_hump (s : string) : string :=
  match s with
  | EmptyString => EmptyString
  | String c s' =>
      match s' with
      | String u s'' =>
          if (is_lower c || is_digit c) && is_upper u
          then String c (String underscore (String u (sub_hump s'')))
          else String c (sub_hump s')
      | EmptyString => String c EmptyString
      end
  end.

Definition _camel_to_snake (camel_str : string) : string :=
  lower (sub_hump (sub_word false camel_str)).

(** A text without an upper-case letter. *)
Fixpoint no_upper (s : string) : bool :=
  match s with
  | EmptyString => true
  | String c s' => negb (is_upper c) && no_upper s'
  end.

(** *** [JobConfig] with all its attributes

    [to_json], [from_json] and [from_request] assign and read every
    attribute of a [JobConfig]; an attribute that is [None] is [JNull]. *)
Module Config.

Record JobConfig := {
  name : json;
  user_id : json;
  job_id : json;
  baseurl : json;
  baseurl_v2 : json;
  job_dir : json;
  cdate : json;
  mdate : json;
  status : json;
  description : json;
  match_group : json;
  alternate_match_group : json;
  dataset : json;
  model : json;
  exclusion_inv : json;
  paper_invitation : json;
  paper_id : json;
  model_params : json;
  api_request : option APIRequest
}.

Definition is_None (v : json) : bool :=
  match v with JNull => true | _ => false end.

(** [JobConfig.to_json] (lines 343-371). *)
Definition pre_body (self : JobConfig) : list (string * json) :=
  [("name", name self); ("user_id", user_id self); ("job_id", job_id self);
   ("baseurl", baseurl self); ("baseurl_v2", baseurl_v2 self);
   ("job_dir", job_dir self); ("cdate", cdate self); ("mdate", mdate self);
   ("match_group", match_group self);
   ("alternate_match_group", alternate_match_group self);
   ("dataset", dataset self); ("model", model self);
   ("exclusion_inv", exclusion_inv self);
   ("paper_invitation", paper_invitation self); ("paper_id", paper_id self);
   ("model_params", model_params self)].

Definition to_json (self : JobConfig) : gmap string json :=
  foldl (λ body kv,
           if negb (is_None kv.2) || bool_decide (kv.1 = "token")
           then <[kv.1 := kv.2]> body else body)
    ∅ (pre_body self).

(** [JobConfig.from_json] (lines 568-589). *)
Definition from_json (job_config : gmap string json) : JobConfig :=
  let get k := default JNull (job_config !! k) in
  {| name := get "name"; user_id := get "user_id"; job_id := get "job_id";
     baseurl := get "baseurl"; baseurl_v2 := get "baseurl_v2";
     job_dir := get "job_dir"; cdate := get "cdate"; mdate := get "mdate";
     status := get "status"; description := get "description";
     match_group := get "match_group";
     alternate_match_group := get "alternate_match_group";
     dataset := get "dataset"; model := get "model";
     exclusion_inv := get "exclusion_inv";
     paper_invitation := get "paper_invitation"; paper_id := get "paper_id";
     model_params := get "model_params";
     api_request := None |}.

(** The keys that [to_json] writes. *)
Definition json_fields : list string :=
  ["name"; "user_id"; "job_id"; "baseurl"; "baseurl_v2"; "job_dir"; "cdate";
   "mdate"; "match_group"; "alternate_match_group"; "dataset"; "model";
   "exclusion_inv"; "paper_invitation"; "paper_id"; "model_params"].

(** *** [JobConfig.from_request] (lines 440-566) *)

Definition allowed_model_params : list string :=
  ["name"; "sparseValue"; "useTitle"; "useAbstract"; "scoreComputation";
   "skipSpecter"].

Definition path_fields : list string :=
  ["work_dir"; "scores_path"; "publications_path"; "submissions_path"].

(** Lines 486-505: the paper fields and the exclusion invitation of a Note
    entity, as [(paper_invitation, paper_id, exclusion_inv)]. *)
Definition note_fields (entity : gmap string json) : result (json * json * json) :=
  let inv := default JNull (entity !! "invitation") in
  let id := default JNull (entity !! "id") in
  let excl_inv := default JNull (entity !! "expertise") in
  let paper_invitation := if truthy inv then inv else JNull in
  let paper_id := if truthy id then id else JNull in
  exclusion_inv ←
    (if truthy excl_inv then
       match excl_inv with
       | JObj e =>
           match default (JObj ∅) (e !! "exclusion") with
           | JObj exclusion => Ok (default JNull (exclusion !! "invitation"))
           | _ => Raise (AttributeError "object has no attribute 'get'")
           end
       | _ => Raise (AttributeError "object has no attribute 'get'")
       end
     else Ok JNull);
  Ok (paper_invitation, paper_id, exclusion_inv).

(** Lines 535-554: one round of the loop over the parameters of the
    request's [model]. *)
Definition model_param_step (api_model : gmap string json)
  (model_params : gmap string json) (param : string) : result (gmap string json) :=
  if bool_decide (param = "scoreComputation") then
    let compute_with := default JNull (api_model !! "scoreComputation") in
    if json_is_str compute_with "max" then
      Ok (<["average_score" := JBool false]> (<["max_score" := JBool true]> model_params))
    else if json_is_str compute_with "avg" then
      Ok (<["average_score" := JBool true]> (<["max_score" := JBool false]> model_params))
    else
      Raise (OpenReviewException
        "Bad request: invalid value in field 'scoreComputation' in 'model' object")
  else if bool_decide (param ∉ allowed_model_params) then
    Raise (OpenReviewException
      ("Bad request: unexpected fields in model: ['" +:+ param +:+ "']"))
  else
    value ← subscript api_model param;
    Ok (<[_camel_to_snake param := value]> model_params).

(** Lines 521-564: the model parameters. *)
Definition load_model_params (api_request : APIRequest)
  (starting_config server_config : gmap string json) (model : json)
  (root_dir : string) : result (gmap string json) :=
  model_params ←
    match default (JObj ∅) (starting_config !! "model_params") with
    | JObj model_params => Ok model_params
    | _ => Raise (AttributeError "object has no attribute 'get'")
    end;
  let get k d := default d (model_params !! k) in
  let params : gmap string json :=
    <["use_cuda" := get "use_cuda" (JBool false)]>
    (<["batch_size" := get "batch_size" (JNum 1)]>
    (<["skip_specter" := get "skip_specter" JNull]>
    (<["max_score" := get "max_score" JNull]>
    (<["average_score" := get "average_score" JNull]>
    (<["use_abstract" := get "use_abstract" JNull]>
    (<["use_title" := get "use_title" JNull]> ∅)))))) in
  params ←
    (if truthy (api_model api_request) then
       match api_model api_request with
       | JObj api_model =>
           foldR (model_param_step api_model) params (map_to_list api_model).*1
       | _ => Raise (AttributeError "object has no attribute 'keys'")
       end
     else Ok params);
  let params := foldl (λ params field, <[field := JStr root_dir]> params)
                  params path_fields in
  has_specter ← json_contains "specter" model;
  params ←
    (if (has_specter : bool) then
       specter_dir ← subscript server_config "SPECTER_DIR";
       Ok (<["specter_dir" := specter_dir]> params)
     else Ok params);
  has_mfr ← json_contains "mfr" model;
  if (has_mfr : bool) then
    vocab ← subscript server_config "MFR_VOCAB_DIR";
    let params := <["mfr_feature_vocab_file" := vocab]> params in
    checkpoint ← subscript server_config "MFR_CHECKPOINT_DIR";
    Ok (<["mfr_checkpoint_dir" := checkpoint]> params)
  else Ok params.

(** Lines 472-509: the match groups and the paper fields, as
    [(match_group, alternate_match_group, paper_invitation, paper_id,
    exclusion_inv)]. *)
Definition load_entities (api_request : APIRequest)
  (starting_config : gmap string json)
  : result (json * json * json * json * json) :=
  let match_group := default JNull (starting_config !! "match_group") in
  let alternate_match_group :=
    default JNull (starting_config !! "alternate_match_group") in
  type_a ← subscript (api_entityA api_request) "type";
  match_group ←
    (if json_is_str type_a "Group" then
       member_of ← subscript (api_entityA api_request) "memberOf";
       Ok (JArr [member_of])
     else Ok match_group);
  type_b ← subscript (api_entityB api_request) "type";
  alternate_match_group ←
    (if json_is_str type_b "Group" then
       member_of ← subscript (api_entityB api_request) "memberOf";
       Ok (JArr [member_of])
     else Ok alternate_match_group);
  '(paper_invitation, paper_id, exclusion_inv) ←
    (if json_is_str type_a "Note" then note_fields (api_entityA api_request)
     else if json_is_str type_b "Note" then note_fields (api_entityB api_request)
     else Ok (JNull, JNull, JNull));
  if negb (is_None alternate_match_group)
     && (negb (is_None paper_id) || negb (is_None paper_invitation))
  then Raise (OpenReviewException
         "Bad request: Cannot provide paper id/invitation and alternate match group")
  else Ok (match_group, alternate_match_group, paper_invitation, paper_id,
           exclusion_inv).

(** [from_request]: the config or the exception, and [starting_config] as
    the call leaves it ([config.dataset] is the [dataset] object of
    [starting_config] itself when it has one).  [job_id] is the id that
    [shortuuid] hands out and [now] the reading [int(time.time() * 1000)]. *)
Definition from_request (api_request : APIRequest)
  (starting_config : gmap string json) (openreview_client : option json)
  (server_config : gmap string json) (working_dir : option string)
  (job_id : string) (now : Z)
  : result JobConfig * gmap string json :=
  match
    user_id ← get_user_id openreview_client;
    baseurl ← subscript server_config "OPENREVIEW_BASEURL";
    baseurl_v2 ← subscript server_config "OPENREVIEW_BASEURL_V2";
    root_dir ← match working_dir with
               | Some working_dir => Ok (path_join working_dir job_id)
               | None =>
                   Raise (TypeError
                     "expected str, bytes or os.PathLike object, not NoneType")
               end;
    '(dataset, starting_config) ←
      match starting_config !! "dataset" with
      | None => Ok (JObj {[ "directory" := JStr root_dir ]}, starting_config)
      | Some (JObj dataset) =>
          let dataset := JObj (<["directory" := JStr root_dir]> dataset) in
          Ok (dataset, <["dataset" := dataset]> starting_config)
      | Some _ => Raise (TypeError "object does not support item assignment")
      end;
    Ok (user_id, baseurl, baseurl_v2, root_dir, dataset, starting_config)
  with
  | Raise e => (Raise e, starting_config)
  | Ok (user_id, baseurl, baseurl_v2, root_dir, dataset, starting_config) =>
      (let status := JStr "Initialized" in
       let description := JStr "Server received config and allocated space" in
       '(match_group, alternate_match_group, paper_invitation, paper_id,
         exclusion_inv) ← load_entities api_request starting_config;
       let model := default JNull (starting_config !! "model") in
       model_params ← load_model_params api_request starting_config server_config
                        model root_dir;
       Ok {| name := api_name api_request; user_id := user_id;
             job_id := JStr job_id; baseurl := baseurl; baseurl_v2 := baseurl_v2;
             job_dir := JStr root_dir; cdate := JNum now; mdate := JNum now;
             status := status; description := description;
             match_group := match_group;
             alternate_match_group := alternate_match_group;
             dataset := dataset; model := model; exclusion_inv := exclusion_inv;
             paper_invitation := paper_invitation; paper_id := paper_id;
             model_params := JObj model_params;
             api_request := Some api_request |},
       starting_config)
  end.

(** The two score flags are booleans of which exactly one is set: what
    [Specter.__init__] accepts. *)
Definition one_score_flag (params : gmap string json) : Prop :=
  ∃ average max,
    params !! "average_score" = Some (JBool average)
    ∧ params !! "max_score" = Some (JBool max)
    ∧ xorb max average = true.

End Config.

End Utils.

(** ** service/expertise.py *)

Module Expertise.

Inductive JobStatus :=
| INITIALIZED | QUEUED | FETCHING_DATA | EXPERTISE_QUEUED
| RUN_EXPERTISE | COMPLETED | ERROR.

Definition JobStatus_value (s : JobStatus) : string :=
  match s with
  | INITIALIZED => "Initialized"
  | QUEUED => "Queued"
  | FETCHING_DATA => "Fetching Data"
  | EXPERTISE_QUEUED => "Queued for Expertise"
  | RUN_EXPERTISE => "Running Expertise"
  | COMPLETED => "Completed"
  | ERROR => "Error"
  end.

(** [JobDescription.VALS] *)
Definition descriptions (s : JobStatus) : option string :=
  match s with
  | INITIALIZED => Some "Server received config and allocated space"
  | QUEUED => Some "Job is waiting to start fetching OpenReview data"
  | FETCHING_DATA => Some "Job is currently fetching data from OpenReview"
  | EXPERTISE_QUEUED =>
      Some "Job has assembled the data and is waiting in queue for the expertise model"
  | RUN_EXPERTISE =>
      Some "Job is running the selected expertise model to compute scores"
  | COMPLETED => Some "Job is complete and the computed scores are ready"
  | ERROR => None
  end.

(** The attributes of [ExpertiseService] set by its [__init__]. *)
Record service := {
  working_dir : string;
  specter_dir : string;
  mfr_feature_vocab_file : string;
  mfr_checkpoint_dir : string;
  default_config : gmap string json
}.

Definition path_fields : list string :=
  ["work_dir"; "scores_path"; "publications_path"; "submissions_path"].

(** What the service acts on:
    - [job_dirs]: the directories under [working_dir], by name, each with
      the content of its [config.json] if it has one;
    - [index_file]: the content of [index.json], if the file exists;
    - [queue]: the tasks sent to the queue 'userpaper', as
      [(task_id, config, token)];
    - [write_log]: every [json.dump] to a [config.json], in order, as
      [(directory, content)];
    - [uuid_draws], [clock_reads]: how many ids [shortuuid] has handed out
      and how often the clock was read. *)
Record world := {
  job_dirs : gmap string (option (gmap string json));
  index_file : option (gmap string (list json));
  queue : list (string * gmap string json * json);
  write_log : list (string * gmap string json);
  uuid_draws : nat;
  clock_reads : nat
}.

Section service.
(** [shortuuid.ShortUUID().random(length=5)] and [int(time.time() * 1000)],
    by the number of the draw or reading. *)
Variable shortuuid_random : nat → string.
Variable clock : nat → Z.
(** The class [ServerConfig] that [_prepare_config] imports from
    [service/utils.py] is not in the sources at hand.  [ServerConfig_to_json
    default request] stands for [ServerConfig(default)], [from_request(request)]
    and [to_json()] in a row: the validated config, or the exception the
    validation raises. *)
Variable ServerConfig_to_json :
  gmap string json → gmap string json → result (gmap string json).

Definition draw_uuid (w : world) : string * world :=
  (shortuuid_random (uuid_draws w),
   {| job_dirs := job_dirs w; index_file := index_file w; queue := queue w;
      write_log := write_log w; uuid_draws := Datatypes.S (uuid_draws w);
      clock_reads := clock_reads w |}).

Definition read_clock (w : world) : Z * world :=
  (clock (clock_reads w),
   {| job_dirs := job_dirs w; index_file := index_file w; queue := queue w;
      write_log := write_log w; uuid_draws := uuid_draws w;
      clock_reads := Datatypes.S (clock_reads w) |}).

(** [os.makedirs(dir)] unless the directory exists. *)
Definition makedirs (dir : string) (w : world) : world :=
  match job_dirs w !! dir with
  | Some _ => w
  | None =>
      {| job_dirs := <[dir := None]> (job_dirs w); index_file := index_file w;
         queue := queue w; write_log := write_log w;
         uuid_draws := uuid_draws w; clock_reads := clock_reads w |}
  end.

(** [json.dump(config, f)] on [dir/config.json]. *)
Definition write_config (dir : string) (config : gmap string json) (w : world) : world :=
  {| job_dirs := <[dir := Some config]> (job_dirs w); index_file := index_file w;
     queue := queue w; write_log := write_log w ++ [(dir, config)];
     uuid_draws := uuid_draws w; clock_reads := clock_reads w |}.

Definition write_index (index : gmap string (list json)) (w : world) : world :=
  {| job_dirs := job_dirs w; index_file := Some index;
     queue := queue w; write_log := write_log w;
     uuid_draws := uuid_draws w; clock_reads := clock_reads w |}.

Definition apply_async (task_id : string) (config : gmap string json) (token : json)
  (w : world) : world :=
  {| job_dirs := job_dirs w; index_file := index_file w;
     queue := queue w ++ [(task_id, config, token)]; write_log := write_log w;
     uuid_draws := uuid_draws w; clock_reads := clock_reads w |}.

(** [d[k]] *)
Definition getitem (d : gmap string json) (k : string) : result json :=
  match d !! k with
  | Some v => Ok v
  | None => Raise (KeyError k)
  end.

(** [_filter_config] (lines 55-69). *)
Definition _filter_config (running_config : gmap string json)
  : result (gmap string json) :=
  _ ← getitem running_config "baseurl";
  let running_config := delete "baseurl" running_config in
  _ ← getitem running_config "user_id";
  Ok (delete "user_id" running_config).

(** Lines 100-105: the paths of the models named by [config['model']]. *)
Definition set_model_paths (self : service) (config : gmap string json)
  : result (gmap string json) :=
  let model := default (JStr "specter+mfr") (config !! "model") in
  has_specter ← json_contains "specter" model;
  config ← (if (has_specter : bool)
            then set_nested config "model_params" "specter_dir" (JStr (specter_dir self))
            else Ok config);
  let model := default (JStr "specter+mfr") (config !! "model") in
  has_mfr ← json_contains "mfr" model;
  if (has_mfr : bool) then
    config ← set_nested config "model_params" "mfr_feature_vocab_file"
               (JStr (mfr_feature_vocab_file self));
    set_nested config "model_params" "mfr_checkpoint_dir"
      (JStr (mfr_checkpoint_dir self))
  else Ok config.

(** [_prepare_config] (lines 71-114): [(config, token)]. *)
Definition _prepare_config (self : service) (request : gmap string json) (w : world)
  : result (gmap string json * json) * world :=
  match
    config ← ServerConfig_to_json (default_config self) request;
    job_id ← getitem request "job_id";
    job_id ← match job_id with
             | JStr job_id => Ok job_id
             | _ => Raise (TypeError "expected str, bytes or os.PathLike object")
             end;
    let root_dir := working_dir self +:+ "/" +:+ job_id in
    config ← set_nested config "dataset" "directory" (JStr root_dir);
    config ← foldl (λ config field,
                config ← config;
                set_nested config "model_params" field (JStr root_dir))
              (Ok config) path_fields;
    Ok (<["job_dir" := JStr root_dir]> config, job_id)
  with
  | Raise e => (Raise e, w)
  | Ok (config, job_id) =>
      let '(cdate, w) := read_clock w in
      let config := <["cdate" := JNum cdate]> config in
      let config := <["mdate" := JNum cdate]> config in
      let config := <["status" := JStr (JobStatus_value INITIALIZED)]> config in
      let config := <["description" :=
                        JStr (default "" (descriptions INITIALIZED))]> config in
      match
        config ← set_model_paths self config;
        token ← getitem config "token";
        Ok (delete "token" config, token)
      with
      | Raise e => (Raise e, w)
      | Ok (config, token) =>
          let w := makedirs job_id w in
          let w := write_config job_id config w in
          (Ok (config, token), w)
      end
  end.

(** [_add_to_user_index] (lines 165-192). *)
Definition _add_to_user_index (user_id : string) (job_id : json) (w : world) : world :=
  let index := default ∅ (index_file w) in
  let index :=
    match index !! user_id with
    | None => <[user_id := [job_id]]> index
    | Some jobs => <[user_id := jobs ++ [job_id]]> index
    end in
  write_index index w.

(** [start_expertise] (lines 250-273). *)
Definition start_expertise (self : service) (request : gmap string json) (w : world)
  : result string * world :=
  let '(job_id, w) := draw_uuid w in
  let request := <["job_id" := JStr job_id]> request in
  match _prepare_config self request w with
  | (Raise e, w) => (Raise e, w)
  | (Ok (config, token), w) =>
      let '(mdate, w) := read_clock w in
      let config := <["mdate" := JNum mdate]> config in
      let config := <["status" := JStr (JobStatus_value QUEUED)]> config in
      let config := <["description" := JStr (default "" (descriptions QUEUED))]> config in
      match
        user_id ← getitem config "user_id";
        config_job_id ← getitem config "job_id";
        match user_id with
        | JStr user_id => Ok (user_id, config_job_id)
        | _ => Raise (TypeError "unhashable or non-string user id")
        end
      with
      | Raise e => (Raise e, w)
      | Ok (user_id, config_job_id) =>
          let w := _add_to_user_index user_id config_job_id w in
          let w := apply_async job_id config token w in
          match getitem config "job_dir" with
          | Ok (JStr _) => (Ok job_id, write_config job_id config w)
          | Ok _ => (Raise (TypeError "expected str, bytes or os.PathLike object"), w)
          | Raise e => (Raise e, w)
          end
      end
  end.

(** [_get_subdirs] (lines 116-135); [os.listdir] lists the directories in
    the order of the map. *)
Definition _get_subdirs (user_id : string) (w : world) : result (list string) :=
  let subdirs := (map_to_list (job_dirs w)).*1 in
  if bool_decide (lower user_id ∈ SUPERUSER_IDS) then Ok subdirs
  else
    filtered_dirs ← mapR (λ job_dir,
      match job_dirs w !! job_dir with
      | Some (Some config) =>
          owner ← getitem config "user_id";
          Ok (if json_is_str owner user_id then [job_dir] else [])
      | _ => Raise (FileNotFoundError (job_dir +:+ "/config.json"))
      end) subdirs;
    Ok (concat filtered_dirs).

(** [get_expertise_status] (lines 318-364); it reads and writes nothing
    back, so the world it returns is the one it was given. *)
Definition get_expertise_status (user_id job_id : string) (w : world)
  : result (gmap string json) * world :=
  (job_subdirs ← _get_subdirs user_id w;
   let job_subdirs := filter (λ name, name = job_id) job_subdirs in
   match job_subdirs with
   | [] => Raise (OpenReviewException "Job not found")
   | _ :: _ :: _ =>
       Raise (OpenReviewException "Single job not found: multiple matching jobs returned")
   | [job_dir] =>
       match job_dirs w !! job_dir with
       | Some (Some config) =>
           status ← getitem config "status";
           description ← getitem config "description";
           filtered_config ← _filter_config config;
           name ← getitem filtered_config "name";
           cdate ← getitem filtered_config "cdate";
           mdate ← getitem filtered_config "mdate";
           Ok (<["job_id" := JStr job_dir]> (<["name" := name]>
               (<["status" := status]> (<["description" := description]>
               (<["cdate" := cdate]> (<["mdate" := mdate]>
               ({[ "config" := JObj filtered_config ]} : gmap string json)))))))
       | _ => Raise (FileNotFoundError (job_dir +:+ "/config.json"))
       end
   end, w).

End service.

(** Every job directory has a [config.json] that records its owner. *)
Definition readable (w : world) : Prop :=
  ∀ d, is_Some (job_dirs w !! d) →
       ∃ c owner, job_dirs w !! d = Some (Some c) ∧ c !! "user_id" = Some owner.

(** The fields that [_prepare_config] and [start_expertise] set or remove,
    and the config that [start_expertise] writes last (lines 258-268). *)
Definition prepared_fields : list string :=
  ["dataset"; "model_params"; "job_dir"; "cdate"; "mdate"; "status";
   "description"; "token"].

Definition queued_config (mdate : Z) (config : gmap string json) : gmap string json :=
  <["description" := JStr (default "" (descriptions QUEUED))]>
    (<["status" := JStr (JobStatus_value QUEUED)]>
       (<["mdate" := JNum mdate]> config)).

(** The directories that [_get_subdirs] lets a caller see: all of them for
    a superuser, else those whose config names the caller. *)
Definition visible (user_id : string) (w : world) (d : string) : Prop :=
  if bool_decide (lower user_id ∈ SUPERUSER_IDS) then is_Some (job_dirs w !! d)
  else ∃ config owner,
         job_dirs w !! d = Some (Some config) ∧ config !! "user_id" = Some owner
         ∧ json_is_str owner user_id = true.

(** Modelled from the spec: the validation of the missing class
    [ServerConfig], used to run the service on concrete requests.  The
    specification has submit validate that "required fields are present and
    no unexpected fields exist (rejects with BadRequest otherwise)"; the
    required and optional fields are the lists [req_fields] and
    [optional_fields] of [ExpertiseService.__init__] (lines 47-49), and the
    config is the default config overridden by the fields of the request. *)
Definition req_fields : list string := ["name"; "match_group"; "user_id"; "job_id"].

Definition optional_fields : list string :=
  ["model"; "model_params"; "exclusion_inv"; "token"; "baseurl"; "baseurl_v2";
   "paper_invitation"; "paper_id"].

Definition ServerConfig_model (default_config request : gmap string json)
  : result (gmap string json) :=
  match filter (λ k, request !! k = None) req_fields with
  | k :: _ =>
      Raise (OpenReviewException ("Bad request: required field missing: " +:+ k))
  | [] =>
      if bool_decide (dom request ⊆ list_to_set (req_fields ++ optional_fields))
      then Ok (request ∪ default_config)
      else Raise (OpenReviewException "Bad request: unexpected fields in request")
  end.

(** ** Listing, fetching and deleting jobs

    In the functions below a job id is the name of a directory under
    [working_dir]: an id that is empty, or has a separator or dots that lead
    [os.path.join] elsewhere, is not modelled. *)

(** The files of the job directories besides [config.json]: the score
    files, by directory and path in it, as the rows that [csv.reader] yields,
    and the content of [metadata.json], by directory. *)
Record job_files := {
  score_files : gmap (string * string) (list (list string));
  metadata_files : gmap string json
}.

(** [shutil.rmtree] on the directory of a job, which its callers have seen
    to exist. *)
Definition rmtree (dir : string) (s : world * job_files) : world * job_files :=
  ({| job_dirs := delete dir (job_dirs s.1); index_file := index_file s.1;
      queue := queue s.1; write_log := write_log s.1;
      uuid_draws := uuid_draws s.1; clock_reads := clock_reads s.1 |},
   {| score_files := filter (λ kv, kv.1.1 ≠ dir) (score_files s.2);
      metadata_files := delete dir (metadata_files s.2) |}).

(** [json.load] of the [config.json] of a directory. *)
Definition read_config (job_dir : string) (w : world) : result (gmap string json) :=
  match job_dirs w !! job_dir with
  | Some (Some config) => Ok config
  | _ => Raise (FileNotFoundError (job_dir +:+ "/config.json"))
  end.

(** [_get_from_user_index] (lines 194-219). *)
Definition _get_from_user_index (user_id : string) (w : world) : result (list json) :=
  match index_file w with
  | None => Raise (OpenReviewException "Bad request: no jobs have been submitted yet")
  | Some index =>
      match index !! user_id with
      | Some jobs => Ok jobs
      | None =>
          Raise (OpenReviewException
                   "User not found: no jobs submitted with this user ID")
      end
  end.

(** The entry of a job in the answers of the status lookups (lines 300-314
    and 351-364). *)
Definition job_entry (job_dir : string) (config : gmap string json)
  : result (gmap string json) :=
  status ← getitem config "status";
  description ← getitem config "description";
  filtered_config ← _filter_config config;
  name ← getitem filtered_config "name";
  cdate ← getitem filtered_config "cdate";
  mdate ← getitem filtered_config "mdate";
  Ok (<["job_id" := JStr job_dir]> (<["name" := name]>
      (<["status" := status]> (<["description" := description]>
      (<["cdate" := cdate]> (<["mdate" := mdate]>
      ({[ "config" := JObj filtered_config ]} : gmap string json))))))).

(** [get_expertise_all_status] (lines 275-316): the list under 'results'. *)
Definition get_expertise_all_status (user_id : string) (w : world)
  : result (list (gmap string json)) :=
  job_subdirs ← _get_subdirs user_id w;
  mapR (λ job_dir, config ← read_config job_dir w; job_entry job_dir config)
       job_subdirs.

Section jobs.
(** The score of a row is what [float] makes of its third field, [None]
    when it raises [ValueError]. *)
Context {F : Type}.
Variable float : string → option F.
(** [x == y] for two JSON values of which neither is a string (where
    [True == 1], and lists and dicts are compared by their elements), and
    [str(x)] for a list or a dict. *)
Variable py_eq : json → json → bool.
Variable py_repr : json → string.

(** [x == y] *)
Definition json_eq (x y : json) : bool :=
  match x, y with
  | JStr a, JStr b => bool_decide (a = b)
  | JStr _, _ | _, JStr _ => false
  | _, _ => py_eq x y
  end.

(** [f"{v}"] *)
Definition format_json (v : json) : string :=
  match v with
  | JStr s => s
  | JNull => "None"
  | JBool true => "True"
  | JBool false => "False"
  | JNum z => pretty z
  | _ => py_repr v
  end.

(** [l.remove(x)]: [l] without its first element equal to [x], if there is
    one. *)
Fixpoint list_remove (x : json) (l : list json) : option (list json) :=
  match l with
  | [] => None
  | y :: l' => if json_eq y x then Some l' else cons y <$> list_remove x l'
  end.

Definition user_not_found : error :=
  Exn (OpenReviewException "User not found: no jobs submitted with this user ID").

(** [_del_from_user_index] (lines 221-248): the index is written only when
    the job was in the list of the user.  The keys of the index are strings,
    so that a [user_id] that is none is no key of it. *)
Definition _del_from_user_index (user_id job_id : json) (w : world) : outcome world :=
  match index_file w with
  | None =>
      Throw (Exn (OpenReviewException "Bad request: no jobs have been submitted yet"))
  | Some index =>
      match user_id with
      | JArr _ | JObj _ => Throw (Exn (TypeError "unhashable type"))
      | JStr user_id =>
          match index !! user_id with
          | Some jobs =>
              match list_remove job_id jobs with
              | Some jobs => Return (write_index (<[user_id := jobs]> index) w)
              | None => Throw (ValueError "list.remove(x): x not in list")
              end
          | None => Throw user_not_found
          end
      | _ => Throw user_not_found
      end
  end.

(** [_get_score_and_metadata_dir] (lines 137-163): the path of the score
    file in the directory; the metadata file is [metadata.json]. *)
Definition _get_score_and_metadata_dir (search_dir : string) (s : world * job_files)
  : result string :=
  config ← read_config search_dir s.1;
  name ← getitem config "name";
  let file := format_json name +:+ ".csv" in
  _ ← match score_files s.2 !! (search_dir, file) with
      | Some _ => Ok ()
      | None =>
          job_id ← getitem config "job_id";
          Raise (OpenReviewException
                   ("Score file not found for job " +:+ format_json job_id))
      end;
  _ ← match metadata_files s.2 !! search_dir with
      | Some _ => Ok ()
      | None =>
          job_id ← getitem config "job_id";
          Raise (OpenReviewException
                   ("Metadata file not found for job " +:+ format_json job_id))
      end;
  Ok file.

Record score_row := { submission : string; user : string; score : F }.

Record job_results := { results : list score_row; metadata : json }.

(** Lines 412-421: what a row of the score file adds to the list. *)
Definition read_row (row : list string) : outcome (list score_row) :=
  match row with
  | [] => Throw (Exn (IndexError "list index out of range"))
  | submission :: row' =>
      if bool_decide (submission = "dummy") then Return []
      else
        match row' with
        | user :: value :: _ =>
            match float value with
            | Some score =>
                Return [{| submission := submission; user := user; score := score |}]
            | None => Throw (ValueError "could not convert string to float")
            end
        | _ => Throw (Exn (IndexError "list index out of range"))
        end
  end.

Fixpoint read_rows (rows : list (list string)) : outcome (list score_row) :=
  match rows with
  | [] => Return []
  | row :: rows' =>
      l ← read_row row;
      ret_list ← read_rows rows';
      Return (l ++ ret_list)
  end.

(** A row that the loop skips, and the entry of a row that it keeps. *)
Definition is_dummy (row : list string) : bool :=
  bool_decide (head row = Some "dummy").

Definition is_entry_of (row : list string) (r : score_row) : Prop :=
  ∃ value rest,
    row = submission r :: user r :: value :: rest ∧ float value = Some (score r).

(** Lines 428-432 of [get_expertise_results] and 469-472 of
    [del_expertise_job]: the job leaves the index, then its directory is
    deleted. *)
Definition clear_directory (job_dir : string) (config : gmap string json)
  (s : world * job_files) : outcome (world * job_files) :=
  user_id ← of_result (getitem config "user_id");
  job_id ← of_result (getitem config "job_id");
  w ← _del_from_user_index user_id job_id s.1;
  Return (rmtree job_dir (w, s.2)).

(** [get_expertise_results] (lines 366-434). *)
Definition get_expertise_results (user_id job_id : string) (delete_on_get : bool)
  (s : world * job_files) : outcome job_results * (world * job_files) :=
  match
    (match job_dirs s.1 !! job_id with
     | None => Throw (Exn (OpenReviewException "Job not found"))
     | Some _ => Return ()
     end);;
    config ← of_result (read_config job_id s.1);
    owner ← of_result (getitem config "user_id");
    (if negb (json_is_str owner user_id)
        && bool_decide (lower user_id ∉ SUPERUSER_IDS)
     then Throw (Exn (OpenReviewException
                        "Forbidden: Insufficient permissions to access job"))
     else Return ());;
    status ← of_result (getitem config "status");
    description ← of_result (getitem config "description");
    if negb (json_is_str status (JobStatus_value COMPLETED)) then
      Throw (Exn (OpenReviewException
                    ("Scores not found - status: " +:+ format_json status
                     +:+ " | description: " +:+ format_json description)))
    else
      file ← of_result (_get_score_and_metadata_dir job_id s);
      ret_list ← read_rows (default [] (score_files s.2 !! (job_id, file)));
      Return (config,
              {| results := ret_list;
                 metadata := default JNull (metadata_files s.2 !! job_id) |})
  with
  | Throw e => (Throw e, s)
  | Return (config, result) =>
      if delete_on_get then
        match clear_directory job_id config s with
        | Throw e => (Throw e, s)
        | Return s => (Return result, s)
        end
      else (Return result, s)
  end.

(** [del_expertise_job] (lines 436-476): when [_filter_config] raises, the
    job is deleted already. *)
Definition del_expertise_job (user_id job_id : string) (s : world * job_files)
  : outcome (gmap string json) * (world * job_files) :=
  match _get_subdirs user_id s.1 with
  | Raise e => (Throw (Exn e), s)
  | Ok job_subdirs =>
      match filter (λ name, name = job_id) job_subdirs with
      | [] => (Throw (Exn (OpenReviewException "Job not found")), s)
      | _ :: _ :: _ =>
          (Throw (Exn (OpenReviewException
                         "Single job not found: multiple matching jobs returned")), s)
      | [job_dir] =>
          match
            config ← of_result (read_config job_dir s.1);
            s ← clear_directory job_dir config s;
            Return (config, s)
          with
          | Throw e => (Throw e, s)
          | Return (config, s) => (of_result (_filter_config config), s)
          end
      end
  end.

End jobs.

Arguments score_row : clear implicits.
Arguments job_results : clear implicits.

End Expertise.
(** ** specter.py: the datasets and the embedding files

    [set_archives_dataset], [set_submissions_dataset], [_fetch_batches],
    [_batch_predict], [embed_submissions] and [embed_publications], for a
    predictor built with [use_redis=False] ([self.redis] is [None]). *)

Module Dataset.
Import Specter.

(** [str.strip()] on ASCII text; the whitespace characters are the space,
    the controls \t \n \v \f \r and the separators \x1c to \x1f. *)
Definition is_space (c : Ascii.ascii) : bool :=
  let n := Ascii.nat_of_ascii c in
  bool_decide (n = 32 ∨ 9 ≤ n ≤ 13 ∨ 28 ≤ n ≤ 31)%nat.

Fixpoint lstrip (s : string) : string :=
  match s with
  | EmptyString => EmptyString
  | String c s' => if is_space c then lstrip s' else s
  end.

Definition strip (s : string) : string :=
  String.rev (lstrip (String.rev (lstrip s))).

(** A note of a dataset, a publication or a submission: its [id], its
    [content] and its [mdate] (an integer) if it has one. *)
Record note := {
  id : string;
  content : gmap string json;
  mdate : option Z
}.

(** A record of [specter_reviewer_paper_data.json] or
    [specter_submission_paper_data.json]; the records of submissions have no
    [mdate]. *)
Record paper := {
  title : json;
  abstract : json;
  paper_id : string;
  authors : list string;
  paper_mdate : option Z
}.

(** The attributes that the two [set_..._dataset] methods assign, besides
    [pub_author_ids_to_note_id]. *)
Record attrs := {
  pub_note_id_to_author_ids : list (string * list string);
  pub_note_id_to_abstract : gmap string string;
  pub_note_id_to_title : gmap string string;
  pub_note_id_to_cache_key : gmap string string;
  sub_note_id_to_abstract : gmap string json;
  sub_note_id_to_title : gmap string json
}.

Definition no_attrs : attrs :=
  {| pub_note_id_to_author_ids := []; pub_note_id_to_abstract := ∅;
     pub_note_id_to_title := ∅; pub_note_id_to_cache_key := ∅;
     sub_note_id_to_abstract := ∅; sub_note_id_to_title := ∅ |}.

Section dataset.
Context {score : Type}.
(** [int(time.time())], by the number of the reading. *)
Variable time_time : nat → Z.
(** [self.tokenizer.sep_token], and the tokenizer and the model run on a
    batch of texts: the embeddings [output.last_hidden_state[:, 0, :]], one
    row for each text. *)
Variable sep_token : string.
Variable encode : list string → list (list score).

(** The files, by path: the metadata files ([..._paper_data.json], an
    object in the order of its keys), the id files ([..._paper_ids.txt]) and
    the embedding files (one [paper_id] and [embedding] a line).  The three
    kinds are kept apart: no path is taken to name files of two kinds. *)
Record files := {
  paper_data : gmap string (list (string * paper));
  paper_ids : gmap string string;
  embeddings : gmap string (list (string * list score))
}.

Definition set_pub_author_ids_to_note_id (self : predictor score)
  (d : list (string * list string)) : predictor score :=
  {| average_score := average_score self;
     max_score := max_score self;
     sparse_value := sparse_value self;
     preliminary_scores := preliminary_scores self;
     pub_author_ids_to_note_id := Some d |}.

(** *** [set_archives_dataset] (lines 109-143) *)

(** [publication['content'].get(field).strip()] *)
Definition stripped (content : gmap string json) (field : string) : result string :=
  match content !! field with
  | Some (JStr s) => Ok (strip s)
  | Some JNull | None =>
      Raise (AttributeError "'NoneType' object has no attribute 'strip'")
  | Some _ => Raise (AttributeError "object has no attribute 'strip'")
  end.

(** A publication whose title and abstract are both strings, and one that
    has text in one of them once stripped. *)
Definition has_strings (publication : note) : bool :=
  is_ok (stripped (content publication) "title")
  && is_ok (stripped (content publication) "abstract").


(** What the loop has built: the attributes, [pub_author_ids_to_note_id],
    [output_dict], [paper_ids_list] and the number of readings of the
    clock. *)
Record archives_state := {
  st_attrs : attrs;
  st_author_ids_to_note_id : list (string * list string);
  st_output_dict : list (string * paper);
  st_paper_ids_list : list string;
  st_clock_reads : nat
}.

(** The body of the inner loop, for one publication of [profile_id]: the
    exception it raises, if any, and the state it leaves. *)
Definition archives_step (profile_id : string) (st : archives_state)
  (publication : note) : option exn * archives_state :=
  let c := content publication in
  let pid := id publication in
  match
    (t ← stripped c "title";
     if bool_decide (t ≠ "") then Ok true
     else a ← stripped c "abstract"; Ok (bool_decide (a ≠ "")))
  with
  | Raise e => (Some e, st)
  | Ok false => (None, st)
  | Ok true =>
      let a := st_attrs st in
      let note_to_authors := dict_append pid profile_id (pub_note_id_to_author_ids a) in
      let author_to_notes := dict_append profile_id pid (st_author_ids_to_note_id st) in
      match stripped c "title" with
      | Raise e =>
          (Some e,
           {| st_attrs :=
                {| pub_note_id_to_author_ids := note_to_authors;
                   pub_note_id_to_abstract := pub_note_id_to_abstract a;
                   pub_note_id_to_title := pub_note_id_to_title a;
                   pub_note_id_to_cache_key := pub_note_id_to_cache_key a;
                   sub_note_id_to_abstract := sub_note_id_to_abstract a;
                   sub_note_id_to_title := sub_note_id_to_title a |};
              st_author_ids_to_note_id := author_to_notes;
              st_output_dict := st_output_dict st;
              st_paper_ids_list := st_paper_ids_list st;
              st_clock_reads := st_clock_reads st |})
      | Ok t =>
          let t := if bool_decide (t ≠ "") then t else "." in
          let titles := <[pid := t]> (pub_note_id_to_title a) in
          match stripped c "abstract" with
          | Raise e =>
              (Some e,
               {| st_attrs :=
                    {| pub_note_id_to_author_ids := note_to_authors;
                       pub_note_id_to_abstract := pub_note_id_to_abstract a;
                       pub_note_id_to_title := titles;
                       pub_note_id_to_cache_key := pub_note_id_to_cache_key a;
                       sub_note_id_to_abstract := sub_note_id_to_abstract a;
                       sub_note_id_to_title := sub_note_id_to_title a |};
                  st_author_ids_to_note_id := author_to_notes;
                  st_output_dict := st_output_dict st;
                  st_paper_ids_list := st_paper_ids_list st;
                  st_clock_reads := st_clock_reads st |})
          | Ok ab =>
              let ab := if bool_decide (ab ≠ "") then ab else "." in
              (* the default of [publication.get('mdate', int(time.time()))]
                 is evaluated whether or not there is an [mdate] *)
              let now := time_time (st_clock_reads st) in
              let pub_mdate := default now (mdate publication) in
              let pub_cache_key := pid +:+ "_" +:+ pretty pub_mdate in
              let '(output_dict, paper_ids_list) :=
                match dict_get pid (st_output_dict st) with
                | Some p =>
                    (dict_set pid
                       {| title := title p; abstract := abstract p;
                          paper_id := paper_id p;
                          authors := authors p ++ [profile_id];
                          paper_mdate := paper_mdate p |} (st_output_dict st),
                     st_paper_ids_list st)
                | None =>
                    (dict_set pid
                       {| title := JStr t; abstract := JStr ab; paper_id := pid;
                          authors := [profile_id];
                          paper_mdate := Some pub_mdate |} (st_output_dict st),
                     st_paper_ids_list st ++ [pid])
                end in
              (None,
               {| st_attrs :=
                    {| pub_note_id_to_author_ids := note_to_authors;
                       pub_note_id_to_abstract := <[pid := ab]> (pub_note_id_to_abstract a);
                       pub_note_id_to_title := titles;
                       pub_note_id_to_cache_key :=
                         <[pid := pub_cache_key]> (pub_note_id_to_cache_key a);
                       sub_note_id_to_abstract := sub_note_id_to_abstract a;
                       sub_note_id_to_title := sub_note_id_to_title a |};
                  st_author_ids_to_note_id := author_to_notes;
                  st_output_dict := output_dict;
                  st_paper_ids_list := paper_ids_list;
                  st_clock_reads := Datatypes.S (st_clock_reads st) |})
          end
      end
  end.

(** A loop whose body changes a state: the state is the one the loop was
    in when an exception ended it. *)
Fixpoint loop {A S} (body : S → A → option exn * S) (st : S) (l : list A)
  : option exn * S :=
  match l with
  | [] => (None, st)
  | x :: l' =>
      match body st x with
      | (Some e, st') => (Some e, st')
      | (None, st') => loop body st' l'
      end
  end.

Definition archives_loop (st : archives_state)
  (archives_dataset : list (string * list note)) : option exn * archives_state :=
  loop (λ st item, loop (archives_step item.1) st item.2) st archives_dataset.

Definition reviewer_paper_data (work_dir : string) : string :=
  path_join work_dir "specter_reviewer_paper_data.json".
Definition reviewer_paper_ids (work_dir : string) : string :=
  path_join work_dir "specter_reviewer_paper_ids.txt".
Definition submission_paper_data (work_dir : string) : string :=
  path_join work_dir "specter_submission_paper_data.json".
Definition submission_paper_ids (work_dir : string) : string :=
  path_join work_dir "specter_submission_paper_ids.txt".

(** ['\n'.join(paper_ids_list) + '\n'] *)
Definition newline : string := String (Ascii.ascii_of_nat 10) "".

Definition ids_text (paper_ids_list : list string) : string :=
  String.concat newline paper_ids_list +:+ newline.

(** The predictor, its further attributes, the files and the number of
    readings of the clock, after [set_archives_dataset(archives_dataset)];
    the attributes of the submissions are left as they were. *)
Definition set_archives_dataset (work_dir : string) (self : predictor score)
  (a : attrs) (fs : files) (clock_reads : nat)
  (archives_dataset : list (string * list note))
  : option exn * predictor score * attrs * files * nat :=
  let st0 :=
    {| st_attrs :=
         {| pub_note_id_to_author_ids := []; pub_note_id_to_abstract := ∅;
            pub_note_id_to_title := ∅; pub_note_id_to_cache_key := ∅;
            sub_note_id_to_abstract := sub_note_id_to_abstract a;
            sub_note_id_to_title := sub_note_id_to_title a |};
       st_author_ids_to_note_id := [];
       st_output_dict := [];
       st_paper_ids_list := [];
       st_clock_reads := clock_reads |} in
  let '(err, st) := archives_loop st0 archives_dataset in
  let self := set_pub_author_ids_to_note_id self (st_author_ids_to_note_id st) in
  match err with
  | Some e => (Some e, self, st_attrs st, fs, st_clock_reads st)
  | None =>
      (None, self, st_attrs st,
       {| paper_data :=
            <[reviewer_paper_data work_dir := st_output_dict st]> (paper_data fs);
          paper_ids :=
            <[reviewer_paper_ids work_dir := ids_text (st_paper_ids_list st)]>
              (paper_ids fs);
          embeddings := embeddings fs |},
       st_clock_reads st)
  end.


(** *** [set_submissions_dataset] (lines 145-161) *)

Definition submissions_step
  (st : gmap string json * gmap string json * list (string * paper) * list string)
  (submission : note)
  : gmap string json * gmap string json * list (string * paper) * list string :=
  let '(titles, abstracts, output_dict, paper_ids_list) := st in
  let sid := id submission in
  let t := default (JStr "") (content submission !! "title") in
  let ab := default (JStr "") (content submission !! "abstract") in
  (<[sid := t]> titles, <[sid := ab]> abstracts,
   dict_set sid {| title := t; abstract := ab; paper_id := sid;
                   authors := []; paper_mdate := None |} output_dict,
   paper_ids_list ++ [sid]).

Definition set_submissions_dataset (work_dir : string) (a : attrs)
  (fs : files) (submissions_dataset : list (string * note))
  : attrs * files :=
  let '(titles, abstracts, output_dict, paper_ids_list) :=
    foldl submissions_step (∅, ∅, [], []) submissions_dataset.*2 in
  ({| pub_note_id_to_author_ids := pub_note_id_to_author_ids a;
      pub_note_id_to_abstract := pub_note_id_to_abstract a;
      pub_note_id_to_title := pub_note_id_to_title a;
      pub_note_id_to_cache_key := pub_note_id_to_cache_key a;
      sub_note_id_to_abstract := abstracts;
      sub_note_id_to_title := titles |},
   {| paper_data := <[submission_paper_data work_dir := output_dict]> (paper_data fs);
      paper_ids := <[submission_paper_ids work_dir := ids_text paper_ids_list]>
                     (paper_ids fs);
      embeddings := embeddings fs |}).

(** *** [_fetch_batches] (lines 76-82)

    The batches the generator yields, or the exception of [islice] on a
    negative size.  Every batch but an empty one takes an item, so the loop
    ends within [length l] rounds. *)
Fixpoint fetch_loop {A} (rounds : nat) (batch_size : nat) (l : list A) : list (list A) :=
  match rounds with
  | O => []
  | Datatypes.S rounds =>
      match take batch_size l with
      | [] => []
      | batch => batch :: fetch_loop rounds batch_size (drop batch_size l)
      end
  end.

Definition _fetch_batches {A} (dict_data : list A) (batch_size : Z)
  : outcome (list (list A)) :=
  if batch_size <? 0 then
    Throw (ValueError
      "Stop argument for islice() must be None or an integer: 0 <= x <= sys.maxsize.")
  else Return (fetch_loop (length dict_data) (Z.to_nat batch_size) dict_data).

(** *** [_batch_predict] (lines 84-107) *)

(** [d[1]['title'] + self.tokenizer.sep_token + (d[1].get('abstract') or '')] *)
Definition text_of (p : paper) : result string :=
  match title p with
  | JStr t =>
      let ab := if truthy (abstract p) then abstract p else JStr "" in
      match ab with
      | JStr ab => Ok (t +:+ sep_token +:+ ab)
      | _ => Raise (TypeError "can only concatenate str to str")
      end
  | _ => Raise (TypeError "unsupported operand type(s) for +")
  end.

(** The lines of the batch, each a [paper_id] and an [embedding]; [zip]
    stops with the shorter of the batch and the rows. *)
Definition _batch_predict (batch_data : list (string * paper))
  : result (list (string * list score)) :=
  text_batch ← mapR (λ d, text_of d.2) batch_data;
  Ok (zip_with (λ d embedding, (paper_id d.2, embedding)) batch_data (encode text_batch)).

(** *** [embed_submissions] (lines 163-177) and [embed_publications]
    (lines 179-194) *)

Definition embed (metadata_file : string) (out_path : option string)
  (batch_size : Z) (fs : files) : outcome files :=
  match paper_data fs !! metadata_file with
  | Some data =>
      if bool_decide (batch_size = 0) then Throw (ZeroDivisionError "division by zero")
      else
        batches ← _fetch_batches data batch_size;
        jsonl ← of_result (mapR _batch_predict batches);
        match out_path with
        | None =>
            Throw (Exn (TypeError
              "expected str, bytes or os.PathLike object, not NoneType"))
        | Some "" => Throw (Exn (FileNotFoundError ""))
        | Some path =>
            Return {| paper_data := paper_data fs; paper_ids := paper_ids fs;
                      embeddings := <[path := concat jsonl]> (embeddings fs) |}
        end
  | None => Throw (Exn (FileNotFoundError metadata_file))
  end.

Definition embed_submissions (work_dir : string) (batch_size : Z)
  (submissions_path : option string) (fs : files) : outcome files :=
  embed (submission_paper_data work_dir) submissions_path batch_size fs.

Definition embed_publications (work_dir : string) (batch_size : Z)
  (publications_path : option string) (fs : files) : outcome files :=
  match publications_path with
  | None | Some "" =>
      Throw (Exn (AssertionError
        "Either publications_path must be given or use_redis must be set to true"))
  | Some _ => embed (reviewer_paper_data work_dir) publications_path batch_size fs
  end.

End dataset.

End Dataset.

(** ** Exact rationals with nan: the floats of the examples

    Sums, products and quotients are exact, so that a mean of 0.9 and 0.2
    reads 11/20; [nan] is what torch's mean returns on an empty selection,
    and [max] has no value there (torch raises).  The rows of the examples
    are unit vectors or all zero, which [normalize] leaves as they are (the
    regulariser 1e-12 is not modelled). *)

Module TorchQ.

Inductive tfloat := Fin (q : Q) | NaN.

Definition zero : tfloat := Fin 0.

Definition add (x y : tfloat) : tfloat :=
  match x, y with
  | Fin a, Fin b => Fin (Qred (a + b))
  | _, _ => NaN
  end.

Definition mul (x y : tfloat) : tfloat :=
  match x, y with
  | Fin a, Fin b => Fin (Qred (a * b))
  | _, _ => NaN
  end.

Definition sum (row : list tfloat) : tfloat := foldl add zero row.

Definition dot (u v : list tfloat) : tfloat := sum (zip_with mul u v).

Definition normalize (row : list tfloat) : list tfloat := row.

Definition mean (row : list tfloat) : tfloat :=
  match row, sum row with
  | _ :: _, Fin s => Fin (Qred (s / inject_Z (Z.of_nat (length row))))
  | _, _ => NaN
  end.

Definition max2 (x y : tfloat) : tfloat :=
  match x, y with
  | Fin a, Fin b => if Qle_bool a b then Fin b else Fin a
  | _, _ => NaN
  end.

Definition max (row : list tfloat) : option tfloat :=
  match row with
  | [] => None
  | x :: row' => Some (foldl max2 x row')
  end.


End TorchQ.

(** ** Concrete inputs used by the examples *)

Module Data.
Import Specter.

(** A predictor over integer scores with the given list and sparse value. *)
Definition predictor_of (l : option (list (entry Z))) (k : option Z) : predictor Z :=
  {| average_score := false;
     max_score := true;
     sparse_value := k;
     preliminary_scores := l;
     pub_author_ids_to_note_id := None |}.

(** One entry of note "b", then five entries of note "a". *)
Definition run_scores : list (entry Z) :=
  [("a", "p2", 4); ("b", "p1", 1); ("a", "p1", 5);
   ("a", "p5", 1); ("a", "p3", 3); ("a", "p4", 2)].

(** Two notes tie on profile "p"; note "n1" has a better profile "q". *)
Definition tie_scores : list (entry Z) :=
  [("n1", "p", 5); ("n2", "p", 5); ("n1", "q", 9)].

(** Predictors over the rational floats, after [set_archives_dataset]. *)
Definition predictor_q (average max : bool) (items : list (string * list string))
  : predictor TorchQ.tfloat :=
  {| average_score := average;
     max_score := max;
     sparse_value := None;
     preliminary_scores := None;
     pub_author_ids_to_note_id := Some items |}.


Definition aggregate_q :=
  aggregate (score := TorchQ.tfloat) TorchQ.mean TorchQ.max.


(** The end-to-end scenario of the specification: two submissions, three
    reviewers; "~A" has two publications scoring 0.9 and 0.2 against
    submission "s1", "~B" one publication scoring 0.5.  The rows are exact
    unit vectors: 0.01 + 0.09 + 0.09 + 0.81 = 1, 0.64 + 0.16 + 0.16 + 0.04 = 1
    and 4 * 0.25 = 1. *)
Definition row4 (a b c d : Q) : list TorchQ.tfloat :=
  replicate 764 (TorchQ.Fin 0)
  ++ [TorchQ.Fin a; TorchQ.Fin b; TorchQ.Fin c; TorchQ.Fin d].

Definition scenario_reviewers : list (string * list string) :=
  [("~A", ["a1"; "a2"]); ("~B", ["b1"]); ("~C", ["c1"])].

Definition scenario_publications : list (string * list TorchQ.tfloat) :=
  [("a1", row4 (1 # 10) (3 # 10) (3 # 10) (9 # 10));
   ("a2", row4 (8 # 10) (4 # 10) (4 # 10) (2 # 10));
   ("b1", row4 (1 # 2) (1 # 2) (1 # 2) (1 # 2));
   ("c1", row4 0 0 1 0)].

Definition scenario_submissions : list (string * list TorchQ.tfloat) :=
  [("s1", row4 0 0 0 1); ("s2", row4 0 0 1 0)].

Definition scenario_max_out : list (entry TorchQ.tfloat) :=
  [("s1", "~A", TorchQ.Fin (9 # 10)); ("s2", "~A", TorchQ.Fin (2 # 5));
   ("s1", "~B", TorchQ.Fin (1 # 2)); ("s2", "~B", TorchQ.Fin (1 # 2));
   ("s1", "~C", TorchQ.Fin 0); ("s2", "~C", TorchQ.Fin 1)].


(** The service: its directories, a default config, ids and clock. *)
Definition the_service : Expertise.service :=
  {| Expertise.working_dir := "jobs";
     Expertise.specter_dir := "specter";
     Expertise.mfr_feature_vocab_file := "vocab";
     Expertise.mfr_checkpoint_dir := "checkpoint";
     Expertise.default_config :=
       {[ "dataset" := JObj ∅; "model_params" := JObj ∅; "model" := JStr "specter+mfr" ]} |}.

Definition uuids (n : nat) : string :=
  match n with 0%nat => "Ab3dE" | 1%nat => "Zx9yQ" | _ => "other" end.

Definition clock (n : nat) : Z := 1700000000000 + Z.of_nat n.

Definition empty_world : Expertise.world :=
  {| Expertise.job_dirs := ∅; Expertise.index_file := None;
     Expertise.queue := []; Expertise.write_log := [];
     Expertise.uuid_draws := 0; Expertise.clock_reads := 0 |}.

Definition good_request : gmap string json :=
  {[ "name" := JStr "test_run";
     "match_group" := JArr [JStr "ABC.cc"];
     "user_id" := JStr "~Alice1";
     "token" := JStr "secret-token";
     "paper_invitation" := JStr "ABC.cc/-/Submission" ]}.


Definition start_expertise_q :=
  Expertise.start_expertise uuids clock Expertise.ServerConfig_model the_service.

(** An API request in the entity form, and one without its [entityB]. *)
Definition api_request : gmap string json :=
  {[ "name" := JStr "test_run";
     "entityA" := JObj {[ "type" := JStr "Group"; "memberOf" := JStr "ABC.cc" ]};
     "entityB" := JObj {[ "type" := JStr "Note";
                          "invitation" := JStr "ABC.cc/-/Submission" ]} ]}.


(** A job of Alice with its directory, and a job of Alice whose directory
    is gone; on the service side, the same two jobs with their index. *)
Definition alice_job (job_id : string) : Utils.JobConfig :=
  {| Utils.name := "test_run"; Utils.user_id := "~Alice1";
     Utils.job_id := job_id; Utils.job_dir := "jobs/" +:+ job_id;
     Utils.status := "Completed";
     Utils.description := "Job is complete and the computed scores are ready" |}.

Definition the_store : Utils.store :=
  {| Utils.db := {[ "job:j1" := alice_job "j1"; "job:j2" := alice_job "j2" ]};
     Utils.dirs := {[ "jobs/j1" ]} |}.

Definition alice_config (job_id : string) : gmap string json :=
  {[ "name" := JStr "test_run"; "user_id" := JStr "~Alice1";
     "job_id" := JStr job_id; "baseurl" := JStr "http://localhost:3000";
     "status" := JStr "Completed";
     "description" := JStr "Job is complete and the computed scores are ready";
     "cdate" := JNum 1; "mdate" := JNum 2 ]}.

Definition the_world : Expertise.world :=
  {| Expertise.job_dirs := {[ "j1" := Some (alice_config "j1") ]};
     Expertise.index_file := Some {[ "~Alice1" := [JStr "j1"; JStr "j2"] ]};
     Expertise.queue := []; Expertise.write_log := [];
     Expertise.uuid_draws := 2; Expertise.clock_reads := 4 |}.

(** Publications and submissions: "p2" has neither title nor abstract once
    stripped, "p3" has no abstract at all. *)
Definition note_of (id title abstract : string) : Dataset.note :=
  {| Dataset.id := id;
     Dataset.content := {[ "title" := JStr title; "abstract" := JStr abstract ]};
     Dataset.mdate := Some 1700000000 |}.


Definition archives_untitled : list (string * list Dataset.note) :=
  [("~A", [note_of "p1" "Sparse scores" " An abstract. ";
           {| Dataset.id := "p3"; Dataset.content := {[ "title" := JStr "No abstract" ]};
              Dataset.mdate := None |}])].

Definition submissions : list (string * Dataset.note) :=
  [("s1", note_of "s1" "First" "One."); ("s2", note_of "s2" "Second" "Two.");
   ("s1", note_of "s1" "First again" "One.")].

Definition no_files : Dataset.files (score := Z) :=
  {| Dataset.paper_data := ∅; Dataset.paper_ids := ∅; Dataset.embeddings := ∅ |}.

(** A model that embeds a text as its length. *)
Definition encode (texts : list string) : list (list Z) :=
  (λ text, [Z.of_nat (String.length text)]) <$> texts.

Definition archives_run (ds : list (string * list Dataset.note)) :=
  Dataset.set_archives_dataset clock "jobs/j1" (predictor_of None None)
    Dataset.no_attrs no_files 0 ds.

Definition submissions_run :=
  Dataset.set_submissions_dataset (score := Z) "jobs/j1" Dataset.no_attrs no_files
    submissions.

Definition embed_submissions_q :=
  Dataset.embed_submissions "[SEP]" encode "jobs/j1" 2 (Some "jobs/j1/sub.jsonl").

(** An [APIRequest] with a model, its starting config, client and server
    config; and the request with a paper invitation against a group. *)
Definition request_model : gmap string json :=
  {[ "name" := JStr "specter+mfr"; "scoreComputation" := JStr "max";
     "useTitle" := JBool true ]}.

Definition api_request_model : gmap string json :=
  <["model" := JObj request_model]> api_request.

Definition api_request_record : Utils.APIRequest :=
  {| Utils.api_name := JStr "test_run";
     Utils.api_entityA := {[ "type" := JStr "Group"; "memberOf" := JStr "ABC.cc" ]};
     Utils.api_entityB := {[ "type" := JStr "Note";
                             "invitation" := JStr "ABC.cc/-/Submission" ]};
     Utils.api_model := JObj request_model |}.

Definition starting_config : gmap string json :=
  {[ "dataset" := JObj {[ "minimum_pub_date" := JNum 2015 ]};
     "model" := JStr "specter+mfr";
     "model_params" := JObj {[ "batch_size" := JNum 4 ]} ]}.

Definition openreview_client : option json :=
  Some (JObj {[ "user" := JObj {[ "id" := JStr "~Alice1" ]} ]}).

Definition server_config : gmap string json :=
  {[ "OPENREVIEW_BASEURL" := JStr "http://localhost:3000";
     "OPENREVIEW_BASEURL_V2" := JStr "http://localhost:3001";
     "SPECTER_DIR" := JStr "specter"; "MFR_VOCAB_DIR" := JStr "vocab";
     "MFR_CHECKPOINT_DIR" := JStr "checkpoint" ]}.

Definition from_request_q (request : Utils.APIRequest) :=
  Utils.Config.from_request request starting_config openreview_client server_config
    (Some "jobs") "Ab3dE" 1700000000000.

Definition paper_against_group : Utils.APIRequest :=
  {| Utils.api_name := JStr "test_run";
     Utils.api_entityA := {[ "type" := JStr "Note";
                             "invitation" := JStr "ABC.cc/-/Submission" ]};
     Utils.api_entityB := {[ "type" := JStr "Group"; "memberOf" := JStr "ABC.cc" ]};
     Utils.api_model := JNull |}.

(** A record of Bob whose directory is gone, beside the jobs of Alice. *)
Definition bob_job : Utils.JobConfig :=
  {| Utils.name := "other_run"; Utils.user_id := "~Bob1";
     Utils.job_id := "j3"; Utils.job_dir := "jobs/j3";
     Utils.status := "Error"; Utils.description := "" |}.

Definition shared_store : Utils.store :=
  {| Utils.db := <["job:j3" := bob_job]> (Utils.db the_store);
     Utils.dirs := Utils.dirs the_store |}.

(** The files of job "j1", [float] on the fields that occur, and [==] on
    the JSON values that are no strings, lists or dicts. *)
Definition the_files : Expertise.job_files :=
  {| Expertise.score_files :=
       {[ ("j1", "test_run.csv") :=
            [["s1"; "~A"; "0.5"]; ["dummy"; "~A"; "0.1"]; ["s2"; "~A"; "1"; "0.9"]] ]};
     Expertise.metadata_files := {[ "j1" := JObj {[ "submission_count" := JNum 2 ]} ]} |}.

Definition float (s : string) : option Q :=
  if bool_decide (s = "0.5") then Some (1 # 2)
  else if bool_decide (s = "0.1") then Some (1 # 10)
  else if bool_decide (s = "1") then Some 1%Q
  else None.

Definition py_eq (x y : json) : bool :=
  match x, y with
  | JNull, JNull => true
  | JBool a, JBool b => bool_decide (a = b)
  | JNum a, JNum b => bool_decide (a = b)
  | JBool a, JNum b | JNum b, JBool a => bool_decide (b = if a then 1 else 0)
  | _, _ => false
  end.

Definition py_repr (x : json) : string :=
  match x with JArr _ => "[...]" | _ => "{...}" end.

Definition get_expertise_results_q :=
  Expertise.get_expertise_results float py_eq py_repr.

Definition the_state : Expertise.world * Expertise.job_files := (the_world, the_files).

(** The request of Alice with its base URL. *)
Definition full_request : gmap string json :=
  <["baseurl" := JStr "http://localhost:3000"]> good_request.

End Data.
(** * Properties *)

(** ** Facts about the stable descending sort *)

Section py_sort_facts.
Context {A : Type} (lt : A → A → bool).
Hypothesis lt_asym : ∀ x y, lt x y = true → lt y x = false.
Hypothesis lt_negtrans : ∀ x y z, lt x y = false → lt y z = false → lt x z = false.

Lemma insert_desc_perm x l : insert_desc lt x l ≡ₚ x :: l.
Proof.
  induction l as [|y l IH]; simpl; [done|].
  destruct (lt x y); [|done].
  rewrite IH. apply Permutation_swap.
Qed.

Lemma sort_desc_perm l : sort_desc lt l ≡ₚ l.
Proof.
  induction l as [|x l IH]; simpl; [done|].
  by rewrite insert_desc_perm, IH.
Qed.

Lemma elem_of_sort_desc x l : x ∈ sort_desc lt l ↔ x ∈ l.
Proof. by rewrite sort_desc_perm. Qed.

Lemma sort_desc_nil_inv l : sort_desc lt l = [] → l = [].
Proof.
  intros Hnil. apply Permutation_nil_r. by rewrite <- Hnil, sort_desc_perm.
Qed.

Lemma insert_desc_sorted x l :
  desc_sorted lt l → desc_sorted lt (insert_desc lt x l).
Proof.
  unfold desc_sorted. induction l as [|y l IH]; simpl; intros Hs.
  - repeat constructor.
  - apply StronglySorted_inv in Hs as [Hs Hy].
    destruct (lt x y) eqn:Hxy.
    + constructor; [by apply IH|].
      rewrite insert_desc_perm. constructor; [|done].
      by apply lt_asym.
    + constructor; [by constructor|].
      constructor; [done|].
      eapply Forall_impl; [exact Hy|]. intros z Hz. by eapply lt_negtrans.
Qed.

Lemma sort_desc_sorted l : desc_sorted lt (sort_desc lt l).
Proof.
  induction l as [|x l IH]; simpl; [constructor|]. by apply insert_desc_sorted.
Qed.

(** Filtering commutes with the stable sort, for any comparison [lt'] that
    agrees with [lt] on the entries kept. *)
Context (P : A → Prop) `{∀ x, Decision (P x)} (lt' : A → A → bool).
Hypothesis lt_agree : ∀ x y, P x → P y → lt' x y = lt x y.

Lemma insert_desc_head x l :
  Forall (λ z, lt' x z = false) l → insert_desc lt' x l = x :: l.
Proof. destruct 1 as [|z l Hz _]; simpl; [done|]. by rewrite Hz. Qed.

Lemma filter_insert_desc_out x l :
  ¬ P x → filter P (insert_desc lt x l) = filter P l.
Proof.
  intros Hx. induction l as [|y l IH]; simpl.
  - by rewrite filter_cons_False.
  - destruct (lt x y).
    + rewrite !filter_cons, IH. done.
    + by rewrite (filter_cons_False _ x).
Qed.

Lemma filter_insert_desc_in x l :
  P x → desc_sorted lt l →
  filter P (insert_desc lt x l) = insert_desc lt' x (filter P l).
Proof.
  intros Hx. induction l as [|y l IH]; simpl; intros Hs.
  - by rewrite filter_cons_True.
  - apply StronglySorted_inv in Hs as [Hs Hy].
    destruct (lt x y) eqn:Hxy.
    + rewrite !filter_cons, IH by done.
      destruct (decide (P y)) as [HPy|]; [|done].
      simpl. by rewrite lt_agree, Hxy.
    + rewrite (filter_cons_True _ x) by done.
      rewrite insert_desc_head; [done|].
      apply Forall_forall. intros z [HPz Hz]%list_elem_of_filter.
      rewrite lt_agree by done.
      apply elem_of_cons in Hz as [->|Hz]; [done|].
      eapply lt_negtrans; [exact Hxy|].
      by eapply Forall_forall in Hy.
Qed.

Lemma filter_sort_desc l :
  filter P (sort_desc lt l) = sort_desc lt' (filter P l).
Proof.
  induction l as [|x l IH]; simpl; [done|].
  destruct (decide (P x)) as [Hx|Hx].
  - rewrite filter_insert_desc_in by auto using sort_desc_sorted.
    by rewrite (filter_cons_True _ x), IH.
  - rewrite filter_insert_desc_out by done.
    by rewrite (filter_cons_False _ x).
Qed.

End py_sort_facts.

(** Lists: filtering by a property that holds everywhere or nowhere. *)
Lemma filter_all {A} (P : A → Prop) `{∀ x, Decision (P x)} (l : list A) :
  Forall P l → filter P l = l.
Proof.
  induction 1 as [|x l Hx _ IH]; [done|]. by rewrite filter_cons_True, IH.
Qed.

Lemma filter_none {A} (P : A → Prop) `{∀ x, Decision (P x)} (l : list A) :
  Forall (λ x, ¬ P x) l → filter P l = [].
Proof.
  induction 1 as [|x l Hx _ IH]; [done|]. by rewrite filter_cons_False, IH.
Qed.

(** ** Facts about the order of Python strings *)

Lemma str_ltb_leb a b : String.ltb a b = negb (String.leb b a).
Proof.
  unfold String.ltb, String.leb. rewrite (String.compare_antisym a b).
  by destruct (String.compare b a).
Qed.

Lemma str_ltb_irrefl a : String.ltb a a = false.
Proof.
  rewrite str_ltb_leb. apply negb_false_iff, Is_true_true.
  apply (reflexivity (R := String.le)).
Qed.

Lemma str_ltb_asym a b : String.ltb a b = true → String.ltb b a = false.
Proof.
  rewrite !str_ltb_leb. intros Hab%negb_true_iff. apply negb_false_iff.
  destruct (String.leb_total a b) as [Hle|Hle]; [done|congruence].
Qed.

Lemma str_ltb_negtrans a b c :
  String.ltb a b = false → String.ltb b c = false → String.ltb a c = false.
Proof.
  rewrite !str_ltb_leb. intros Hba%negb_false_iff Hcb%negb_false_iff.
  apply negb_false_iff, Is_true_true.
  apply Is_true_true in Hba, Hcb.
  exact (transitivity (R := String.le) Hcb Hba).
Qed.

Lemma str_ltb_antisym a b :
  String.ltb a b = false → String.ltb b a = false → a = b.
Proof.
  rewrite !str_ltb_leb. intros Hba%negb_false_iff Hab%negb_false_iff.
  by apply String.leb_antisym.
Qed.

(** ** Facts about the sparsifier *)

Import Specter.

Section sparse_facts.
Context {score : Type} `{Countable score} (score_lt : score → score → bool).
Hypothesis score_lt_asym : ∀ s t, score_lt s t = true → score_lt t s = false.
Hypothesis score_lt_negtrans :
  ∀ s t u, score_lt s t = false → score_lt t u = false → score_lt s u = false.

Implicit Types (e x : entry score) (l run : list (entry score)) (S : gset (entry score)).
Implicit Types (st : Z * string) (idx : id_index) (k : Z) (a : string).

Lemma score_lt_irrefl s : score_lt s s = false.
Proof.
  destruct (score_lt s s) eqn:Hs; [|done]. by rewrite (score_lt_asym _ _ Hs) in Hs.
Qed.

Lemma key_lt_asym idx e1 e2 :
  key_lt score_lt idx e1 e2 = true → key_lt score_lt idx e2 e1 = false.
Proof.
  unfold key_lt. repeat case_decide; try congruence; auto using str_ltb_asym.
Qed.

Lemma key_lt_negtrans idx e1 e2 e3 :
  key_lt score_lt idx e1 e2 = false → key_lt score_lt idx e2 e3 = false →
  key_lt score_lt idx e1 e3 = false.
Proof.
  unfold key_lt.
  destruct (decide (get_id idx e1 = get_id idx e2)) as [E12|N12],
    (decide (get_id idx e2 = get_id idx e3)) as [E23|N23],
    (decide (get_id idx e1 = get_id idx e3)) as [E13|N13]; try congruence.
  - destruct (decide (score_of e1 = score_of e2)) as [S12|],
      (decide (score_of e2 = score_of e3)) as [S23|],
      (decide (score_of e1 = score_of e3)) as [S13|]; try done.
    + congruence.
    + intros _ H23. by rewrite S12.
    + intros H12 _. by rewrite <- S23.
    + apply score_lt_negtrans.
  - intros H12 H23. rewrite <- E13 in H23.
    by pose proof (str_ltb_antisym _ _ H12 H23).
  - apply str_ltb_negtrans.
Qed.

Lemma key_lt_ids idx e1 e2 :
  key_lt score_lt idx e1 e2 = false →
  String.ltb (get_id idx e1) (get_id idx e2) = false.
Proof.
  unfold key_lt. case_decide as Hid; [rewrite Hid; intros _; apply str_ltb_irrefl|done].
Qed.

Lemma by_score_key_lt idx a e1 e2 :
  get_id idx e1 = a → get_id idx e2 = a →
  by_score_lt score_lt e1 e2 = key_lt score_lt idx e1 e2.
Proof.
  intros H1 H2. unfold key_lt, by_score_lt.
  rewrite decide_True by congruence.
  case_decide as Hs; [|done]. rewrite Hs. apply score_lt_irrefl.
Qed.

(** *** The loop: added set, emitted list and state *)

Lemma helper_loop_spec k idx st l S :
  helper_loop k idx st l S
  = (S ∪ list_to_set (helper_emitted k idx st l), helper_state k idx st l).
Proof.
  revert st S. induction l as [|e l IH]; intros st S; simpl.
  - f_equal. set_solver.
  - destruct (helper_step k idx st e) as [st' []]; rewrite IH; simpl;
      f_equal; set_solver.
Qed.

Lemma helper_emitted_app k idx st l1 l2 :
  helper_emitted k idx st (l1 ++ l2)
  = helper_emitted k idx st l1
    ++ helper_emitted k idx (helper_state k idx st l1) l2.
Proof.
  revert st. induction l1 as [|e l1 IH]; intros st; simpl; [done|].
  destruct (helper_step k idx st e) as [st' []]; simpl; by rewrite IH.
Qed.

Lemma helper_state_app k idx st l1 l2 :
  helper_state k idx st (l1 ++ l2)
  = helper_state k idx (helper_state k idx st l1) l2.
Proof. revert st. induction l1 as [|e l1 IH]; intros st; simpl; auto. Qed.

Lemma helper_emitted_sub k idx st l e :
  e ∈ helper_emitted k idx st l → e ∈ l.
Proof.
  revert st. induction l as [|x l IH]; intros st; simpl; [done|].
  destruct (helper_step k idx st x) as [st' []]; set_solver.
Qed.

Lemma helper_emitted_Forall (P : entry score → Prop) k idx st l :
  Forall P l → Forall P (helper_emitted k idx st l).
Proof.
  rewrite !Forall_forall. eauto using helper_emitted_sub.
Qed.

Lemma helper_state_current k idx st l :
  (helper_state k idx st l).2 = st.2
  ∨ ∃ e, e ∈ l ∧ (helper_state k idx st l).2 = get_id idx e.
Proof.
  revert st. induction l as [|x l IH]; intros [c cur]; [by left|].
  change (helper_state k idx (c, cur) (x :: l))
    with (helper_state k idx (helper_step k idx (c, cur) x).1 l).
  destruct (IH (helper_step k idx (c, cur) x).1) as [Heq|(e & He & Heq)].
  - rewrite Heq. unfold helper_step. simpl.
    destruct (c <? k); [by left|]. case_decide; [|by left].
    right. exists x. split; [left|done].
  - right. exists e. split; [by right|done].
Qed.

Lemma helper_state_counter k idx st l :
  0 ≤ st.1 → l ≠ [] → 1 ≤ (helper_state k idx st l).1.
Proof.
  intros Hc Hl. destruct l as [|x l]; [done|]. clear Hl. simpl.
  assert (1 ≤ (helper_step k idx st x).1.1) as Hx.
  { destruct st as [c cur]. unfold helper_step. simpl in *.
    destruct (c <? k); [simpl; lia|]. case_decide; simpl; lia. }
  revert Hx. generalize (helper_step k idx st x).1. clear.
  induction l as [|y l IH]; intros [c cur] Hc; simpl in *; [done|].
  apply IH. unfold helper_step.
  destruct (c <? k); [simpl; lia|]. case_decide; simpl; lia.
Qed.

(** *** One run of equal ids *)

(** Scanning a run of entity [a] from a state where either another id is
    current or the counter does not exceed the position [p] reached in the
    run: the entries at positions below [k] are all added. *)
Lemma run_top_emitted k idx a run st p e :
  0 ≤ p → (st.2 ≠ a ∨ st.1 ≤ p) →
  Forall (λ x, get_id idx x = a) run →
  e ∈ take (Z.to_nat (k - p)) run →
  e ∈ helper_emitted k idx st run.
Proof.
  revert st p. induction run as [|x run IH]; intros [c cur] p Hp Hinv Hall He.
  - by rewrite take_nil in He.
  - apply Forall_cons in Hall as [Hx Hall].
    destruct (Z.to_nat (k - p)) as [|n] eqn:Hn; [by inversion He|].
    assert (Z.to_nat (k - (p + 1)) = n) as Hn' by lia.
    rewrite firstn_cons in He. simpl in *.
    destruct (c <? k) eqn:Hck.
    + apply elem_of_cons in He as [->|He]; [left|right].
      apply (IH _ (p + 1)); simpl; [lia| |done|by rewrite Hn'].
      destruct Hinv; [by left|right; lia].
    + destruct (decide (get_id idx x ≠ cur)) as [Hcur|Hcur].
      * apply elem_of_cons in He as [->|He]; [left|right].
        apply (IH _ (p + 1)); simpl; [lia| |done|by rewrite Hn'].
        right. lia.
      * exfalso. apply dec_stable in Hcur. apply Z.ltb_ge in Hck.
        destruct Hinv as [Hne|Hle]; [congruence|lia].
Qed.

(** In a run scanned with its own id current, exactly the entries whose
    count is still below [k] are added. *)
Lemma run_own_emitted k idx a run c :
  0 ≤ c → Forall (λ x, get_id idx x = a) run →
  helper_emitted k idx (c, a) run = take (Z.to_nat (k - c)) run.
Proof.
  revert c. induction run as [|x run IH]; intros c Hc Hall.
  - by rewrite take_nil.
  - apply Forall_cons in Hall as [Hx Hall]. simpl.
    destruct (c <? k) eqn:Hck.
    + apply Z.ltb_lt in Hck.
      replace (Z.to_nat (k - c)) with (Datatypes.S (Z.to_nat (k - (c + 1)))) by lia.
      rewrite firstn_cons. f_equal. apply IH; [lia|done].
    + apply Z.ltb_ge in Hck. rewrite decide_False by (intros Hne; done).
      replace (Z.to_nat (k - c)) with 0%nat by lia.
      rewrite IH by (lia || done).
      replace (Z.to_nat (k - (c + 1))) with 0%nat by lia. done.
Qed.

Lemma run_emitted_bound k idx a run st :
  0 ≤ st.1 → Forall (λ x, get_id idx x = a) run →
  (length (helper_emitted k idx st run) ≤ Z.to_nat (run_budget k a st))%nat.
Proof.
  revert st. induction run as [|x run IH]; intros [c cur] Hc Hall; simpl in *.
  - lia.
  - apply Forall_cons in Hall as [Hx Hall].
    destruct (c <? k) eqn:Hck.
    + apply Z.ltb_lt in Hck. simpl.
      specialize (IH (c + 1, cur)). simpl in IH.
      specialize (IH ltac:(lia) Hall).
      revert IH. unfold run_budget. simpl.
      destruct (decide (cur = a)); [lia|].
      rewrite (proj2 (Z.ltb_lt c k)) by done.
      destruct (c + 1 <? k) eqn:Hck'; [lia|].
      apply Z.ltb_ge in Hck'. lia.
    + apply Z.ltb_ge in Hck.
      destruct (decide (get_id idx x ≠ cur)) as [Hcur|Hcur]; simpl.
      * specialize (IH (0 + 1, get_id idx x)). simpl in IH.
        specialize (IH ltac:(lia) Hall).
        revert IH. unfold run_budget. simpl.
        rewrite decide_True by done.
        rewrite decide_False by congruence.
        rewrite (proj2 (Z.ltb_ge c k)) by done. lia.
      * apply dec_stable in Hcur.
        specialize (IH (c + 1, cur)). simpl in IH.
        specialize (IH ltac:(lia) Hall).
        revert IH. unfold run_budget. simpl.
        rewrite !decide_True by congruence. lia.
Qed.

(** *** Runs of a sorted sequence are contiguous *)

Lemma sorted_run_split idx a l :
  desc_sorted (key_lt score_lt idx) l →
  ∃ pre post,
    l = pre ++ run_of idx a l ++ post
    ∧ Forall (λ e, get_id idx e ≠ a) pre
    ∧ Forall (λ e, get_id idx e ≠ a) post.
Proof.
  unfold desc_sorted, run_of. induction l as [|x l IH]; intros Hs.
  - by exists [], [].
  - apply StronglySorted_inv in Hs as [Hs Hx].
    destruct (IH Hs) as (pre & post & Hl & Hpre & Hpost).
    destruct (decide (get_id idx x = a)) as [Hxa|Hxa].
    + rewrite filter_cons_True by done.
      destruct (filter (λ e, get_id idx e = a) l) as [|z run] eqn:Hrun.
      * exists [], l. split; [done|]. split; [done|].
        apply Forall_forall. intros y Hy Hya.
        by eapply (filter_nil_not_elem_of (λ e, get_id idx e = a) l y).
      * destruct pre as [|y pre].
        { exists [], post. split; [by rewrite Hl at 1|done]. }
        exfalso. apply Forall_cons in Hpre as [Hya _].
        assert (get_id idx z = a) as Hza.
        { assert (z ∈ filter (λ e, get_id idx e = a) l) as Hz
            by (rewrite Hrun; left).
          by apply list_elem_of_filter in Hz as [? _]. }
        assert (not_below (key_lt score_lt idx) x y) as Hxy.
        { eapply Forall_forall in Hx; [exact Hx|]. rewrite Hl. left. }
        assert (not_below (key_lt score_lt idx) y z) as Hyz.
        { rewrite Hl in Hs. simpl in Hs.
          apply StronglySorted_inv in Hs as [_ Hy].
          eapply Forall_forall in Hy; [exact Hy|]. set_solver. }
        apply key_lt_ids in Hxy, Hyz. rewrite Hxa in Hxy. rewrite Hza in Hyz.
        apply Hya. by apply str_ltb_antisym.
    + rewrite filter_cons_False by done.
      exists (x :: pre), post. split; [by rewrite Hl at 1|].
      split; [by constructor|done].
Qed.

(** *** One pass over a sorted sequence *)

(** The entries of entity [a] that a pass adds are those its run adds, from
    a state that is either the initial one (the run is the first) or has
    another id current and a positive counter. *)
Lemma pass_emitted_run k idx a l :
  desc_sorted (key_lt score_lt idx) l →
  ∃ st em_pre em_post,
    pass_emitted k idx l
    = em_pre ++ helper_emitted k idx st (run_of idx a l) ++ em_post
    ∧ Forall (λ e, get_id idx e ≠ a) em_pre
    ∧ Forall (λ e, get_id idx e ≠ a) em_post
    ∧ (st = (0, a) ∨ (st.2 ≠ a ∧ 1 ≤ st.1))
    ∧ (∀ e0 l', l = e0 :: l' → get_id idx e0 = a → st = (0, a)).
Proof.
  intros Hs. destruct l as [|e0 l'].
  { exists (0, a), [], []. repeat split; auto. }
  destruct (sorted_run_split idx a _ Hs) as (pre & post & Hl & Hpre & Hpost).
  set (run := run_of idx a (e0 :: l')) in *.
  unfold pass_emitted. rewrite Hl, !helper_emitted_app.
  destruct pre as [|y pre].
  - simpl in *. destruct (decide (get_id idx e0 = a)) as [He0|He0].
    + rewrite He0. exists (0, a), [], (helper_emitted k idx
        (helper_state k idx (0, a) run) post).
      repeat split; auto using helper_emitted_Forall.
    + assert (run = []) as ->.
      { destruct run as [|z run'] eqn:Hrun; [done|]. exfalso.
        assert (z ∈ run_of idx a (e0 :: l')) as Hz by (fold run; rewrite Hrun; left).
        apply list_elem_of_filter in Hz as [Hz _].
        simpl in Hl. injection Hl as -> _. done. }
      exists (0, a), [], (helper_emitted k idx (0, get_id idx e0) post).
      repeat split; auto using helper_emitted_Forall.
  - assert (y = e0) as -> by (simpl in Hl; congruence).
    pose proof Hpre as Hpre'. apply Forall_cons in Hpre' as [He0 _].
    eexists (helper_state k idx (0, get_id idx e0) (e0 :: pre)), _, _.
    split; [reflexivity|].
    repeat split; auto using helper_emitted_Forall.
    + right. split.
      * destruct (helper_state_current k idx (0, get_id idx e0) (e0 :: pre))
          as [->|(e & He & ->)]; [done|].
        by eapply Forall_forall in Hpre.
      * by apply helper_state_counter.
    + intros e1 l1 [= <- _] ?. done.
Qed.

(** Every entry among the first [k] of its run is added. *)
Lemma pass_top_emitted k idx a l e :
  desc_sorted (key_lt score_lt idx) l →
  e ∈ take (Z.to_nat k) (run_of idx a l) → e ∈ pass_emitted k idx l.
Proof.
  intros Hs He.
  destruct (pass_emitted_run k idx a l Hs)
    as (st & em_pre & em_post & -> & _ & _ & Hst & _).
  apply elem_of_app. right. apply elem_of_app. left.
  apply (run_top_emitted k idx a _ st 0); [done| | |by rewrite Z.sub_0_r].
  - destruct Hst as [->|[? _]]; [by right|by left].
  - apply Forall_forall. by intros x [? _]%list_elem_of_filter.
Qed.

(** In the first run exactly those entries are added. *)
Lemma pass_first_run k idx l e0 l' :
  desc_sorted (key_lt score_lt idx) l → l = e0 :: l' →
  run_of idx (get_id idx e0) (pass_emitted k idx l)
  = take (Z.to_nat k) (run_of idx (get_id idx e0) l).
Proof.
  intros Hs Hl.
  destruct (pass_emitted_run k idx (get_id idx e0) l Hs)
    as (st & em_pre & em_post & Hem & Hpre & Hpost & _ & Hst).
  rewrite (Hst _ _ Hl eq_refl) in Hem.
  assert (Forall (λ x, get_id idx x = get_id idx e0) (run_of idx (get_id idx e0) l))
    as Hrun by (apply Forall_forall; by intros x [? _]%list_elem_of_filter).
  rewrite run_own_emitted, Z.sub_0_r in Hem by done.
  unfold run_of at 1. rewrite Hem, !filter_app.
  rewrite (filter_none _ em_pre), (filter_none _ em_post) by done.
  rewrite filter_all; [by rewrite app_nil_r|].
  by apply Forall_take.
Qed.

(** No run adds more than [max 1 (2k - 1)] entries. *)
Lemma pass_run_bound k idx a l :
  desc_sorted (key_lt score_lt idx) l →
  (length (run_of idx a (pass_emitted k idx l)) ≤ Z.to_nat (Z.max 1 (2 * k - 1)))%nat.
Proof.
  intros Hs.
  destruct (pass_emitted_run k idx a l Hs)
    as (st & em_pre & em_post & Hem & Hpre & Hpost & Hst & _).
  assert (Forall (λ x, get_id idx x = a) (run_of idx a l))
    as Hrun by (apply Forall_forall; by intros x [? _]%list_elem_of_filter).
  unfold run_of at 1. rewrite Hem, !filter_app.
  rewrite (filter_none _ em_pre), (filter_none _ em_post) by done.
  rewrite filter_all by by apply helper_emitted_Forall.
  rewrite app_nil_r. simpl.
  etrans; [apply (run_emitted_bound k idx a)|]; [|done|].
  - destruct Hst as [->|[_ ?]]; simpl; lia.
  - unfold run_budget.
    destruct Hst as [->|[Hne Hc]]; simpl.
    + rewrite decide_True by done. lia.
    + rewrite decide_False by done. destruct (st.1 <? k) eqn:Hck; [|lia].
      apply Z.ltb_lt in Hck. lia.
Qed.

(** *** [_sparse_scores_helper] and [sparse_scores] on a non-empty list *)

Lemma sparse_scores_helper_ok (self : predictor score) l k S idx :
  preliminary_scores self = Some l → l ≠ [] → sparse_value self = Some k →
  _sparse_scores_helper self S idx = Ok (S ∪ list_to_set (pass_emitted k idx l)).
Proof.
  intros Hl Hne Hk. unfold _sparse_scores_helper. rewrite Hl, Hk.
  destruct l as [|e0 l']; [done|].
  rewrite helper_loop_spec. reflexivity.
Qed.

Lemma set_preliminary_scores_same (self : predictor score) o :
  preliminary_scores self = o → set_preliminary_scores self o = self.
Proof. intros <-. by destruct self. Qed.

Lemma sparse_scores_ok (self : predictor score) l k scores_path files :
  preliminary_scores self = Some l → l ≠ [] → sparse_value self = Some k →
  sparse_scores score_lt self scores_path files
  = (Ok (sort_desc (key_lt score_lt Idx0) (elements
       (list_to_set (pass_emitted k Idx0 (sort_desc (key_lt score_lt Idx0) l))
        ∪ list_to_set (pass_emitted k Idx1
            (sort_desc (key_lt score_lt Idx1) (sort_desc (key_lt score_lt Idx0) l)))
        : gset (entry score)))),
     set_preliminary_scores self
       (Some (sort_desc (key_lt score_lt Idx1) (sort_desc (key_lt score_lt Idx0) l))),
     match scores_path with
     | Some p => <[p := sort_desc (key_lt score_lt Idx0) (elements
         (list_to_set (pass_emitted k Idx0 (sort_desc (key_lt score_lt Idx0) l))
          ∪ list_to_set (pass_emitted k Idx1
              (sort_desc (key_lt score_lt Idx1) (sort_desc (key_lt score_lt Idx0) l)))
          : gset (entry score)))]> files
     | None => files
     end).
Proof.
  intros Hl Hne Hk. unfold sparse_scores. rewrite Hl.
  assert (sort_desc (key_lt score_lt Idx0) l ≠ []) as Hne1
    by (intros Hnil%sort_desc_nil_inv; done).
  assert (sort_desc (key_lt score_lt Idx1) (sort_desc (key_lt score_lt Idx0) l) ≠ [])
    as Hne2 by (intros Hnil%sort_desc_nil_inv; done).
  erewrite (sparse_scores_helper_ok _ _ k ∅ Idx0); [|done..].
  erewrite (sparse_scores_helper_ok _ _ k _ Idx1); [|done..].
  rewrite (left_id_L ∅ (∪)).
  destruct self; done.
Qed.

(** *** The claims on sparsification *)

(** C1. Sparsification keeps every top-k list: on a non-empty list of score
    entries and for a sparse value [k], [sparse_scores] returns, and for
    every note its [k] best entries (highest score first, equal scores in the
    order of the list) and for every profile its [k] best entries (equal
    scores in the order the list has when the second pass sorts it, that is
    the order left by the first sort) are members of what it returns. *)
Theorem sparse_scores_superset (self : predictor score) l k scores_path files :
  preliminary_scores self = Some l → l ≠ [] → sparse_value self = Some k →
  ∃ out self' files',
    sparse_scores score_lt self scores_path files = (Ok out, self', files')
    ∧ ∀ a e,
        (e ∈ top_k score_lt Idx0 a k l → e ∈ out)
        ∧ (e ∈ top_k score_lt Idx1 a k (sort_desc (key_lt score_lt Idx0) l)
           → e ∈ out).
Proof.
  intros Hl Hne Hk. eexists _, _, _.
  split; [by apply sparse_scores_ok|].
  intros a e. unfold top_k.
  split; intros He; apply elem_of_sort_desc, elem_of_elements, elem_of_union;
    [left|right]; apply elem_of_list_to_set, (pass_top_emitted _ _ a);
    try (apply sort_desc_sorted; eauto using key_lt_asym, key_lt_negtrans).
  - unfold run_of.
    rewrite (filter_sort_desc _ (key_lt_asym Idx0) (key_lt_negtrans Idx0)
               _ (by_score_lt score_lt)); [done|].
    intros x y Hx Hy. by apply (by_score_key_lt Idx0 a).
  - unfold run_of.
    rewrite (filter_sort_desc _ (key_lt_asym Idx1) (key_lt_negtrans Idx1)
               _ (by_score_lt score_lt)); [done|].
    intros x y Hx Hy. by apply (by_score_key_lt Idx1 a).
Qed.

(** C2, as the code has it. One pass walks the entries sorted descending
    by (id, score). From the first entry's id and a zero counter it adds
    what [helper_step] decides, so that: every entry whose position within
    its own id's run is below [k] is added; in the first run exactly those
    are added; a later run can start with the count the previous run left
    (the counter is reset only by an entry met with counter at least [k] and
    another id current) and add entries beyond position [k], yet no run adds
    more than [max 1 (2k - 1)] entries. *)
Theorem helper_pass_per_run k idx l0 :
  (∀ (self : predictor score) S,
     l0 ≠ [] →
     preliminary_scores self = Some (sort_desc (key_lt score_lt idx) l0) →
     sparse_value self = Some k →
     _sparse_scores_helper self S idx
     = Ok (S ∪ list_to_set (pass_emitted k idx (sort_desc (key_lt score_lt idx) l0))))
  ∧ (∀ a e,
       e ∈ take (Z.to_nat k) (run_of idx a (sort_desc (key_lt score_lt idx) l0)) →
       e ∈ pass_emitted k idx (sort_desc (key_lt score_lt idx) l0))
  ∧ (∀ e0 l',
       sort_desc (key_lt score_lt idx) l0 = e0 :: l' →
       run_of idx (get_id idx e0)
         (pass_emitted k idx (sort_desc (key_lt score_lt idx) l0))
       = take (Z.to_nat k)
           (run_of idx (get_id idx e0) (sort_desc (key_lt score_lt idx) l0)))
  ∧ (∀ a,
       (length (run_of idx a
          (pass_emitted k idx (sort_desc (key_lt score_lt idx) l0)))
        ≤ Z.to_nat (Z.max 1 (2 * k - 1)))%nat).
Proof.
  assert (desc_sorted (key_lt score_lt idx) (sort_desc (key_lt score_lt idx) l0))
    as Hs by (apply sort_desc_sorted; eauto using key_lt_asym, key_lt_negtrans).
  repeat split.
  - intros self S Hne Hl Hk. apply sparse_scores_helper_ok; [done| |done].
    by intros Hnil%sort_desc_nil_inv.
  - intros a e. by apply pass_top_emitted.
  - intros e0 l'. by apply pass_first_run.
  - intros a. by apply pass_run_bound.
Qed.

(** C8. Before any score has been computed ([preliminary_scores] is still
    [None], as [__init__] leaves it) [sparse_scores] raises the not-ready
    error, returns no result, and changes neither the predictor nor any
    file. *)
Theorem sparse_scores_not_ready :
  (∀ (self : predictor score) scores_path files,
     preliminary_scores self = None →
     sparse_scores score_lt self scores_path files
     = (Raise (RuntimeError "Call all_scores before calling sparse_scores"),
        self, files))
  ∧ (∀ average_score max_score sparse_value (self : predictor score),
       __init__ average_score max_score sparse_value = Ok self →
       preliminary_scores self = None).
Proof.
  split.
  - intros self scores_path files Hnone. unfold sparse_scores. by rewrite Hnone.
  - intros avg mx sv self. unfold __init__.
    destruct (xorb mx avg); [|done]. by intros [= <-].
Qed.

(** C10. On an empty list of preliminary scores [sparse_scores] raises the
    out-of-bounds error of [self.preliminary_scores[0]] (neither an empty
    result nor the not-ready error), and it returns a result only when the
    list has at least one entry. *)
Theorem sparse_scores_empty_list (self : predictor score) scores_path files :
  (preliminary_scores self = Some [] →
   sparse_scores score_lt self scores_path files
   = (Raise (IndexError "list index out of range"), self, files))
  ∧ (∀ out self' files',
       sparse_scores score_lt self scores_path files = (Ok out, self', files') →
       ∃ e l, preliminary_scores self = Some (e :: l)).
Proof.
  split.
  - intros Hnil. unfold sparse_scores. rewrite Hnil. simpl.
    unfold _sparse_scores_helper. simpl.
    by rewrite set_preliminary_scores_same.
  - intros out self' files'. unfold sparse_scores.
    destruct (preliminary_scores self) as [[|e l]|] eqn:Hl; [|by eauto|done].
    simpl. unfold _sparse_scores_helper. simpl. done.
Qed.

End sparse_facts.

(** *** Integer scores: an instance for concrete runs *)

Lemma Z_ltb_asym (s t : Z) : (s <? t) = true → (t <? s) = false.
Proof. intros ?%Z.ltb_lt. apply Z.ltb_ge. lia. Qed.

Lemma Z_ltb_negtrans (s t u : Z) :
  (s <? t) = false → (t <? u) = false → (s <? u) = false.
Proof. intros ?%Z.ltb_ge ?%Z.ltb_ge. apply Z.ltb_ge. lia. Qed.

Lemma sparse_scores_superset_witness :
  ∃ out self' files',
    sparse_scores Z.ltb (Data.predictor_of (Some Data.run_scores) (Some 3)) None ∅
    = (Ok out, self', files')
    ∧ ∀ a e,
        (e ∈ top_k Z.ltb Idx0 a 3 Data.run_scores → e ∈ out)
        ∧ (e ∈ top_k Z.ltb Idx1 a 3 (sort_desc (key_lt Z.ltb Idx0) Data.run_scores)
           → e ∈ out).
Proof.
  apply (sparse_scores_superset Z.ltb Z_ltb_asym Z_ltb_negtrans
           (Data.predictor_of (Some Data.run_scores) (Some 3)) Data.run_scores 3);
    [reflexivity|discriminate|reflexivity].
Defined.

(** The tie-breaking order of the profile half of C1 is the one the second
    sort meets, not the order of the input: here the best entry of profile
    "p" by input order is dropped, the best by the order after the first
    sort is kept. *)
Example sparse_scores_profile_ties :
  top_k Z.ltb Idx1 "p" 1 Data.tie_scores = [("n1", "p", 5)]
  ∧ top_k Z.ltb Idx1 "p" 1 (sort_desc (key_lt Z.ltb Idx0) Data.tie_scores)
    = [("n2", "p", 5)]
  ∧ (sparse_scores Z.ltb (Data.predictor_of (Some Data.tie_scores) (Some 1)) None ∅).1.1
    = Ok [("n2", "p", 5); ("n1", "q", 9)].
Proof. by vm_compute. Qed.

Lemma helper_pass_per_run_witness :
  (∀ a e,
     e ∈ take (Z.to_nat 3)
           (run_of Idx0 a (sort_desc (key_lt Z.ltb Idx0) Data.run_scores)) →
     e ∈ pass_emitted 3 Idx0 (sort_desc (key_lt Z.ltb Idx0) Data.run_scores))
  ∧ (∀ a,
       (length (run_of Idx0 a
          (pass_emitted 3 Idx0 (sort_desc (key_lt Z.ltb Idx0) Data.run_scores)))
        ≤ Z.to_nat (Z.max 1 (2 * 3 - 1)))%nat).
Proof.
  pose proof (helper_pass_per_run Z.ltb Z_ltb_asym Z_ltb_negtrans
                3 Idx0 Data.run_scores) as (_ & Htop & _ & Hbound).
  exact (conj Htop Hbound).
Defined.

(** C2 as stated fails: with [k = 3], after the single entry of note "b"
    the run of note "a" starts with counter 1, is reset at its third entry
    and adds all five of its entries, where the stated rule adds three and
    allows at most [k + 1 = 4]. *)
Lemma helper_pass_counterexample :
  sort_desc (key_lt Z.ltb Idx0) Data.run_scores
  = [("b", "p1", 1); ("a", "p1", 5); ("a", "p2", 4);
     ("a", "p3", 3); ("a", "p4", 2); ("a", "p5", 1)]
  ∧ pass_emitted 3 Idx0 (sort_desc (key_lt Z.ltb Idx0) Data.run_scores)
    = [("b", "p1", 1); ("a", "p1", 5); ("a", "p2", 4);
       ("a", "p3", 3); ("a", "p4", 2); ("a", "p5", 1)]
  ∧ spec_pass_emitted 3 Idx0 (sort_desc (key_lt Z.ltb Idx0) Data.run_scores)
    = [("b", "p1", 1); ("a", "p1", 5); ("a", "p2", 4); ("a", "p3", 3)]
  ∧ ¬ (length (run_of Idx0 "a"
         (pass_emitted 3 Idx0 (sort_desc (key_lt Z.ltb Idx0) Data.run_scores)))
       ≤ Z.to_nat (3 + 1))%nat.
Proof. repeat split; [by vm_compute..|]. vm_compute. lia. Qed.

Lemma sparse_scores_not_ready_witness :
  sparse_scores Z.ltb (Data.predictor_of None (Some 3)) (Some "scores.csv") ∅
  = (Raise (RuntimeError "Call all_scores before calling sparse_scores"),
     Data.predictor_of None (Some 3), ∅).
Proof.
  apply (proj1 (sparse_scores_not_ready Z.ltb)). reflexivity.
Defined.

Lemma sparse_scores_empty_list_witness :
  sparse_scores Z.ltb (Data.predictor_of (Some []) (Some 3)) (Some "scores.csv") ∅
  = (Raise (IndexError "list index out of range"),
     Data.predictor_of (Some []) (Some 3), ∅).
Proof.
  apply (proj1 (sparse_scores_empty_list Z.ltb
                  (Data.predictor_of (Some []) (Some 3)) (Some "scores.csv") ∅)).
  reflexivity.
Defined.

(** ** Facts about loops that may raise *)

Lemma mapR_Forall2 {A B} (f : A → result B) (l : list A) (ys : list B) :
  mapR f l = Ok ys ↔ Forall2 (λ x y, f x = Ok y) l ys.
Proof.
  revert ys. induction l as [|x l IH]; intros ys; simpl.
  - split; [by intros [= <-]; constructor|by inversion 1].
  - split.
    + destruct (f x) as [y|] eqn:Hx; simpl; [|done].
      destruct (mapR f l) as [ys'|] eqn:Hl; simpl; [|done].
      intros [= <-]. constructor; [done|]. by apply IH.
    + inversion 1 as [|? y ? ys' Hx Hl]; subst. rewrite Hx. simpl.
      apply IH in Hl. by rewrite Hl.
Qed.


Lemma for_each_None {A B} (body : A → option exn * list B) l out x :
  for_each body l = (None, out) → x ∈ l →
  ∃ o, body x = (None, o) ∧ ∀ y, y ∈ o → y ∈ out.
Proof.
  revert out. induction l as [|x' l IH]; intros out Hout Hx; [by inversion Hx|].
  simpl in Hout. destruct (body x') as [[e|] o] eqn:Hb; [done|].
  destruct (for_each body l) as [err out'] eqn:Hl. simpl in Hout.
  injection Hout as -> <-.
  apply elem_of_cons in Hx as [->|Hx].
  - exists o. split; [done|]. intros y Hy. apply elem_of_app. by left.
  - destruct (IH out' eq_refl Hx) as (o' & Hb' & Hsub).
    exists o'. split; [done|]. intros y Hy. apply elem_of_app. right. auto.
Qed.


Lemma elem_of_enumerate_from {A} (l : list A) i j x :
  (j, x) ∈ enumerate_from i l ↔ (i ≤ j)%nat ∧ l !! (j - i)%nat = Some x.
Proof.
  revert i. induction l as [|y l IH]; intros i; simpl.
  - split; [by inversion 1|by intros [_ ?]].
  - rewrite elem_of_cons, IH. split.
    + intros [[= -> ->]|[Hle Hx]].
      * split; [lia|]. by rewrite Nat.sub_diag.
      * split; [lia|]. by replace (j - i)%nat with (Datatypes.S (j - Datatypes.S i)) by lia.
    + intros [Hle Hx]. destruct (decide (j = i)) as [->|Hne].
      * left. rewrite Nat.sub_diag in Hx. simpl in Hx. congruence.
      * right. split; [lia|].
        by replace (j - i)%nat with (Datatypes.S (j - Datatypes.S i)) in Hx by lia.
Qed.

Lemma Forall2_compose {A B C} (Q : A → B → Prop)
  (R : B → C → Prop) (l : list A) (m : list B) (k : list C) :
  Forall2 Q l m → Forall2 R m k →
  Forall2 (λ x z, ∃ y, Q x y ∧ R y z) l k.
Proof.
  intros Hlm. revert k. induction Hlm; inversion 1; subst; constructor; eauto.
Qed.

(** ** Facts about the aggregator *)

Section aggregate_facts.
Context {score : Type} (zero : score) (normalize : list score → list score).
Context (dot : list score → list score → score).
Context (tensor_mean : list score → score) (tensor_max : list score → option score).

Abbreviation reviewer_body := (reviewer_body tensor_mean tensor_max).
Abbreviation aggregate := (aggregate tensor_mean tensor_max).
Abbreviation all_scores := (all_scores zero normalize dot tensor_mean tensor_max).
Abbreviation load_emb_file := (load_emb_file zero normalize).
Abbreviation load_emb_lines := (load_emb_lines zero).
Abbreviation reduce_affinity := (reduce_affinity tensor_mean tensor_max).

Implicit Types (self : predictor score) (p2p_aff : list (list score)).
Implicit Types (idx : gmap string nat) (bad : gset string).

Lemma select_columns_lookup p2p_aff cols sel j row :
  select_columns p2p_aff cols = Ok sel → sel !! j = Some row →
  ∃ prow, p2p_aff !! j = Some prow
          ∧ Forall2 (λ c s, prow !! c = Some s) cols row.
Proof.
  unfold select_columns. intros Hsel%mapR_Forall2 Hrow.
  destruct (Forall2_lookup_r _ _ _ _ _ Hsel Hrow) as (prow & Hprow & Hmap).
  exists prow. split; [done|].
  apply mapR_Forall2 in Hmap. eapply Forall2_impl; [exact Hmap|].
  intros c s. simpl. by destruct (prow !! c); intros [= ->].
Qed.

Lemma reduce_affinity_lookup self sel aff j s :
  reduce_affinity self sel = Ok (Some aff) → aff !! j = Some s →
  ∃ row, sel !! j = Some row
         ∧ ((average_score self = true ∧ s = tensor_mean row)
            ∨ (average_score self = false ∧ max_score self = true
               ∧ tensor_max row = Some s)).
Proof.
  unfold Specter.reduce_affinity. intros Hred Hs.
  destruct (average_score self).
  - injection Hred as <-. rewrite list_lookup_fmap in Hs.
    destruct (sel !! j) as [row|]; [|done]. injection Hs as <-.
    exists row. split; [done|]. by left.
  - destruct (max_score self); [|done].
    destruct (mapR _ sel) as [aff'|] eqn:Hmax; [|done]. simpl in Hred.
    injection Hred as ->. apply mapR_Forall2 in Hmax.
    destruct (Forall2_lookup_r _ _ _ _ _ Hmax Hs) as (row & Hrow & Hm).
    exists row. split; [done|]. right.
    destruct (tensor_max row); [|done]. by injection Hm as ->.
Qed.

(** What one iteration of the loop over reviewers appends for a submission:
    the reduction of that submission's similarities to the reviewer's usable
    publications. *)
Lemma reviewer_body_entry self bad idx test_id_list p2p_aff r pubs o j note :
  reviewer_body self bad idx test_id_list p2p_aff (r, pubs) = (None, o) →
  pubs ≠ [] → test_id_list !! j = Some note →
  ∃ prow sims,
    p2p_aff !! j = Some prow
    ∧ Forall2 (λ pid s, ∃ c, idx !! pid = Some c ∧ prow !! c = Some s)
        (usable bad pubs) sims
    ∧ ((average_score self = true ∧ (note, r, tensor_mean sims) ∈ o)
       ∨ (average_score self = false ∧ max_score self = true
          ∧ ∃ m, tensor_max sims = Some m ∧ (note, r, m) ∈ o)).
Proof.
  unfold Specter.reviewer_body. intros Hbody Hpubs Hnote.
  rewrite bool_decide_eq_false_2 in Hbody by (by destruct pubs).
  destruct (mapR _ (usable bad pubs)) as [cols|] eqn:Hcols; [|done].
  simpl in Hbody.
  destruct (select_columns p2p_aff cols) as [sel|] eqn:Hsel; [|done].
  simpl in Hbody.
  destruct (reduce_affinity self sel) as [aff|] eqn:Hred; [|done].
  eapply (for_each_None _ _ _ (j, note)) in Hbody as (o' & Hb & Hsub);
    [|apply elem_of_enumerate_from; split; [lia|by rewrite Nat.sub_0_r]].
  simpl in Hb. destruct aff as [aff|]; [|done].
  destruct (aff !! j) as [s|] eqn:Hs; [|done]. injection Hb as <-.
  destruct (reduce_affinity_lookup _ _ _ _ _ Hred Hs) as (row & Hrow & Hmode).
  destruct (select_columns_lookup _ _ _ _ _ Hsel Hrow) as (prow & Hprow & Hsims).
  exists prow, row. split; [done|]. split.
  - apply mapR_Forall2 in Hcols.
    eapply Forall2_impl; [exact (Forall2_compose _ _ _ _ _ Hcols Hsims)|].
    intros pid s' (c & Hc & Hs'). exists c. split; [|done].
    simpl in Hc. by destruct (idx !! pid); simplify_eq.
  - destruct Hmode as [[Havg ->]|(Havg & Hmax & Hm)]; [left|right].
    + split; [done|]. apply Hsub. left.
    + repeat split; try done. exists s. split; [done|]. apply Hsub. left.
Qed.

Lemma aggregate_entry self bad idx test_id_list p2p_aff out items r pubs j note :
  aggregate self bad idx test_id_list p2p_aff = (None, out) →
  pub_author_ids_to_note_id self = Some items →
  (r, pubs) ∈ items → pubs ≠ [] → test_id_list !! j = Some note →
  ∃ prow sims,
    p2p_aff !! j = Some prow
    ∧ Forall2 (λ pid s, ∃ c, idx !! pid = Some c ∧ prow !! c = Some s)
        (usable bad pubs) sims
    ∧ ((average_score self = true ∧ (note, r, tensor_mean sims) ∈ out)
       ∨ (average_score self = false ∧ max_score self = true
          ∧ ∃ m, tensor_max sims = Some m ∧ (note, r, m) ∈ out)).
Proof.
  unfold Specter.aggregate. intros Hagg Hitems Hin Hpubs Hnote.
  rewrite Hitems in Hagg.
  destruct (for_each_None _ _ _ _ Hagg Hin) as (o & Hbody & Hsub).
  destruct (reviewer_body_entry _ _ _ _ _ _ _ _ _ _ Hbody Hpubs Hnote)
    as (prow & sims & Hprow & Hsims & Hmode).
  exists prow, sims. repeat split; try done.
  destruct Hmode as [[? ?]|(? & ? & m & ? & ?)]; [left|right]; eauto 10.
Qed.

(** *** Loading an embedding file *)

Lemma load_emb_lines_spec lines ids embs bad :
  load_emb_lines lines = Ok (ids, embs, bad) →
  ids = lines.*1
  ∧ embs = (λ line : string * list score,
              if bool_decide (length line.2 = 0%nat)
              then replicate paper_emb_size_default zero else line.2) <$> lines
  ∧ (∀ pid, pid ∈ bad ↔ (pid, []) ∈ lines).
Proof.
  revert ids embs bad.
  induction lines as [|[pid emb] lines IH]; intros ids embs bad; simpl.
  - intros [= <- <- <-]. split_and!; try done. set_solver.
  - case_bool_decide as Hsize; [|done].
    destruct (Specter.load_emb_lines zero lines) as [[[ids' embs'] bad']|]; [|done].
    destruct (IH _ _ _ eq_refl) as (-> & -> & Hbad). simpl.
    case_bool_decide as Hzero; intros [= <- <- <-]; split_and!; try done.
    + intros p. rewrite elem_of_union, elem_of_singleton, elem_of_cons, Hbad.
      apply length_zero_iff_nil in Hzero as ->. naive_solver.
    + intros p. rewrite elem_of_cons, Hbad.
      split; [by right|]. intros [[= -> <-]|?]; [done|done].
Qed.

Lemma load_emb_file_spec lines emb ids bad :
  load_emb_file lines = Ok (emb, ids, bad) →
  ids = lines.*1
  ∧ length emb = length ids
  ∧ (∀ pid, pid ∈ bad ↔ (pid, []) ∈ lines)
  ∧ (∀ i pid, lines !! i = Some (pid, []) →
       emb !! i = Some (normalize (replicate paper_emb_size_default zero))).
Proof.
  unfold Specter.load_emb_file.
  destruct (load_emb_lines lines) as [[[ids' embs'] bad']|] eqn:Hlines; [|done].
  simpl. destruct (load_emb_lines_spec _ _ _ _ Hlines) as (-> & -> & Hbad).
  clear Hlines. intros Hres.
  assert (normalize <$> ((λ line : string * list score,
            if bool_decide (length line.2 = 0%nat)
            then replicate paper_emb_size_default zero else line.2) <$> lines)
          = emb ∧ lines.*1 = ids ∧ bad' = bad) as (<- & <- & <-)
    by (destruct lines; [done|by injection Hres as <- <- <-]).
  split_and!; try done.
  - by rewrite !length_fmap.
  - intros i pid Hi. rewrite !list_lookup_fmap, Hi. done.
Qed.

(** *** The columns the aggregator reads *)






(** *** [all_scores] as a whole *)

Lemma all_scores_inv self publications submissions scores_path files out self' files' :
  all_scores self publications submissions scores_path files = (Ok out, self', files') →
  ∃ emb_train train_ids bad emb_test test_ids test_bad,
    load_emb_file publications = Ok (emb_train, train_ids, bad)
    ∧ load_emb_file submissions = Ok (emb_test, test_ids, test_bad)
    ∧ aggregate self bad (paper_id2train_idx train_ids) test_ids
        (p2p_affinity dot emb_test emb_train) = (None, out)
    ∧ self' = set_preliminary_scores self (Some out).
Proof.
  unfold Specter.all_scores.
  destruct (load_emb_file publications) as [[[emb_train train_ids] bad]|]; [|done].
  destruct (load_emb_file submissions) as [[[emb_test test_ids] test_bad]|]; [|done].
  destruct (aggregate _ _ _ _ _) as [[e|] scores] eqn:Hagg; [done|].
  intros [= <- <- _]. eauto 10.
Qed.

End aggregate_facts.

(** *** The claims on aggregation *)

(** A reviewer whose publications are all in the bad-id set is not skipped:
    whenever [all_scores]'s loop ends without an exception, it has appended,
    for every submission, an entry for that reviewer whose score is the
    reduction of an empty selection. *)
Lemma all_bad_reviewer_not_skipped {score : Type}
  (tensor_mean : list score → score) (tensor_max : list score → option score)
  (self : predictor score) bad idx test_id_list p2p_aff out items r pubs j note :
  aggregate tensor_mean tensor_max self bad idx test_id_list p2p_aff = (None, out) →
  pub_author_ids_to_note_id self = Some items →
  (r, pubs) ∈ items → pubs ≠ [] → usable bad pubs = [] →
  test_id_list !! j = Some note →
  (note, r, tensor_mean []) ∈ out ∨ ∃ m, tensor_max [] = Some m ∧ (note, r, m) ∈ out.
Proof.
  intros Hagg Hitems Hin Hpubs Hbad Hnote.
  destruct (aggregate_entry _ _ _ _ _ _ _ _ _ _ _ _ _ Hagg Hitems Hin Hpubs Hnote)
    as (prow & sims & _ & Hsims & Hmode).
  rewrite Hbad in Hsims. apply Forall2_nil_inv_l in Hsims as ->.
  destruct Hmode as [[_ ?]|(_ & _ & m & ? & ?)]; eauto.
Qed.







(** ** Facts about request validation *)

Section api_request_facts.
Import Utils.
Implicit Types (m request : gmap string json) (e : exn) (v : json).


Lemma dict_empty_iff m : m = ∅ ↔ dom m = ∅.
Proof. by rewrite dom_empty_iff_L. Qed.

(** Nothing is left after popping the keys [a], [b], ... exactly when there
    were no other keys. *)
Lemma leftover2 (X : gset string) a b :
  X ∖ {[a]} ∖ {[b]} = ∅ ↔ X ⊆ {[ a; b ]}.
Proof.
  split; [|set_solver]. intros HX x Hx.
  destruct (decide (x = a)), (decide (x = b)); set_solver.
Qed.

Lemma leftover3 (X : gset string) a b c :
  X ∖ {[a]} ∖ {[b]} ∖ {[c]} = ∅ ↔ X ⊆ {[ a; b; c ]}.
Proof.
  split; [|set_solver]. intros HX x Hx.
  destruct (decide (x = a)), (decide (x = b)), (decide (x = c)); set_solver.
Qed.

Lemma leftover4 (X : gset string) a b c d :
  X ∖ {[a]} ∖ {[b]} ∖ {[c]} ∖ {[d]} = ∅ ↔ X ⊆ {[ a; b; c; d ]}.
Proof.
  split; [|set_solver]. intros HX x Hx.
  destruct (decide (x = a)), (decide (x = b)), (decide (x = c)),
    (decide (x = d)); set_solver.
Qed.







Local Arguments _load_entity : simpl never.


End api_request_facts.

(** ** Facts about [_prepare_config] and [start_expertise] *)

Section expertise_facts.
Import Expertise.
Context (shortuuid_random : nat → string) (clock : nat → Z).
Context (ServerConfig_to_json :
  gmap string json → gmap string json → result (gmap string json)).

Abbreviation _prepare_config := (_prepare_config clock ServerConfig_to_json).
Abbreviation start_expertise :=
  (start_expertise shortuuid_random clock ServerConfig_to_json).

Implicit Types (config cfg request : gmap string json) (w : world) (self : service).

Local Arguments set_nested : simpl never.
Local Arguments set_model_paths : simpl never.
Local Arguments json_contains : simpl never.

Lemma set_nested_lookup_ne config k field value config' key :
  set_nested config k field value = Ok config' → key ≠ k →
  config' !! key = config !! key.
Proof.
  unfold set_nested. destruct (config !! k) as [[| | | | |inner]|]; try done.
  intros [= <-] Hne. by rewrite lookup_insert_ne.
Qed.

Lemma set_model_paths_lookup_ne self config config' key :
  set_model_paths self config = Ok config' → key ≠ "model_params" →
  config' !! key = config !! key.
Proof.
  unfold set_model_paths. intros Hset Hne.
  destruct (json_contains "specter" _) as [[]|]; simpl in Hset; [| |done].
  - destruct (set_nested config _ _ _) as [c1|] eqn:H1; simpl in Hset; [|done].
    rewrite <- (set_nested_lookup_ne _ _ _ _ _ key H1) by done.
    destruct (json_contains "mfr" _) as [[]|]; simpl in Hset; [| |done].
    + destruct (set_nested c1 _ _ _) as [c2|] eqn:H2; simpl in Hset; [|done].
      rewrite <- (set_nested_lookup_ne _ _ _ _ _ key H2) by done.
      by apply (set_nested_lookup_ne _ _ _ _ _ key Hset).
    + by injection Hset as <-.
  - destruct (json_contains "mfr" _) as [[]|]; simpl in Hset; [| |done].
    + destruct (set_nested config _ _ _) as [c2|] eqn:H2; simpl in Hset; [|done].
      rewrite <- (set_nested_lookup_ne _ _ _ _ _ key H2) by done.
      by apply (set_nested_lookup_ne _ _ _ _ _ key Hset).
    + by injection Hset as <-.
Qed.

(** What a successful [_prepare_config] did. *)
Lemma prepare_config_inv self request w config token w' :
  _prepare_config self request w = (Ok (config, token), w') →
  ∃ cfg job_id,
    ServerConfig_to_json (default_config self) request = Ok cfg
    ∧ request !! "job_id" = Some (JStr job_id)
    ∧ cfg !! "token" = Some token
    ∧ config !! "token" = None
    ∧ config !! "status" = Some (JStr "Initialized")
    ∧ w' = write_config job_id config (makedirs job_id (read_clock clock w).2).
Proof.
  unfold Expertise._prepare_config.
  destruct (ServerConfig_to_json (default_config self) request) as [cfg|] eqn:Hcfg;
    simpl; [|done].
  unfold getitem at 1.
  destruct (request !! "job_id") as [[| | |job_id| |]|] eqn:Hjob; simpl; try done.
  destruct (set_nested cfg "dataset" "directory" _) as [c1|] eqn:H1; simpl; [|done].
  destruct (set_nested c1 "model_params" "work_dir" _) as [c2|] eqn:H2; simpl;
    [|done].
  destruct (set_nested c2 "model_params" "scores_path" _) as [c3|] eqn:H3; simpl;
    [|done].
  destruct (set_nested c3 "model_params" "publications_path" _) as [c4|] eqn:H4;
    simpl; [|done].
  destruct (set_nested c4 "model_params" "submissions_path" _) as [c5|] eqn:H5;
    simpl; [|done].
  destruct (set_model_paths self _) as [c6|] eqn:H6; simpl; [|done].
  unfold getitem. destruct (c6 !! "token") as [tok|] eqn:Htok; simpl; [|done].
  intros [= <- <- <-]. exists cfg, job_id. split_and!; try done.
  - rewrite <- Htok.
    rewrite (set_model_paths_lookup_ne _ _ _ "token" H6) by done.
    rewrite !lookup_insert_ne by done.
    rewrite (set_nested_lookup_ne _ _ _ _ _ "token" H5) by done.
    rewrite (set_nested_lookup_ne _ _ _ _ _ "token" H4) by done.
    rewrite (set_nested_lookup_ne _ _ _ _ _ "token" H3) by done.
    rewrite (set_nested_lookup_ne _ _ _ _ _ "token" H2) by done.
    by rewrite (set_nested_lookup_ne _ _ _ _ _ "token" H1) by done.
  - by rewrite lookup_delete_eq.
  - rewrite lookup_delete_ne by done.
    rewrite (set_model_paths_lookup_ne _ _ _ "status" H6) by done.
    rewrite lookup_insert_ne by done. by rewrite lookup_insert_eq.
Qed.


Lemma write_log_makedirs dir w : write_log (makedirs dir w) = write_log w.
Proof. unfold makedirs. by destruct (job_dirs w !! dir). Qed.

Lemma queue_makedirs dir w : queue (makedirs dir w) = queue w.
Proof. unfold makedirs. by destruct (job_dirs w !! dir). Qed.

Local Arguments Expertise._prepare_config : simpl never.

(** C9. The credential is never written: when [start_expertise] accepts a
    request, it has written [config.json] twice to the job's directory, with
    status Initialized and then Queued, and neither content has a 'token'
    key; the token of the validated config leaves only in the queue
    message. *)
Theorem start_expertise_token_not_persisted self request w job_id w' :
  start_expertise self request w = (Ok job_id, w') →
  ∃ cfg c1 c2 token,
    ServerConfig_to_json (default_config self)
      (<["job_id" := JStr job_id]> request) = Ok cfg
    ∧ cfg !! "token" = Some token
    ∧ write_log w' = write_log w ++ [(job_id, c1); (job_id, c2)]
    ∧ c1 !! "token" = None ∧ c2 !! "token" = None
    ∧ c1 !! "status" = Some (JStr "Initialized")
    ∧ c2 !! "status" = Some (JStr "Queued")
    ∧ job_dirs w' !! job_id = Some (Some c2)
    ∧ queue w' = queue w ++ [(job_id, c2, token)].
Proof.
  unfold Expertise.start_expertise. simpl.
  destruct (_prepare_config self _ _) as [[[c1 token]|e] w1] eqn:Hprep; [|done].
  apply prepare_config_inv
    in Hprep as (cfg & jid & Hcfg & Hjid & Htok & Hc1 & Hst & ->).
  rewrite lookup_insert_eq in Hjid. injection Hjid as <-.
  simpl. unfold getitem.
  rewrite !lookup_insert_ne by done.
  destruct (c1 !! "user_id") as [user|]; simpl; [|done].
  destruct (c1 !! "job_id") as [config_job_id|]; simpl; [|done].
  destruct user as [| | |user_id| |]; simpl; try done.
  destruct (c1 !! "job_dir") as [[| | |job_dir| |]|]; simpl; try (by intros [= ]).
  intros [= <- <-].
  eexists cfg, c1, _, token. split; [done|]. split; [done|].
  split; [simpl; rewrite write_log_makedirs, <- app_assoc; reflexivity|].
  split_and!; try done.
  - by rewrite !lookup_insert_ne by done.
  - rewrite lookup_insert_ne by done. by rewrite lookup_insert_eq.
  - simpl. by rewrite lookup_insert_eq.
  - simpl. by rewrite queue_makedirs.
Qed.

End expertise_facts.

(** ** Facts about the status lookup *)

Section status_facts.
Import Utils Expertise.
Implicit Types (w : world) (st : store).

(** The directories that [_get_subdirs] keeps for a caller who is no
    superuser are those whose config names the caller. *)
Lemma get_subdirs_owned user_id w :
  readable w → lower user_id ∉ SUPERUSER_IDS →
  ∃ dirs, _get_subdirs user_id w = Ok dirs
    ∧ ∀ d, d ∈ dirs →
           ∃ c owner, job_dirs w !! d = Some (Some c)
                      ∧ c !! "user_id" = Some owner
                      ∧ json_is_str owner user_id = true.
Proof.
  intros Hread Hsu. unfold _get_subdirs.
  rewrite bool_decide_eq_false_2 by done.
  assert (∀ d, d ∈ (map_to_list (job_dirs w)).*1 → is_Some (job_dirs w !! d)) as Hin.
  { intros d [[d2 c] [-> Hd]]%list_elem_of_fmap.
    apply elem_of_map_to_list in Hd. eauto. }
  induction ((map_to_list (job_dirs w)).*1) as [|d l IH]; simpl.
  - exists []. split; [done|]. by inversion 1.
  - destruct (Hread d) as (c & owner & Hc & Howner); [apply Hin; left|].
    rewrite Hc. unfold getitem. rewrite Howner. simpl.
    destruct IH as (dirs & Hl & Hdirs); [intros; apply Hin; by right|].
    destruct (mapR _ l) as [ll|] eqn:Hll; simpl in *; [|done].
    injection Hl as <-. eexists. split; [done|].
    intros d2. rewrite elem_of_app. intros [Hd2|Hd2]; [|by apply Hdirs].
    destruct (json_is_str owner user_id) eqn:Hown; [|by inversion Hd2].
    apply list_elem_of_singleton in Hd2 as ->. eauto.
Qed.

Lemma get_subdirs_superuser user_id w :
  lower user_id ∈ SUPERUSER_IDS →
  _get_subdirs user_id w = Ok (map_to_list (job_dirs w)).*1.
Proof. intros Hsu. unfold _get_subdirs. by rewrite bool_decide_eq_true_2. Qed.





End status_facts.

(** *** The claims on the job service *)

(** Decidable facts about concrete data, by evaluation. *)
Ltac by_evaluation :=
  match goal with
  | |- ?P => apply (bool_decide_unpack P); vm_compute; exact I
  end.




Lemma start_expertise_token_not_persisted_witness :
  ∃ cfg c1 c2 token,
    Expertise.ServerConfig_model (Expertise.default_config Data.the_service)
      (<["job_id" := JStr "Ab3dE"]> Data.good_request) = Ok cfg
    ∧ cfg !! "token" = Some token
    ∧ Expertise.write_log
        (Data.start_expertise_q Data.good_request Data.empty_world).2
      = Expertise.write_log Data.empty_world ++ [("Ab3dE", c1); ("Ab3dE", c2)]
    ∧ c1 !! "token" = None ∧ c2 !! "token" = None
    ∧ c1 !! "status" = Some (JStr "Initialized")
    ∧ c2 !! "status" = Some (JStr "Queued")
    ∧ Expertise.job_dirs
        (Data.start_expertise_q Data.good_request Data.empty_world).2 !! "Ab3dE"
      = Some (Some c2)
    ∧ Expertise.queue
        (Data.start_expertise_q Data.good_request Data.empty_world).2
      = Expertise.queue Data.empty_world ++ [("Ab3dE", c2, token)].
Proof.
  apply (start_expertise_token_not_persisted Data.uuids Data.clock
           Expertise.ServerConfig_model Data.the_service Data.good_request
           Data.empty_world "Ab3dE").
  by vm_compute.
Defined.



(** * Further properties of the scorer *)

(** From here on a proof in a section takes the variables of its statement
    (and the hypotheses on them) only. *)
Set Default Proof Using "Type*".

(** ** [sparse_scores]: what it returns *)

Section sparse_more.
Context {score : Type} `{Countable score} (score_lt : score → score → bool).
Hypothesis score_lt_asym : ∀ s t, score_lt s t = true → score_lt t s = false.
Hypothesis score_lt_negtrans :
  ∀ s t u, score_lt s t = false → score_lt t u = false → score_lt s u = false.

Implicit Types (e x : entry score) (l run : list (entry score)) (S : gset (entry score)).
Implicit Types (st : Z * string) (idx : id_index) (k : Z) (a : string).

Abbreviation helper_emitted_sub :=
  (helper_emitted_sub score_lt score_lt_asym score_lt_negtrans).
Abbreviation helper_emitted_Forall :=
  (helper_emitted_Forall score_lt score_lt_asym score_lt_negtrans).
Abbreviation sorted_run_split :=
  (sorted_run_split score_lt score_lt_asym score_lt_negtrans).
Abbreviation pass_top_emitted :=
  (pass_top_emitted score_lt score_lt_asym score_lt_negtrans).
Abbreviation sparse_scores_helper_ok :=
  (sparse_scores_helper_ok score_lt score_lt_asym score_lt_negtrans).
Abbreviation sparse_scores_ok :=
  (sparse_scores_ok score_lt score_lt_asym score_lt_negtrans).
Abbreviation key_lt_asym := (key_lt_asym score_lt score_lt_asym).
Abbreviation key_lt_negtrans := (key_lt_negtrans score_lt score_lt_negtrans).

Lemma pass_emitted_sub k idx l e : e ∈ pass_emitted k idx l → e ∈ l.
Proof. destruct l as [|e0 l']; [done|]. apply helper_emitted_sub. Qed.

(** When [sparse_scores] returns, the list was not empty and the sparse
    value an integer. *)
Lemma sparse_scores_Ok_inv (self : predictor score) scores_path files out self' files' :
  sparse_scores score_lt self scores_path files = (Ok out, self', files') →
  ∃ l k, preliminary_scores self = Some l ∧ l ≠ [] ∧ sparse_value self = Some k.
Proof.
  unfold sparse_scores.
  destruct (preliminary_scores self) as [l|] eqn:Hl; [|done].
  destruct l as [|e0 l0]; [done|].
  destruct (sparse_value self) as [k|] eqn:Hk; [by eauto|].
  unfold _sparse_scores_helper at 1. simpl. rewrite Hk.
  by destruct (insert_desc _ e0 _).
Qed.

(** The pass run by run, with the state each run starts in: the first run
    starts in the initial state, every later run with another id current
    and a positive counter. *)
Lemma pass_emitted_runs k idx a l :
  desc_sorted (key_lt score_lt idx) l →
  ∃ st em_pre em_post,
    pass_emitted k idx l
    = em_pre ++ helper_emitted k idx st (run_of idx a l) ++ em_post
    ∧ Forall (λ e, get_id idx e ≠ a) em_pre
    ∧ Forall (λ e, get_id idx e ≠ a) em_post
    ∧ ((st = (0, a) ∧ (run_of idx a l = [] ∨ ∃ e0 l', l = e0 :: l' ∧ get_id idx e0 = a))
       ∨ (st.2 ≠ a ∧ 1 ≤ st.1 ∧ ∃ e0 l', l = e0 :: l' ∧ get_id idx e0 ≠ a)).
Proof.
  intros Hs. destruct l as [|e0 l'].
  { exists (0, a), [], []. split_and!; auto. }
  destruct (sorted_run_split idx a _ Hs)
    as (pre & post & Hl & Hpre & Hpost).
  set (run := run_of idx a (e0 :: l')) in *.
  unfold pass_emitted. rewrite Hl, !helper_emitted_app.
  destruct pre as [|y pre].
  - simpl in *. destruct (decide (get_id idx e0 = a)) as [He0|He0].
    + rewrite He0. exists (0, a), [], (helper_emitted k idx
        (helper_state k idx (0, a) run) post).
      split_and!; try done; try (by apply helper_emitted_Forall).
      left. split; [done|]. eauto.
    + assert (run = []) as ->.
      { destruct run as [|z run'] eqn:Hrun; [done|]. exfalso.
        assert (z ∈ run_of idx a (e0 :: l')) as Hz by (fold run; rewrite Hrun; left).
        apply list_elem_of_filter in Hz as [Hz _].
        simpl in Hl. injection Hl as -> _. done. }
      exists (0, a), [], (helper_emitted k idx (0, get_id idx e0) post).
      split_and!; try done; try (by apply helper_emitted_Forall). auto.
  - assert (y = e0) as -> by (simpl in Hl; congruence).
    pose proof Hpre as Hpre'. apply Forall_cons in Hpre' as [He0 _].
    eexists (helper_state k idx (0, get_id idx e0) (e0 :: pre)), _, _.
    split; [reflexivity|].
    split_and!; try done; try (by apply helper_emitted_Forall).
    right. split_and!.
    + destruct (helper_state_current k idx (0, get_id idx e0) (e0 :: pre))
        as [->|(e & He & ->)]; [done|].
      by eapply Forall_forall in Hpre.
    + by apply helper_state_counter.
    + eauto.
Qed.

(** With [k ≤ 0] a run scanned from the initial state adds nothing. *)
Lemma run_first_nonpositive k idx a run c :
  k ≤ 0 → 0 ≤ c → Forall (λ e, get_id idx e = a) run →
  helper_emitted k idx (c, a) run = [].
Proof.
  intros Hk. revert c. induction run as [|x run IH]; intros c Hc Hrun; [done|].
  apply Forall_cons in Hrun as [Hx Hrun]. simpl.
  destruct (c <? k) eqn:Hck; [apply Z.ltb_lt in Hck; lia|].
  rewrite decide_False by (intros Hne; by apply Hne).
  apply IH; [lia|done].
Qed.

(** With [k ≤ 0] a later run adds its first entry and no other. *)
Lemma run_later_nonpositive k idx a run st :
  k ≤ 0 → st.2 ≠ a → 1 ≤ st.1 → Forall (λ e, get_id idx e = a) run →
  helper_emitted k idx st run = take 1 run.
Proof.
  intros Hk Hne Hc Hrun. destruct st as [c cur]. simpl in *.
  destruct run as [|x run]; [done|].
  apply Forall_cons in Hrun as [Hx Hrun]. simpl.
  destruct (c <? k) eqn:Hck; [apply Z.ltb_lt in Hck; lia|].
  rewrite decide_True by congruence.
  rewrite Hx, run_first_nonpositive; [done|done|lia|done].
Qed.

Lemma run_of_Forall idx a l : Forall (λ e, get_id idx e = a) (run_of idx a l).
Proof. apply Forall_forall. by intros x [? _]%list_elem_of_filter. Qed.

Lemma run_of_pass_emitted k idx a l st em_pre em_post :
  pass_emitted k idx l
  = em_pre ++ helper_emitted k idx st (run_of idx a l) ++ em_post →
  Forall (λ e, get_id idx e ≠ a) em_pre →
  Forall (λ e, get_id idx e ≠ a) em_post →
  run_of idx a (pass_emitted k idx l) = helper_emitted k idx st (run_of idx a l).
Proof.
  intros -> Hpre Hpost. unfold run_of at 1. rewrite !filter_app.
  rewrite (filter_none _ em_pre), (filter_none _ em_post) by done.
  rewrite filter_all by (apply helper_emitted_Forall, run_of_Forall).
  by rewrite app_nil_r.
Qed.

(** Sparsification returns a selection of the preliminary scores: every
    entry it returns is one of them, no entry is returned twice, and the
    list is in descending order of [(note_id, score)]. *)
Theorem sparse_scores_selection (self : predictor score) l scores_path files
    out self' files' :
  preliminary_scores self = Some l →
  sparse_scores score_lt self scores_path files = (Ok out, self', files') →
  (∀ e, e ∈ out → e ∈ l)
  ∧ NoDup out
  ∧ desc_sorted (key_lt score_lt Idx0) out.
Proof.
  intros Hl Hrun.
  destruct (sparse_scores_Ok_inv _ _ _ _ _ _ Hrun) as (l' & k & Hl' & Hne & Hk).
  assert (l' = l) as -> by congruence.
  rewrite (sparse_scores_ok self l k) in Hrun by done.
  injection Hrun as <- _ _.
  split_and!.
  - intros e He. apply elem_of_sort_desc, elem_of_elements, elem_of_union in He.
    destruct He as [He|He]; apply elem_of_list_to_set, pass_emitted_sub in He.
    + by apply elem_of_sort_desc in He.
    + by apply elem_of_sort_desc, elem_of_sort_desc in He.
  - rewrite sort_desc_perm. apply NoDup_elements.
  - apply sort_desc_sorted; [apply key_lt_asym|apply key_lt_negtrans].
Qed.

(** A sparse value that is zero or negative does not empty the result.  One
    pass over the sorted list then adds, for every id but the one the scan
    starts with, the first entry of its run (its best score), and nothing of
    the first run. *)
Theorem helper_pass_nonpositive (self : predictor score) k idx e0 l' S :
  k ≤ 0 →
  desc_sorted (key_lt score_lt idx) (e0 :: l') →
  preliminary_scores self = Some (e0 :: l') →
  sparse_value self = Some k →
  ∃ S', _sparse_scores_helper self S idx = Ok (S ∪ S')
    ∧ ∀ e, e ∈ S' ↔
        get_id idx e ≠ get_id idx e0
        ∧ head (run_of idx (get_id idx e) (e0 :: l')) = Some e.
Proof.
  intros Hk Hs Hl Hsv.
  eexists. split; [by apply sparse_scores_helper_ok|].
  assert (∀ a, run_of idx a (pass_emitted k idx (e0 :: l'))
               = if decide (a = get_id idx e0) then []
                 else take 1 (run_of idx a (e0 :: l'))) as Hruns.
  { intros a.
    destruct (pass_emitted_runs k idx a _ Hs)
      as (st & em_pre & em_post & Hem & Hpre & Hpost & Hst).
    rewrite (run_of_pass_emitted _ _ _ _ _ _ _ Hem Hpre Hpost).
    destruct Hst as [[-> Hfirst]|(Hne & Hc & e1 & l1 & [= <- <-] & Ha)].
    - rewrite (run_first_nonpositive k idx a) by (done || lia || apply run_of_Forall).
      case_decide; [done|].
      destruct Hfirst as [->|(e1 & l1 & [= <- <-] & Ha)]; [done|congruence].
    - rewrite decide_False by congruence.
      apply (run_later_nonpositive k idx a); try done. apply run_of_Forall. }
  intros e. rewrite elem_of_list_to_set.
  assert (e ∈ pass_emitted k idx (e0 :: l')
          ↔ e ∈ run_of idx (get_id idx e) (pass_emitted k idx (e0 :: l'))) as ->.
  { unfold run_of. rewrite list_elem_of_filter. naive_solver. }
  rewrite Hruns. case_decide as Hid.
  - split; [by intros ?%elem_of_nil|]. by intros [? _].
  - destruct (run_of idx (get_id idx e) (e0 :: l')) as [|x run]; simpl.
    + split; [by intros ?%elem_of_nil|]. by intros [_ ?].
    + rewrite take_0, list_elem_of_singleton. naive_solver.
Qed.

(** A sparse value that no note exceeds, or that no profile exceeds, drops
    nothing: the result holds every preliminary score. *)
Theorem sparse_scores_keeps_all (self : predictor score) l k scores_path files
    out self' files' :
  preliminary_scores self = Some l →
  sparse_value self = Some k →
  ((∀ a, Z.of_nat (length (run_of Idx0 a l)) ≤ k)
   ∨ (∀ a, Z.of_nat (length (run_of Idx1 a l)) ≤ k)) →
  sparse_scores score_lt self scores_path files = (Ok out, self', files') →
  list_to_set out =@{gset (entry score)} list_to_set l.
Proof.
  intros Hl Hk Hsmall Hrun.
  destruct (sparse_scores_Ok_inv _ _ _ _ _ _ Hrun) as (l' & k' & Hl' & Hne & Hk').
  assert (l' = l) as -> by congruence. assert (k' = k) as -> by congruence.
  rewrite (sparse_scores_ok self l k) in Hrun by done.
  injection Hrun as <- _ _.
  apply set_eq. intros e.
  rewrite !elem_of_list_to_set, elem_of_sort_desc, elem_of_elements, elem_of_union,
    !elem_of_list_to_set.
  split.
  - intros [He|He]; apply pass_emitted_sub in He.
    + by apply elem_of_sort_desc in He.
    + by apply elem_of_sort_desc, elem_of_sort_desc in He.
  - intros He.
    assert (∀ idx l1, l1 ≡ₚ l →
              (∀ a, Z.of_nat (length (run_of idx a l)) ≤ k) →
              desc_sorted (key_lt score_lt idx) l1 →
              e ∈ pass_emitted k idx l1) as Hpass.
    { intros idx l1 Hperm Hlen Hs.
      apply (pass_top_emitted k idx (get_id idx e)); [done|].
      rewrite take_ge.
      - unfold run_of. apply list_elem_of_filter. by rewrite Hperm.
      - specialize (Hlen (get_id idx e)).
        assert (length (run_of idx (get_id idx e) l1)
                = length (run_of idx (get_id idx e) l)) as ->
          by (unfold run_of; by rewrite Hperm).
        lia. }
    destruct Hsmall as [Hlen|Hlen]; [left|right]; apply Hpass; try done.
    + apply sort_desc_perm.
    + apply sort_desc_sorted; [apply key_lt_asym|apply key_lt_negtrans].
    + by rewrite !sort_desc_perm.
    + apply sort_desc_sorted; [apply key_lt_asym|apply key_lt_negtrans].
Qed.

End sparse_more.
Lemma sparse_scores_selection_witness :
  (∀ e, e ∈ [("n2", "p", 5); ("n1", "q", 9)] → e ∈ Data.tie_scores)
  ∧ NoDup [("n2", "p", 5); ("n1", "q", 9)]
  ∧ desc_sorted (key_lt Z.ltb Idx0) [("n2", "p", 5); ("n1", "q", 9)].
Proof.
  eapply (sparse_scores_selection Z.ltb Z_ltb_asym Z_ltb_negtrans
            (Data.predictor_of (Some Data.tie_scores) (Some 1)) Data.tie_scores
            None ∅);
    [reflexivity|by vm_compute].
Defined.

Lemma helper_pass_nonpositive_witness :
  ∃ S', _sparse_scores_helper
          (Data.predictor_of
             (Some [("b", "p1", 1); ("a", "p1", 5); ("a", "p2", 4)]) (Some 0))
          ∅ Idx0 = Ok (∅ ∪ S')
    ∧ ∀ e, e ∈ S' ↔
        get_id Idx0 e ≠ "b"
        ∧ head (run_of Idx0 (get_id Idx0 e)
                  [("b", "p1", 1); ("a", "p1", 5); ("a", "p2", 4)]) = Some e.
Proof.
  apply (helper_pass_nonpositive Z.ltb Z_ltb_asym Z_ltb_negtrans
           (Data.predictor_of
              (Some [("b", "p1", 1); ("a", "p1", 5); ("a", "p2", 4)]) (Some 0))
           0 Idx0 ("b", "p1", 1) [("a", "p1", 5); ("a", "p2", 4)] ∅);
    [lia| |reflexivity|reflexivity].
  repeat (constructor; [repeat constructor|]). constructor.
Defined.

Lemma sparse_scores_keeps_all_witness :
  list_to_set [("b", "p1", 1); ("a", "p1", 5); ("a", "p2", 4); ("a", "p3", 3);
               ("a", "p4", 2); ("a", "p5", 1)]
  =@{gset (entry Z)} list_to_set Data.run_scores.
Proof.
  eapply (sparse_scores_keeps_all Z.ltb Z_ltb_asym Z_ltb_negtrans
            (Data.predictor_of (Some Data.run_scores) (Some 2)) Data.run_scores 2
            None ∅);
    [reflexivity|reflexivity| |by vm_compute].
  right. intros a. unfold run_of, Data.run_scores.
  repeat (rewrite filter_cons; case_decide); simplify_eq/=; lia.
Defined.
(** ** [all_scores]: when it returns, what it returns, when it refuses *)

Lemma for_each_None_bind {A B} (body : A → option exn * list B) l out :
  for_each body l = (None, out) →
  Forall (λ x, (body x).1 = None) l ∧ out = l ≫= (λ x, (body x).2).
Proof.
  revert out. induction l as [|x l IH]; intros out; simpl.
  - intros [= <-]. by split.
  - destruct (body x) as [[e|] o] eqn:Hb; [done|].
    destruct (for_each body l) as [err out'] eqn:Hl. simpl.
    intros [= -> <-]. destruct (IH _ eq_refl) as [Hall ->].
    split; [|done]. constructor; [by rewrite Hb|done].
Qed.


Lemma enumerate_from_lookup {A} (l : list A) i j :
  enumerate_from i l !! j = (λ x, ((i + j)%nat, x)) <$> l !! j.
Proof.
  revert i j. induction l as [|y l IH]; intros i [|j]; simpl; try done.
  - by rewrite Nat.add_0_r.
  - rewrite IH. by replace (Datatypes.S i + j)%nat with (i + Datatypes.S j)%nat by lia.
Qed.


Section all_scores_more.
Context {score : Type} (zero : score) (normalize : list score → list score).
Context (dot : list score → list score → score).
Context (tensor_mean : list score → score) (tensor_max : list score → option score).

Abbreviation reviewer_body := (reviewer_body tensor_mean tensor_max).
Abbreviation aggregate := (aggregate tensor_mean tensor_max).
Abbreviation all_scores := (all_scores zero normalize dot tensor_mean tensor_max).
Abbreviation load_emb_file := (load_emb_file zero normalize).
Abbreviation load_emb_lines := (load_emb_lines zero).
Abbreviation reduce_affinity := (reduce_affinity tensor_mean tensor_max).

Implicit Types (self : predictor score) (p2p_aff : list (list score)).
Implicit Types (idx : gmap string nat) (bad : gset string).
Implicit Types (lines publications submissions : list (string * list score)).




(** What the loop over the submissions appends for one reviewer. *)
Lemma reviewer_loop_ids (aff : option (list score)) (r : string)
    (l : list string) i o :
  for_each (λ jt : nat * string,
    match aff return option exn * list (entry score) with
    | None => (Some (UnboundLocalError "all_paper_aff"), [])
    | Some aff =>
        match aff !! jt.1 with
        | Some s => (None, [(jt.2, r, s)])
        | None => (Some (IndexError "index out of range"), [])
        end
    end) (enumerate_from i l) = (None, o) →
  (λ e : entry score, (note_id e, profile_id e)) <$> o = (λ t, (t, r)) <$> l.
Proof.
  revert i o. induction l as [|t l IH]; intros i o; simpl.
  - by intros [= <-].
  - destruct aff as [aff|]; [|done].
    destruct (aff !! i) as [s|]; [|done].
    destruct (for_each _ (enumerate_from (Datatypes.S i) l)) as [err o'] eqn:Hl.
    simpl. intros [= -> <-]. simpl. f_equal. by eapply IH.
Qed.


Lemma reviewer_body_ids self bad idx test_id_list p2p_aff r pubs o :
  reviewer_body self bad idx test_id_list p2p_aff (r, pubs) = (None, o) →
  (λ e : entry score, (note_id e, profile_id e)) <$> o
  = if decide (pubs = []) then [] else (λ t, (t, r)) <$> test_id_list.
Proof.
  unfold Specter.reviewer_body. case_bool_decide as Hlen.
  - intros [= <-]. apply length_zero_iff_nil in Hlen. by rewrite decide_True.
  - rewrite decide_False by (intros ->; done).
    destruct (mapR _ (usable bad pubs)) as [cols|]; [|done]. simpl.
    destruct (select_columns p2p_aff cols) as [sel|]; [|done]. simpl.
    destruct (reduce_affinity self sel) as [aff|]; [|done].
    apply reviewer_loop_ids.
Qed.

(** [all_scores] returns one entry for every reviewer that has a
    publication and every line of the submissions file, reviewer by reviewer
    in the order of the dataset and, for each reviewer, in the order of the
    file; it keeps that list as the preliminary scores. *)
Theorem all_scores_shape self publications submissions scores_path files
    out self' files' items :
  pub_author_ids_to_note_id self = Some items →
  all_scores self publications submissions scores_path files = (Ok out, self', files') →
  (λ e : entry score, (note_id e, profile_id e)) <$> out
  = filter (λ item, item.2 ≠ []) items
      ≫= (λ item, (λ note, (note, item.1)) <$> submissions.*1)
  ∧ preliminary_scores self' = Some out.
Proof.
  intros Hitems Hrun.
  destruct (all_scores_inv _ _ _ _ _ _ _ _ _ _ _ _ _ Hrun)
    as (emb_train & train_ids & bad & emb_test & test_ids & test_bad
        & Htrain & Htest & Hagg & ->).
  split; [|done].
  destruct (load_emb_file_spec _ _ _ _ _ _ Htest) as (-> & _).
  unfold Specter.aggregate in Hagg. rewrite Hitems in Hagg.
  apply for_each_None_bind in Hagg as [Hall ->].
  clear Hitems Hrun. induction Hall as [|[r pubs] items Hx Hall IH]; [done|].
  rewrite bind_cons, fmap_app, IH, filter_cons.
  destruct (reviewer_body self bad _ _ _ (r, pubs)) as [err o] eqn:Hbody.
  cbn [fst snd] in Hx |- *. subst err. apply reviewer_body_ids in Hbody.
  rewrite Hbody.
  destruct (decide (pubs = [])) as [->|Hne].
  - by rewrite decide_False by (intros Hn; by apply Hn).
  - rewrite decide_True by done. by rewrite bind_cons.
Qed.



End all_scores_more.

Lemma all_scores_shape_witness :
  (λ e : entry TorchQ.tfloat, (note_id e, profile_id e)) <$> Data.scenario_max_out
  = filter (λ item, item.2 ≠ []) Data.scenario_reviewers
      ≫= (λ item, (λ note, (note, item.1)) <$> Data.scenario_submissions.*1)
  ∧ preliminary_scores
      (set_preliminary_scores (Data.predictor_q false true Data.scenario_reviewers)
         (Some Data.scenario_max_out))
    = Some Data.scenario_max_out.
Proof.
  apply (all_scores_shape TorchQ.zero TorchQ.normalize TorchQ.dot
           TorchQ.mean TorchQ.max
           (Data.predictor_q false true Data.scenario_reviewers)
           Data.scenario_publications Data.scenario_submissions None ∅
           Data.scenario_max_out _ ∅ Data.scenario_reviewers);
    [reflexivity|by vm_compute].
Defined.


(** * Properties of the datasets and the embedding files *)

Import Dataset.

(** ** [_fetch_batches] *)

(** The bound on the rounds does not cut the loop short: more rounds than
    items change nothing. *)
Lemma fetch_loop_rounds {A} (r1 r2 n : nat) (l : list A) :
  (length l ≤ r1)%nat → (length l ≤ r2)%nat →
  fetch_loop r1 n l = fetch_loop r2 n l.
Proof.
  revert r2 l. induction r1 as [|r1 IH]; intros [|r2] l H1 H2; simpl; try done.
  - destruct l; [by rewrite take_nil|simpl in H1; lia].
  - destruct l; [by rewrite take_nil|simpl in H2; lia].
  - destruct (take n l) as [|x batch] eqn:Htake; [done|]. f_equal.
    assert (n ≠ 0 ∧ length l ≠ 0)%nat as [??].
    { destruct n; [done|]. destruct l; [done|]. simpl. lia. }
    apply IH; rewrite length_drop; lia.
Qed.

Lemma fetch_loop_spec {A} (rounds n : nat) (l : list A) :
  (0 < n)%nat → (length l ≤ rounds)%nat →
  concat (fetch_loop rounds n l) = l
  ∧ Forall (λ b, b ≠ [] ∧ (length b ≤ n)%nat) (fetch_loop rounds n l)
  ∧ (∀ i b, fetch_loop rounds n l !! i = Some b →
            (Datatypes.S i < length (fetch_loop rounds n l))%nat → length b = n)
  ∧ (l ≠ [] → fetch_loop rounds n l ≠ []).
Proof.
  intros Hn. revert l. induction rounds as [|rounds IH]; intros l Hlen.
  - destruct l; [|simpl in Hlen; lia]. by split_and!.
  - simpl. destruct (take n l) as [|x batch] eqn:Htake.
    + assert (l = []) as ->.
      { destruct l; [done|]. destruct n; [lia|done]. }
      by split_and!.
    + destruct (IH (drop n l)) as (Hcat & Hall & Hfull & Hne).
      { rewrite length_drop.
        assert (length l ≠ 0)%nat by (destruct l; [by rewrite take_nil in Htake|done]).
        lia. }
      split_and!.
      * rewrite concat_cons, Hcat, <-Htake. apply take_drop.
      * constructor; [|done]. split; [done|].
        rewrite <-Htake, length_take. lia.
      * intros [|i] b; simpl.
        -- intros [= <-] Hmore.
           rewrite <-Htake, length_take.
           destruct (decide (n ≤ length l)%nat) as [|Hshort]; [lia|].
           exfalso. rewrite drop_ge in Hmore by lia.
           destruct rounds; simpl in Hmore; rewrite ?take_nil in Hmore;
             simpl in Hmore; lia.
        -- intros Hb Hmore. apply (Hfull i b Hb). lia.
      * done.
Qed.


(** ** Insertion-ordered dicts *)

Section dict_facts.
Context {V : Type}.
Implicit Types (k : string).

Lemma dict_get_None k (d : list (string * V)) : dict_get k d = None ↔ k ∉ d.*1.
Proof.
  induction d as [|[k' v] d IH]; simpl.
  { split; [intros _; apply not_elem_of_nil|done]. }
  case_decide as Hk; rewrite not_elem_of_cons; [naive_solver|].
  rewrite IH. naive_solver.
Qed.

Lemma dict_get_elem_of k (v : V) (d : list (string * V)) :
  dict_get k d = Some v → (k, v) ∈ d.
Proof.
  induction d as [|[k' v'] d IH]; simpl; [done|].
  case_decide as Hk; [intros [= ->]; subst; by left|]. right. auto.
Qed.

Lemma dict_get_NoDup k (v : V) (d : list (string * V)) :
  NoDup d.*1 → (k, v) ∈ d → dict_get k d = Some v.
Proof.
  induction d as [|[k' v'] d IH]; simpl; [by intros _ ?%elem_of_nil|].
  intros [Hk' Hd]%NoDup_cons [[= -> ->]|Hin]%elem_of_cons.
  - by rewrite decide_True.
  - rewrite decide_False; [by apply IH|].
    intros ->. apply Hk'. apply list_elem_of_fmap. by exists (k, v).
Qed.

Lemma dict_set_keys k (v : V) (d : list (string * V)) :
  (dict_set k v d).*1 = if decide (k ∈ d.*1) then d.*1 else d.*1 ++ [k].
Proof.
  induction d as [|[k' v'] d IH]; [done|].
  cbn [dict_set dict_append fmap list_fmap fst].
  destruct (decide (k' = k)) as [->|Hk]; cbn [fmap list_fmap fst].
  - by rewrite decide_True by left.
  - fold (fmap (M:=list) (@fst string V)) in *.
    rewrite IH. destruct (decide (k ∈ d.*1)).
    + by rewrite decide_True by by right.
    + rewrite decide_False; [done|]. rewrite elem_of_cons. naive_solver.
Qed.

Lemma dict_get_set k k' (v : V) (d : list (string * V)) :
  dict_get k' (dict_set k v d) = if decide (k = k') then Some v else dict_get k' d.
Proof.
  induction d as [|[k0 v0] d IH]; simpl.
  - destruct (decide (k = k')); by simplify_eq.
  - destruct (decide (k0 = k)) as [->|Hk0]; simpl.
    + destruct (decide (k = k')); by simplify_eq.
    + rewrite IH. destruct (decide (k0 = k')) as [->|]; [|done].
      by rewrite decide_False by done.
Qed.

Lemma dict_append_keys k (v : V) (d : list (string * list V)) :
  (dict_append k v d).*1 = if decide (k ∈ d.*1) then d.*1 else d.*1 ++ [k].
Proof.
  induction d as [|[k' v'] d IH]; [done|].
  cbn [dict_set dict_append fmap list_fmap fst].
  destruct (decide (k' = k)) as [->|Hk]; cbn [fmap list_fmap fst].
  - by rewrite decide_True by left.
  - fold (fmap (M:=list) (@fst string (list V))) in *.
    rewrite IH. destruct (decide (k ∈ d.*1)).
    + by rewrite decide_True by by right.
    + rewrite decide_False; [done|]. rewrite elem_of_cons. naive_solver.
Qed.

Lemma dict_get_append k k' (v : V) (d : list (string * list V)) :
  dict_get k' (dict_append k v d)
  = if decide (k = k') then Some (default [] (dict_get k d) ++ [v])
    else dict_get k' d.
Proof.
  induction d as [|[k0 v0] d IH]; simpl.
  - destruct (decide (k = k')); by simplify_eq.
  - destruct (decide (k0 = k)) as [->|Hk0]; simpl.
    + destruct (decide (k = k')); by simplify_eq.
    + rewrite IH. destruct (decide (k0 = k')) as [->|]; [|done].
      by rewrite decide_False by done.
Qed.

Lemma dict_append_nonempty k (v : V) (d : list (string * list V)) :
  Forall (λ item, item.2 ≠ []) d → Forall (λ item, item.2 ≠ []) (dict_append k v d).
Proof.
  induction 1 as [|[k' vs] d Hvs Hd IH]; simpl.
  - repeat constructor. done.
  - case_decide; constructor; simpl in *; try done. by destruct vs.
Qed.



Lemma NoDup_keys_step (keys : list string) k :
  NoDup keys → NoDup (if decide (k ∈ keys) then keys else keys ++ [k]).
Proof.
  intros Hnd. case_decide; [done|].
  apply NoDup_app. split_and!; [done| |apply NoDup_singleton].
  intros x Hx ->%list_elem_of_singleton. done.
Qed.

End dict_facts.

(** ** Loops over a state *)

Lemma loop_invariant {A S} (P : S → Prop) (body : S → A → option exn * S) st l :
  (∀ st x, P st → P (body st x).2) → P st → P (loop body st l).2.
Proof.
  intros Hbody. revert st. induction l as [|x l IH]; intros st Hst; [done|].
  simpl. specialize (Hbody st x Hst).
  destruct (body st x) as [[e|] st']; simpl in *; auto.
Qed.


Lemma loop_None_Forall {A S} (body : S → A → option exn * S) st l st' :
  loop body st l = (None, st') → Forall (λ x, ∃ s, (body s x).1 = None) l.
Proof.
  revert st. induction l as [|x l IH]; intros st; simpl; [by constructor|].
  destruct (body st x) as [[e|] st1] eqn:Hx; [done|].
  intros Hl. constructor; [|eauto]. exists st. by rewrite Hx.
Qed.

Lemma loop_app {A S} (body : S → A → option exn * S) st l1 l2 :
  loop body st (l1 ++ l2)
  = match loop body st l1 with
    | (Some e, st') => (Some e, st')
    | (None, st') => loop body st' l2
    end.
Proof.
  revert st. induction l1 as [|x l1 IH]; intros st; simpl; [done|].
  destruct (body st x) as [[e|] st1]; [done|]. apply IH.
Qed.

Lemma forallb_Forall {A} (f : A → bool) (l : list A) :
  forallb f l = true ↔ Forall (λ x, f x = true) l.
Proof.
  induction l as [|x l IH]; simpl; [by split; constructor|].
  by rewrite andb_true_iff, Forall_cons, IH.
Qed.

Lemma loop_outcome {A S} (ok : A → bool) (Q : exn → Prop)
    (body : S → A → option exn * S) st l :
  (∀ st x, if ok x then (body st x).1 = None
           else ∃ e, (body st x).1 = Some e ∧ Q e) →
  if forallb ok l then (loop body st l).1 = None
  else ∃ e, (loop body st l).1 = Some e ∧ Q e.
Proof.
  intros Hbody. revert st. induction l as [|x l IH]; intros st; [done|].
  simpl. specialize (Hbody st x).
  destruct (ok x); simpl.
  - destruct (body st x) as [[e|] st1]; [done|]. apply IH.
  - destruct Hbody as (e & He & HQ).
    destruct (body st x) as [[e'|] st1]; simpl in *; [|done].
    exists e'. split; [done|]. by injection He as ->.
Qed.

(** ** [set_archives_dataset] *)

Section archives_facts.
Context {score : Type} (time_time : nat → Z).

Abbreviation archives_step := (archives_step time_time).
Abbreviation archives_loop := (archives_loop time_time).
Abbreviation set_archives_dataset := (set_archives_dataset (score := score) time_time).

Implicit Types (st : archives_state) (p publication : note) (r profile_id : string).
Implicit Types (ds : list (string * list note)).


(** A step on a publication with a string title and abstract ends normally,
    any other raises [AttributeError]. *)
Lemma archives_step_outcome r st p :
  if has_strings p then (archives_step r st p).1 = None
  else ∃ msg, (archives_step r st p).1 = Some (AttributeError msg).
Proof.
  unfold Dataset.archives_step, has_strings, stripped.
  destruct (content p !! "title") as [[]|]; simpl; eauto;
    destruct (content p !! "abstract") as [[]|]; simpl;
    repeat (case_bool_decide; simpl); eauto;
    by destruct (dict_get _ _).
Qed.

(** Whatever a step does, it leaves the reviewers' lists as they were or
    appends the publication to the reviewer's list. *)
Lemma archives_step_authors r st p :
  st_author_ids_to_note_id (archives_step r st p).2 = st_author_ids_to_note_id st
  ∨ st_author_ids_to_note_id (archives_step r st p).2
    = dict_append r (id p) (st_author_ids_to_note_id st).
Proof.
  unfold Dataset.archives_step.
  destruct (stripped (content p) "title") as [t|e]; simpl; [|by left].
  destruct (stripped (content p) "abstract") as [a|e]; simpl.
  - destruct (bool_decide (t ≠ "")); simpl.
    + right. by destruct (dict_get _ _).
    + destruct (bool_decide (a ≠ "")); simpl; [|by left].
      right. by destruct (dict_get _ _).
  - destruct (bool_decide (t ≠ "")); simpl; [by right|by left].
Qed.

Lemma archives_loop_invariant (P : archives_state → Prop) st ds :
  (∀ r st p, P st → P (archives_step r st p).2) →
  P st → P (archives_loop st ds).2.
Proof.
  intros Hstep. unfold Dataset.archives_loop.
  apply loop_invariant. intros st1 [r pubs] Hst1.
  apply loop_invariant; [|done]. intros st2 p. apply Hstep.
Qed.

(** The lists of [pub_author_ids_to_note_id] are never empty: a reviewer
    is entered with the first publication that is kept, and a reviewer none
    of whose publications is kept is not entered (so that the test for an
    empty list in [all_scores] never succeeds on it).  This holds also when
    the call ends with an exception. *)
Theorem set_archives_dataset_reviewers work_dir (self : predictor score) a fs n ds
    err self' a' fs' n' :
  set_archives_dataset work_dir self a fs n ds = (err, self', a', fs', n') →
  ∃ items,
    pub_author_ids_to_note_id self' = Some items
    ∧ NoDup items.*1
    ∧ Forall (λ item, item.2 ≠ []) items.
Proof.
  unfold Dataset.set_archives_dataset.
  set (st0 := {| st_attrs := _ |}).
  pose proof (archives_loop_invariant
    (λ st, NoDup (st_author_ids_to_note_id st).*1
           ∧ Forall (λ item, item.2 ≠ []) (st_author_ids_to_note_id st)) st0 ds) as Hinv.
  destruct (archives_loop st0 ds) as [err0 st] eqn:Hloop.
  destruct Hinv as [Hnd Hne].
  - intros r st1 p [Hnd Hne].
    destruct (archives_step_authors r st1 p) as [->| ->]; [done|].
    split; [|by apply dict_append_nonempty].
    rewrite dict_append_keys. by apply NoDup_keys_step.
  - split; [apply NoDup_nil_2|constructor].
  - intros Hres. exists (st_author_ids_to_note_id st).
    by destruct err0; injection Hres as <- <- <- <- <-.
Qed.

(** [set_archives_dataset] ends normally exactly when the title and the
    abstract of every publication are strings; otherwise it raises
    [AttributeError] (a publication that lacks one of them is not skipped),
    and then it has written no file. *)
Theorem set_archives_dataset_outcome work_dir (self : predictor score) a fs n ds
    err self' a' fs' n' :
  set_archives_dataset work_dir self a fs n ds = (err, self', a', fs', n') →
  (err = None ↔ Forall (λ item, Forall (λ p, has_strings p = true) item.2) ds)
  ∧ (∀ e, err = Some e → (∃ msg, e = AttributeError msg) ∧ fs' = fs).
Proof.
  unfold Dataset.set_archives_dataset.
  set (st0 := {| st_attrs := _ |}).
  pose proof (loop_outcome (λ item : string * list note, forallb has_strings item.2)
                (λ e, ∃ msg, e = AttributeError msg)
                (λ st item, loop (archives_step item.1) st item.2) st0 ds) as Hout.
  fold (archives_loop st0 ds) in Hout.
  assert (forallb (λ item : string * list note, forallb has_strings item.2) ds = true
          ↔ Forall (λ item, Forall (λ p, has_strings p = true) item.2) ds) as Hall.
  { rewrite forallb_Forall. apply Forall_iff. intros item. apply forallb_Forall. }
  destruct (archives_loop st0 ds) as [err0 st] eqn:Hloop. simpl in Hout.
  intros Hres.
  assert (err0 = err ∧ (∀ e, err = Some e → fs' = fs)) as [-> Hfs].
  { destruct err0; injection Hres as <- <- <- <- <-; split; try done. }
  destruct (forallb _ ds) eqn:Hb.
  - lapply Hout.
    + intros ->. split; [by rewrite <-Hall|done].
    + intros st1 [r pubs]. simpl.
      apply (loop_outcome has_strings (λ e, ∃ msg, e = AttributeError msg)).
      intros st2 p. pose proof (archives_step_outcome r st2 p) as Hp.
      destruct (has_strings p); [done|]. destruct Hp as [msg Hp]. eauto.
  - lapply Hout.
    + intros (e & -> & msg & ->). split.
      * split; [done|]. rewrite <-Hall. done.
      * intros e [= <-]. split; [eauto|]. by eapply Hfs.
    + intros st1 [r pubs]. simpl.
      apply (loop_outcome has_strings (λ e, ∃ msg, e = AttributeError msg)).
      intros st2 p. pose proof (archives_step_outcome r st2 p) as Hp.
      destruct (has_strings p); [done|]. destruct Hp as [msg Hp]. eauto.
Qed.



Lemma archives_inner_others r st pubs :
  ∀ k, k ≠ r → dict_get k (st_author_ids_to_note_id (loop (archives_step r) st pubs).2)
               = dict_get k (st_author_ids_to_note_id st).
Proof.
  intros k Hk. apply (loop_invariant
    (λ st', dict_get k (st_author_ids_to_note_id st')
            = dict_get k (st_author_ids_to_note_id st))); [|done].
  intros st1 p Hst1.
  destruct (archives_step_authors r st1 p) as [->| ->]; [done|].
  rewrite dict_get_append. by rewrite decide_False by done.
Qed.




End archives_facts.
(** ** [set_submissions_dataset] and the embedding files *)

Lemma foldl_invariant {A S} (P : S → Prop) (f : S → A → S) s l :
  (∀ s x, P s → P (f s x)) → P s → P (foldl f s l).
Proof.
  intros Hf. revert s. induction l as [|x l IH]; intros s Hs; simpl; auto.
Qed.

Lemma zip_with_ids {A B C} (g : A → C) (l : list A) (rows : list B) :
  length rows = length l →
  (zip_with (λ d row, (g d, row)) l rows).*1 = g <$> l.
Proof.
  revert rows. induction l as [|x l IH]; intros [|row rows]; simpl; try done.
  intros [= Hlen]. by rewrite IH.
Qed.

Section embed_facts.
Context {score : Type} (sep_token : string).
Context (encode : list string → list (list score)).

Abbreviation _batch_predict := (_batch_predict sep_token encode).
Abbreviation embed := (embed sep_token encode).
Abbreviation embed_submissions := (embed_submissions sep_token encode).
Abbreviation embed_publications := (embed_publications sep_token encode).
Abbreviation set_submissions_dataset := (set_submissions_dataset (score := score)).

Implicit Types (fs : files (score := score)) (data : list (string * paper)).

Lemma submissions_fold_ids st (l : list note) :
  (foldl submissions_step st l).2 = st.2 ++ (id <$> l).
Proof using Type.
  revert st. induction l as [|x l IH]; intros [[[titles abstracts] od] ids]; simpl.
  - by rewrite app_nil_r.
  - rewrite IH. simpl. by rewrite <-app_assoc.
Qed.

Lemma submissions_fold_records (l : list note) :
  let st := foldl submissions_step (∅, ∅, [], []) l in
  NoDup st.1.2.*1
  ∧ (∀ sid, sid ∈ st.1.2.*1 ↔ sid ∈ st.2)
  ∧ (∀ sid q, dict_get sid st.1.2 = Some q →
       paper_id q = sid ∧ authors q = []
       ∧ st.1.1.1 !! sid = Some (title q)
       ∧ st.1.1.2 !! sid = Some (abstract q)).
Proof using Type.
  apply (foldl_invariant
    (λ st : gmap string json * gmap string json * list (string * paper) * list string,
       NoDup st.1.2.*1
       ∧ (∀ sid, sid ∈ st.1.2.*1 ↔ sid ∈ st.2)
       ∧ (∀ sid q, dict_get sid st.1.2 = Some q →
            paper_id q = sid ∧ authors q = []
            ∧ st.1.1.1 !! sid = Some (title q)
            ∧ st.1.1.2 !! sid = Some (abstract q)))).
  - intros [[[titles abstracts] od] ids] x (Hnd & Hkeys & Hrec). simpl in *.
    rewrite dict_set_keys. split_and!.
    + by apply NoDup_keys_step.
    + intros sid. rewrite elem_of_app, list_elem_of_singleton, <-Hkeys.
      case_decide as Hin; [|by rewrite elem_of_app, list_elem_of_singleton].
      clear encode. naive_solver.
    + intros sid q. rewrite dict_get_set.
      destruct (decide (id x = sid)) as [<-|Hne].
      * intros [= <-]. simpl. by rewrite !lookup_insert_eq.
      * intros Hq. rewrite !lookup_insert_ne by done. by apply Hrec.
  - simpl. split_and!; [apply NoDup_nil_2|done|done].
Qed.

(** [set_submissions_dataset] lists the id of every submission in the id
    file, in order and as often as it occurs, and writes one record for
    each id to the metadata file: the keys are distinct, they are the ids
    listed, and a record has its own id, no author, and the title and
    abstract that the attributes have for the id. *)
Theorem set_submissions_dataset_files work_dir a fs
    (submissions_dataset : list (string * note)) a' fs' :
  set_submissions_dataset work_dir a fs submissions_dataset = (a', fs') →
  ∃ output_dict,
    paper_data fs' !! submission_paper_data work_dir = Some output_dict
    ∧ paper_ids fs' !! submission_paper_ids work_dir
      = Some (ids_text (id <$> submissions_dataset.*2))
    ∧ NoDup output_dict.*1
    ∧ (∀ sid, sid ∈ output_dict.*1 ↔ sid ∈ id <$> submissions_dataset.*2)
    ∧ (∀ sid q, (sid, q) ∈ output_dict →
         paper_id q = sid ∧ authors q = []
         ∧ sub_note_id_to_title a' !! sid = Some (title q)
         ∧ sub_note_id_to_abstract a' !! sid = Some (abstract q)).
Proof using Type.
  unfold Dataset.set_submissions_dataset.
  pose proof (submissions_fold_ids (∅, ∅, [], []) submissions_dataset.*2) as Hids.
  pose proof (submissions_fold_records submissions_dataset.*2) as (Hnd & Hkeys & Hrec).
  destruct (foldl submissions_step _ _) as [[[titles abstracts] od] ids].
  simpl in *. subst ids. intros [= <- <-]. simpl.
  exists od. rewrite !lookup_insert_eq. split_and!; try done.
  intros sid q Hin. apply Hrec. by apply dict_get_NoDup.
Qed.

(** The lines of a batch carry the ids of its papers, in order, when the
    model returns a row for each text. *)
Lemma batch_predict_ids (batch : list (string * paper)) lines :
  (∀ texts, length (encode texts) = length texts) →
  _batch_predict batch = Ok lines →
  lines.*1 = paper_id <$> batch.*2.
Proof.
  intros Henc. unfold Dataset._batch_predict.
  destruct (mapR _ batch) as [texts|] eqn:Htexts; [|done]. simpl.
  intros [= <-]. apply mapR_Forall2, Forall2_length in Htexts.
  rewrite (zip_with_ids (λ d : string * paper, paper_id d.2)).
  - by rewrite <-list_fmap_compose.
  - by rewrite Henc.
Qed.

Lemma batches_predict_ids (batches : list (list (string * paper))) jsonl :
  (∀ texts, length (encode texts) = length texts) →
  mapR _batch_predict batches = Ok jsonl →
  (concat jsonl).*1 = paper_id <$> (concat batches).*2.
Proof.
  intros Henc. revert jsonl. induction batches as [|batch batches IH]; intros jsonl.
  - by intros [= <-].
  - simpl. destruct (_batch_predict batch) as [lines|] eqn:Hb; [|done]. simpl.
    destruct (mapR _ batches) as [rest|]; [|done]. simpl. intros [= <-].
    simpl. rewrite !fmap_app, (IH rest eq_refl), (batch_predict_ids _ _ Henc Hb).
    done.
Qed.

Lemma embed_Return metadata_file out_path batch_size fs fs' :
  (∀ texts, length (encode texts) = length texts) →
  embed metadata_file out_path batch_size fs = Return fs' →
  ∃ data path lines,
    paper_data fs !! metadata_file = Some data
    ∧ 0 < batch_size
    ∧ out_path = Some path ∧ path ≠ ""
    ∧ fs' = {| paper_data := paper_data fs; paper_ids := paper_ids fs;
               embeddings := <[path := lines]> (embeddings fs) |}
    ∧ lines.*1 = paper_id <$> data.*2.
Proof.
  intros Henc. unfold Dataset.embed.
  destruct (paper_data fs !! metadata_file) as [data|]; [|done].
  case_bool_decide as Hz; [done|].
  unfold _fetch_batches. destruct (batch_size <? 0) eqn:Hneg; [done|].
  apply Z.ltb_ge in Hneg. simpl.
  destruct (mapR _ _) as [jsonl|] eqn:Hpred; [|done]. simpl.
  destruct out_path as [path|]; [|done].
  destruct (decide (path = "")) as [->|Hpath]; [done|].
  assert (Return {| paper_data := paper_data fs; paper_ids := paper_ids fs;
                    embeddings := <[path := concat jsonl]> (embeddings fs) |}
          = Return fs' → ∃ data' path' lines,
              Some data = Some data' ∧ 0 < batch_size
              ∧ Some path = Some path' ∧ path' ≠ ""
              ∧ fs' = {| paper_data := paper_data fs; paper_ids := paper_ids fs;
                         embeddings := <[path' := lines]> (embeddings fs) |}
              ∧ lines.*1 = paper_id <$> data'.*2) as Hgoal.
  { intros [= <-]. exists data, path, (concat jsonl).
    split_and!; try done; [lia|].
    rewrite (batches_predict_ids _ _ Henc Hpred).
    destruct (fetch_loop_spec (length data) (Z.to_nat batch_size) data)
      as (-> & _); [lia|done|done]. }
  by destruct path.
Qed.

(** An embedding file that [embed_submissions] or [embed_publications] has
    written holds one line for each record of the metadata file, in the
    order of the file and under the record's id, provided the model returns
    a row for each text; the batch size was positive then and the path not
    empty, and the metadata and the id files are as they were. *)
Theorem embed_lines work_dir batch_size out_path fs fs' :
  (∀ texts, length (encode texts) = length texts) →
  (embed_submissions work_dir batch_size out_path fs = Return fs' →
   ∃ data path lines,
     paper_data fs !! submission_paper_data work_dir = Some data
     ∧ 0 < batch_size ∧ out_path = Some path ∧ path ≠ ""
     ∧ fs' = {| paper_data := paper_data fs; paper_ids := paper_ids fs;
                embeddings := <[path := lines]> (embeddings fs) |}
     ∧ lines.*1 = paper_id <$> data.*2)
  ∧ (embed_publications work_dir batch_size out_path fs = Return fs' →
     ∃ data path lines,
       paper_data fs !! reviewer_paper_data work_dir = Some data
       ∧ 0 < batch_size ∧ out_path = Some path ∧ path ≠ ""
       ∧ fs' = {| paper_data := paper_data fs; paper_ids := paper_ids fs;
                  embeddings := <[path := lines]> (embeddings fs) |}
       ∧ lines.*1 = paper_id <$> data.*2).
Proof.
  intros Henc. split.
  - by apply embed_Return.
  - unfold Dataset.embed_publications.
    destruct out_path as [[|c path]|]; [done| |done]. by apply embed_Return.
Qed.


(** From the submissions to the embedding file: the file that
    [embed_submissions] writes after [set_submissions_dataset] has one line
    for each id of a submission, each id once. *)
Theorem submissions_embedded work_dir a fs
    (submissions_dataset : list (string * note)) a1 fs1 batch_size out_path fs2 :
  (∀ texts, length (encode texts) = length texts) →
  set_submissions_dataset work_dir a fs submissions_dataset = (a1, fs1) →
  embed_submissions work_dir batch_size out_path fs1 = Return fs2 →
  ∃ path lines,
    out_path = Some path
    ∧ embeddings fs2 !! path = Some lines
    ∧ NoDup lines.*1
    ∧ ∀ sid, sid ∈ lines.*1 ↔ sid ∈ id <$> submissions_dataset.*2.
Proof.
  intros Henc Hset Hembed.
  apply (embed_Return _ _ _ _ _ Henc) in Hembed
    as (data & path & lines & Hdata & _ & -> & _ & -> & Hlines).
  exists path, lines. simpl. rewrite lookup_insert_eq.
  unfold Dataset.set_submissions_dataset in Hset.
  pose proof (submissions_fold_ids (∅, ∅, [], []) submissions_dataset.*2) as Hids.
  pose proof (submissions_fold_records submissions_dataset.*2) as (Hnd & Hkeys & Hrec).
  destruct (foldl submissions_step _ _) as [[[titles abstracts] od] ids].
  simpl in *. subst ids. injection Hset as _ <-. simpl in Hdata.
  rewrite lookup_insert_eq in Hdata. injection Hdata as <-.
  assert (paper_id <$> od.*2 = od.*1) as Hpid.
  { clear -Hnd Hrec. induction od as [|[sid q] od IH]; [done|].
    simpl in *. apply NoDup_cons in Hnd as [Hsid Hnd].
    destruct (Hrec sid q) as [-> _]; [by rewrite decide_True|].
    f_equal. apply IH; [done|].
    intros sid' q' Hq'. apply Hrec. rewrite decide_False; [done|].
    intros <-. apply Hsid. apply dict_get_elem_of in Hq'.
    apply list_elem_of_fmap. eexists (_, q'). split; [|exact Hq']. done. }
  rewrite Hlines, Hpid. by split_and!.
Qed.

End embed_facts.
(** * Further properties of the request and job records *)

(** ** [APIRequest]: validation and [to_json] *)

Section api_round_trip.
Import Utils.
Implicit Types (m request : gmap string json) (v : json).

Lemma map_two m (a b : string) va vb :
  m !! a = Some va → m !! b = Some vb → dom m ⊆ {[ a; b ]} →
  m = <[b := vb]> {[ a := va ]}.
Proof.
  intros Ha Hb Hdom. apply map_eq. intros k.
  destruct (decide (k = b)) as [->|Hkb]; [by rewrite lookup_insert_eq|].
  rewrite lookup_insert_ne by done.
  destruct (decide (k = a)) as [->|Hka]; [by rewrite lookup_singleton_eq|].
  rewrite lookup_singleton_ne by done.
  apply not_elem_of_dom. set_solver.
Qed.

Lemma map_three m (a b c : string) va vb vc :
  m !! a = Some va → m !! b = Some vb → m !! c = Some vc →
  dom m ⊆ {[ a; b; c ]} →
  m = <[c := vc]> (<[b := vb]> {[ a := va ]}).
Proof.
  intros Ha Hb Hc Hdom. apply map_eq. intros k.
  destruct (decide (k = c)) as [->|Hkc]; [by rewrite lookup_insert_eq|].
  rewrite lookup_insert_ne by done.
  destruct (decide (k = b)) as [->|Hkb]; [by rewrite lookup_insert_eq|].
  rewrite lookup_insert_ne by done.
  destruct (decide (k = a)) as [->|Hka]; [by rewrite lookup_singleton_eq|].
  rewrite lookup_singleton_ne by done.
  apply not_elem_of_dom. set_solver.
Qed.

Lemma map_four m (a b c d : string) va vb vc vd :
  m !! a = Some va → m !! b = Some vb → m !! c = Some vc → m !! d = Some vd →
  dom m ⊆ {[ a; b; c; d ]} →
  m = <[d := vd]> (<[c := vc]> (<[b := vb]> {[ a := va ]})).
Proof.
  intros Ha Hb Hc Hd Hdom. apply map_eq. intros k.
  destruct (decide (k = d)) as [->|Hkd]; [by rewrite lookup_insert_eq|].
  rewrite lookup_insert_ne by done.
  destruct (decide (k = c)) as [->|Hkc]; [by rewrite lookup_insert_eq|].
  rewrite lookup_insert_ne by done.
  destruct (decide (k = b)) as [->|Hkb]; [by rewrite lookup_insert_eq|].
  rewrite lookup_insert_ne by done.
  destruct (decide (k = a)) as [->|Hka]; [by rewrite lookup_singleton_eq|].
  rewrite lookup_singleton_ne by done.
  apply not_elem_of_dom. set_solver.
Qed.

Lemma subseteq_drop (X : gset string) (a b c : string) :
  c ∉ X → X ⊆ {[ a; b; c ]} → X ⊆ {[ a; b ]}.
Proof. set_solver. Qed.

Lemma subseteq_drop4 (X : gset string) (a b c d : string) :
  d ∉ X → X ⊆ {[ a; b; c; d ]} → X ⊆ {[ a; b; c ]}.
Proof. set_solver. Qed.

(** A valid entity is loaded as it is. *)
Lemma load_entity_same entity_id m :
  valid_entity (JObj m) = true → _load_entity entity_id (JObj m) = Ok m.
Proof.
  unfold _load_entity, _get_required_field, valid_entity.
  destruct (m !! "type") as [type|] eqn:Htype; [|done]. simpl.
  destruct (json_is_str type "Group"); [|destruct (json_is_str type "Note")].
  - rewrite lookup_delete_ne by done.
    intros [[member_of Hmember] Hdom]%bool_decide_eq_true.
    rewrite Hmember. rewrite !lookup_delete_ne by done.
    destruct (m !! "expertise") as [expertise|] eqn:Hexp; simpl.
    + rewrite bool_decide_eq_false_2.
      * f_equal. symmetry. by apply (map_three m "type" "memberOf" "expertise").
      * intros Hne. apply Hne.
        by rewrite dict_empty_iff, !dom_delete_L, leftover3.
    + apply not_elem_of_dom in Hexp.
      pose proof (subseteq_drop _ _ _ _ Hexp Hdom) as Hdom2.
      rewrite bool_decide_eq_false_2.
      * f_equal. symmetry. by apply (map_two m "type" "memberOf").
      * intros Hne. apply Hne.
        by rewrite dict_empty_iff, !dom_delete_L, leftover2.
  - rewrite !lookup_delete_ne by done.
    intros [[[invitation Hinv] Hdom]|[[id Hid] Hdom]]%bool_decide_eq_true.
    + assert (m !! "id" = None) as Hid.
      { apply not_elem_of_dom. intros Hin. apply Hdom in Hin. set_solver. }
      rewrite Hinv, Hid. simpl.
      rewrite bool_decide_eq_false_2.
      * f_equal. symmetry. by apply (map_two m "type" "invitation").
      * intros Hne. apply Hne.
        by rewrite dict_empty_iff, !dom_delete_L, leftover2.
    + assert (m !! "invitation" = None) as Hinv.
      { apply not_elem_of_dom. intros Hin. apply Hdom in Hin. set_solver. }
      rewrite Hinv, Hid. simpl.
      rewrite bool_decide_eq_false_2.
      * f_equal. symmetry. by apply (map_two m "type" "id").
      * intros Hne. apply Hne.
        by rewrite dict_empty_iff, !dom_delete_L, leftover2.
  - done.
Qed.

Local Arguments _load_entity : simpl never.

Lemma subseteq_swap3 (X : gset string) (a b c : string) :
  X ⊆ {[ c; b; a ]} → X ⊆ {[ a; b; c ]}.
Proof. set_solver. Qed.

(** [to_json] gives a valid request back: [APIRequest] accepts it, and what
    [to_json] returns for the object is the request itself, without its
    [model] if that was empty (the [model] of a request being an object). *)
Theorem APIRequest_round_trip request :
  valid_request request = true →
  (∀ v, request !! "model" = Some v → ∃ model, v = JObj model) →
  ∃ self, APIRequest_init request = Ok self
          ∧ APIRequest_to_json self = Ok (without_empty_model request).
Proof.
  intros Hvalid Hmodel. unfold valid_request in Hvalid.
  apply andb_true_iff in Hvalid as [Hvalid Hdom%bool_decide_eq_true].
  apply andb_true_iff in Hvalid as [Hvalid Hb].
  apply andb_true_iff in Hvalid as [[name Hname]%bool_decide_eq_true Ha].
  destruct (request !! "entityA") as [entity_a|] eqn:Hea; [|done].
  destruct (request !! "entityB") as [entity_b|] eqn:Heb; [|done].
  simpl in Ha, Hb.
  destruct entity_a as [| | | | |ma]; try done.
  destruct entity_b as [| | | | |mb]; try done.
  unfold APIRequest_init, _get_required_field.
  rewrite Hname. simpl. rewrite lookup_delete_ne, Hea by done. simpl.
  rewrite !lookup_delete_ne, Heb by done. simpl.
  rewrite (load_entity_same "entityA" ma Ha), (load_entity_same "entityB" mb Hb).
  simpl. rewrite !lookup_delete_ne by done.
  rewrite bool_decide_eq_false_2.
  2:{ intros Hne. apply Hne.
      by rewrite dict_empty_iff, !dom_delete_L, leftover4. }
  eexists. split; [done|].
  unfold APIRequest_to_json, without_empty_model. simpl.
  destruct (request !! "model") as [v|] eqn:Hm; simpl.
  - destruct (Hmodel v eq_refl) as [model ->].
    destruct (decide (model = ∅)) as [->|Hne].
    + rewrite bool_decide_eq_false_2 by (intros Hne; by apply Hne).
      rewrite bool_decide_eq_true_2 by done. f_equal. symmetry.
      apply (map_three _ "entityB" "entityA" "name");
        rewrite ?lookup_delete_ne by done; try done.
      rewrite dom_delete_L. apply subseteq_swap3.
      intros k [Hk Hkm]%elem_of_difference. apply Hdom in Hk.
      rewrite not_elem_of_singleton in Hkm. set_solver.
    + rewrite bool_decide_eq_true_2 by done.
      rewrite bool_decide_eq_false_2 by done. f_equal. symmetry.
      apply (map_four _ "entityB" "entityA" "name" "model"); try done.
  - rewrite bool_decide_eq_false_2 by (intros Hne; by apply Hne).
    f_equal. symmetry.
    apply (map_three _ "entityB" "entityA" "name"); try done.
    apply subseteq_swap3. apply not_elem_of_dom in Hm.
    by apply (subseteq_drop4 _ _ _ _ "model").
Qed.

End api_round_trip.

Lemma APIRequest_round_trip_witness :
  ∃ self, Utils.APIRequest_init Data.api_request = Ok self
          ∧ Utils.APIRequest_to_json self
            = Ok (Utils.without_empty_model Data.api_request).
Proof.
  apply (APIRequest_round_trip Data.api_request); [by vm_compute|].
  intros v Hv. by vm_compute in Hv.
Defined.

(** ** [JobConfig]: [to_json] and [from_json] *)

Section config_json.
Import Utils Utils.Config.

(** The body that the loop of [to_json] builds from a list of items with
    distinct keys. *)
Lemma to_json_fold_lookup (items : list (string * json)) (body : gmap string json) k :
  NoDup items.*1 →
  foldl (λ body kv,
           if negb (is_None kv.2) || bool_decide (kv.1 = "token")
           then <[kv.1 := kv.2]> body else body) body items !! k
  = match dict_get k items with
    | Some v =>
        if negb (is_None v) || bool_decide (k = "token") then Some v else body !! k
    | None => body !! k
    end.
Proof.
  revert body. induction items as [|[k' v] items IH]; intros body Hnd; [done|].
  apply NoDup_cons in Hnd as [Hk' Hnd]. simpl. rewrite IH by done.
  destruct (decide (k' = k)) as [->|Hne].
  - assert (dict_get k items = None) as -> by by apply dict_get_None.
    destruct (negb (is_None v) || bool_decide (k = "token")); [|done].
    by rewrite lookup_insert_eq.
  - destruct (dict_get k items) as [v'|]; [destruct (_ || _); [done|]|];
      (destruct (negb (is_None v) || bool_decide (k' = "token"));
       [by rewrite lookup_insert_ne|done]).
Qed.

Lemma pre_body_keys self : (pre_body self).*1 = json_fields.
Proof. done. Qed.

Lemma json_fields_NoDup : NoDup json_fields.
Proof. by_evaluation. Qed.

Lemma to_json_lookup self k :
  to_json self !! k
  = match dict_get k (pre_body self) with
    | Some v => if is_None v then None else Some v
    | None => None
    end.
Proof.
  unfold to_json. rewrite to_json_fold_lookup
    by (rewrite pre_body_keys; apply json_fields_NoDup).
  rewrite lookup_empty.
  destruct (dict_get k (pre_body self)) as [v|] eqn:Hget; [|done].
  assert (k ≠ "token") as Hk.
  { intros ->. apply dict_get_elem_of in Hget.
    apply (list_elem_of_fmap_2 fst) in Hget. rewrite pre_body_keys in Hget.
    revert Hget. by_evaluation. }
  rewrite bool_decide_eq_false_2 by done. rewrite orb_false_r.
  by destruct (is_None v).
Qed.

(** [to_json] leaves out [status], [description] and the request: reading
    a config back with [from_json] gives the config without them, every
    other attribute as it was.  And a JSON object that goes through
    [from_json] and [to_json] keeps exactly its fields among the sixteen that
    [to_json] writes whose value is not [null]. *)
Theorem JobConfig_json_round_trip :
  (∀ self,
     from_json (to_json self)
     = {| name := name self; user_id := user_id self; job_id := job_id self;
          baseurl := baseurl self; baseurl_v2 := baseurl_v2 self;
          job_dir := job_dir self; cdate := cdate self; mdate := mdate self;
          status := JNull; description := JNull;
          match_group := match_group self;
          alternate_match_group := alternate_match_group self;
          dataset := dataset self; model := model self;
          exclusion_inv := exclusion_inv self;
          paper_invitation := paper_invitation self; paper_id := paper_id self;
          model_params := model_params self; api_request := None |})
  ∧ (∀ job_config k v,
       to_json (from_json job_config) !! k = Some v
       ↔ job_config !! k = Some v ∧ k ∈ json_fields ∧ v ≠ JNull).
Proof.
  split.
  - intros self. unfold from_json. rewrite !to_json_lookup. simpl.
    destruct self as [f1 f2 f3 f4 f5 f6 f7 f8 f9 f10 f11 f12 f13 f14 f15 f16 f17 f18 f19].
    simpl. f_equal;
      match goal with |- default _ (if is_None ?f then _ else _) = _ => by destruct f end.
  - intros job_config k v. rewrite to_json_lookup.
    unfold pre_body, from_json, json_fields. simpl.
    repeat (case_decide;
      [subst k;
       destruct (job_config !! _) as [[]|] eqn:Hj; simpl;
       (split;
        [intros [= <-]; (split; [done|]); (split; [|done]);
         by_evaluation
        |intros ([= <-] & _ & Hv); done || by destruct Hv])
      |]).
    split; [done|]. intros (_ & Hin & _). exfalso.
    repeat (apply elem_of_cons in Hin as [->|Hin]; [done|]).
    by apply elem_of_nil in Hin.
Qed.

End config_json.

(** ** [_camel_to_snake] *)

Section camel_facts.
Import Utils.

Lemma ascii_lower_not_upper c : is_upper (ascii_lower c) = false.
Proof. destruct c as [[] [] [] [] [] [] [] []]; by vm_compute. Qed.

Lemma ascii_lower_same c : is_upper c = false → ascii_lower c = c.
Proof. destruct c as [[] [] [] [] [] [] [] []]; by vm_compute. Qed.

Lemma lower_no_upper s : no_upper (lower s) = true.
Proof.
  induction s as [|c s IH]; simpl; [done|].
  by rewrite ascii_lower_not_upper, IH.
Qed.

Lemma lower_same s : no_upper s = true → lower s = s.
Proof.
  induction s as [|c s IH]; simpl; [done|].
  intros [Hc Hs]%andb_true_iff. apply negb_true_iff in Hc.
  by rewrite ascii_lower_same, IH.
Qed.

Lemma sub_word_same in_match s : no_upper s = true → sub_word in_match s = s.
Proof.
  revert in_match. induction s as [|c s IH]; intros in_match; simpl; [done|].
  intros [Hc Hs]%andb_true_iff.
  destruct (in_match && is_lower c); [by rewrite IH|].
  destruct s as [|u s'']; [done|].
  simpl in Hs. apply andb_true_iff in Hs as [Hu%negb_true_iff Hs''].
  assert (no_upper (String u s'') = true) as Hs
    by (simpl; by rewrite Hu, Hs'').
  destruct s'' as [|l s3]; [by rewrite (IH false Hs)|].
  rewrite Hu. destruct (negb (is_newline c)), (is_lower l); cbn [andb];
    by rewrite (IH false Hs).
Qed.

Lemma sub_hump_same s : no_upper s = true → sub_hump s = s.
Proof.
  induction s as [|c s IH]; simpl; [done|].
  intros [Hc Hs]%andb_true_iff.
  destruct s as [|u s'']; [done|].
  pose proof Hs as Hs'. simpl in Hs'.
  apply andb_true_iff in Hs' as [Hu%negb_true_iff _].
  rewrite Hu, andb_false_r. by rewrite (IH Hs).
Qed.

(** [_camel_to_snake] returns a text without upper-case letters, leaves a
    text without upper-case letters as it is (so that it is idempotent), and
    takes the camel-case parameters of a request to the snake-case names of
    the model parameters. *)
Theorem camel_to_snake_spec :
  (∀ s, no_upper (_camel_to_snake s) = true)
  ∧ (∀ s, no_upper s = true → _camel_to_snake s = s)
  ∧ (∀ s, _camel_to_snake (_camel_to_snake s) = _camel_to_snake s)
  ∧ _camel_to_snake <$> ["name"; "sparseValue"; "useTitle"; "useAbstract"; "skipSpecter"]
    = ["name"; "sparse_value"; "use_title"; "use_abstract"; "skip_specter"].
Proof.
  assert (∀ s, no_upper s = true → _camel_to_snake s = s) as Hsame.
  { intros s Hs. unfold _camel_to_snake.
    by rewrite sub_word_same, sub_hump_same, lower_same. }
  split_and!; [|done| |done].
  - intros s. apply lower_no_upper.
  - intros s. apply Hsame, lower_no_upper.
Qed.

End camel_facts.
(** ** [JobConfig.from_request] *)

Section from_request_facts.
Import Utils Utils.Config.

Implicit Types (api_request : APIRequest) (m api_model params : gmap string json).
Implicit Types (starting_config server_config : gmap string json).

Local Arguments load_entities : simpl never.
Local Arguments load_model_params : simpl never.
Local Arguments path_join : simpl never.
Local Arguments foldl : simpl never.

(** What a call that returns a config has done. *)
Lemma from_request_Ok_inv api_request starting_config openreview_client
    server_config working_dir job_id now config starting_config' :
  from_request api_request starting_config openreview_client server_config
    working_dir job_id now = (Ok config, starting_config') →
  ∃ uid baseurl baseurl_v2 w dataset mg amg pinv pid excl mp,
    get_user_id openreview_client = Ok uid
    ∧ server_config !! "OPENREVIEW_BASEURL" = Some baseurl
    ∧ server_config !! "OPENREVIEW_BASEURL_V2" = Some baseurl_v2
    ∧ working_dir = Some w
    ∧ ((starting_config !! "dataset" = None
        ∧ dataset = ({[ "directory" := JStr (path_join w job_id) ]} : gmap string json)
        ∧ starting_config' = starting_config)
       ∨ (∃ d, starting_config !! "dataset" = Some (JObj d)
               ∧ dataset = <["directory" := JStr (path_join w job_id)]> d
               ∧ starting_config' = <["dataset" := JObj dataset]> starting_config))
    ∧ load_entities api_request starting_config' = Ok (mg, amg, pinv, pid, excl)
    ∧ load_model_params api_request starting_config' server_config
        (default JNull (starting_config' !! "model")) (path_join w job_id) = Ok mp
    ∧ config
      = {| name := api_name api_request; user_id := uid; job_id := JStr job_id;
           baseurl := baseurl; baseurl_v2 := baseurl_v2;
           job_dir := JStr (path_join w job_id);
           cdate := JNum now; mdate := JNum now;
           status := JStr "Initialized";
           description := JStr "Server received config and allocated space";
           match_group := mg; alternate_match_group := amg;
           dataset := JObj dataset;
           model := default JNull (starting_config' !! "model");
           exclusion_inv := excl; paper_invitation := pinv; paper_id := pid;
           model_params := JObj mp; api_request := Some api_request |}.
Proof.
  unfold from_request, subscript.
  destruct (get_user_id openreview_client) as [uid|]; simpl; [|done].
  destruct (server_config !! "OPENREVIEW_BASEURL") as [baseurl|]; simpl; [|done].
  destruct (server_config !! "OPENREVIEW_BASEURL_V2") as [baseurl_v2|]; simpl; [|done].
  destruct working_dir as [w|]; simpl; [|done].
  destruct (starting_config !! "dataset") as [[| | | | |d]|] eqn:Hd; simpl; try done.
  - destruct (load_entities _ _) as [[[[[mg amg] pinv] pid] excl]|] eqn:Hent;
      simpl; [|done].
    destruct (load_model_params _ _ _ _ _) as [mp|] eqn:Hmp; simpl; [|done].
    intros [= <- <-]. eexists uid, baseurl, baseurl_v2, w, _, mg, amg, pinv, pid, excl, mp.
    split_and!; try done. right. by exists d.
  - destruct (load_entities _ _) as [[[[[mg amg] pinv] pid] excl]|] eqn:Hent;
      simpl; [|done].
    destruct (load_model_params _ _ _ _ _) as [mp|] eqn:Hmp; simpl; [|done].
    intros [= <- <-]. eexists uid, baseurl, baseurl_v2, w, _, mg, amg, pinv, pid, excl, mp.
    split_and!; try done. by left.
Qed.

(** *** The model parameters *)

Lemma allowed_snake param :
  param ∈ allowed_model_params → param ≠ "scoreComputation" →
  _camel_to_snake param ∈ ["name"; "sparse_value"; "use_title"; "use_abstract";
                           "skip_specter"].
Proof.
  unfold allowed_model_params. intros Hin Hne.
  repeat (apply elem_of_cons in Hin as [->|Hin]; [try done; by_evaluation|]).
  by apply elem_of_nil in Hin.
Qed.

Lemma one_score_flag_insert params k v :
  k ≠ "average_score" → k ≠ "max_score" →
  one_score_flag params → one_score_flag (<[k := v]> params).
Proof.
  intros ?? (a & mx & ? & ? & ?). exists a, mx.
  by rewrite !lookup_insert_ne by done.
Qed.

Lemma model_param_step_Ok api_model params param params' :
  model_param_step api_model params param = Ok params' →
  param ∈ allowed_model_params
  ∧ (param = "scoreComputation" → one_score_flag params')
  ∧ (one_score_flag params → one_score_flag params')
  ∧ (param ≠ "scoreComputation" →
     params' = <[_camel_to_snake param := default JNull (api_model !! param)]> params).
Proof.
  unfold model_param_step.
  case_bool_decide as Hsc.
  - subst param.
    destruct (json_is_str _ "max") eqn:Hmax; [|destruct (json_is_str _ "avg") eqn:Havg];
      [| |done]; intros [= <-];
      (split_and!; [by_evaluation| | |done]); intros _; eexists _, _;
      by rewrite lookup_insert_eq, lookup_insert_ne, lookup_insert_eq by done.
  - case_bool_decide as Hallowed; [done|].
    assert (param ∈ allowed_model_params) as Hin.
    { by destruct (decide (param ∈ allowed_model_params)). }
    unfold subscript. destruct (api_model !! param) as [value|]; [|done].
    simpl. intros [= <-]. split_and!; try done.
    intros Hflag. pose proof (allowed_snake param Hin Hsc) as Hsnake.
    apply one_score_flag_insert; [| |done]; intros Heq; rewrite Heq in Hsnake;
      revert Hsnake; by_evaluation.
Qed.

Lemma model_params_fold api_model params l params' :
  foldR (model_param_step api_model) params l = Ok params' →
  Forall (λ param, param ∈ allowed_model_params) l
  ∧ ("scoreComputation" ∈ l → one_score_flag params')
  ∧ (one_score_flag params → one_score_flag params').
Proof.
  revert params. induction l as [|param l IH]; intros params; simpl.
  - intros [= <-]. split_and!; [done| |done]. by intros ?%elem_of_nil.
  - destruct (model_param_step api_model params param) as [params1|] eqn:Hstep;
      [|done]. simpl. intros Hrest.
    destruct (model_param_step_Ok _ _ _ _ Hstep) as (Hin & Hsc & Hkeep & _).
    destruct (IH _ Hrest) as (Hall & Hsc' & Hkeep').
    split_and!; [by constructor| |by auto].
    intros [<-|Hl]%elem_of_cons; auto.
Qed.

Lemma path_fields_fold params (root_dir : string) :
  (∀ field, field ∈ path_fields →
     foldl (λ params field, <[field := JStr root_dir]> params) params path_fields
     !! field = Some (JStr root_dir))
  ∧ (one_score_flag params →
     one_score_flag
       (foldl (λ params field, <[field := JStr root_dir]> params) params path_fields)).
Proof.
  unfold path_fields. cbv [foldl]. split.
  - intros field Hin.
    repeat (apply elem_of_cons in Hin as [->|Hin];
            [repeat (rewrite lookup_insert_ne by done); by rewrite lookup_insert_eq|]).
    by apply elem_of_nil in Hin.
  - intros Hflag. by repeat (apply one_score_flag_insert; [done|done|]).
Qed.

(** What [load_model_params] returns. *)
Lemma load_model_params_Ok api_request starting_config server_config model
    root_dir mp :
  load_model_params api_request starting_config server_config model root_dir = Ok mp →
  (∀ field, field ∈ path_fields → mp !! field = Some (JStr root_dir))
  ∧ ∀ m, api_model api_request = JObj m →
      dom m ⊆ list_to_set allowed_model_params
      ∧ (is_Some (m !! "scoreComputation") → one_score_flag mp).
Proof.
  unfold load_model_params.
  destruct (default (JObj ∅) (starting_config !! "model_params"))
    as [| | | | |model_params]; simpl; try done.
  set (params0 := <["use_cuda" := _]> _).
  destruct (if truthy (Utils.api_model api_request) then _ else _)
    as [params1|] eqn:Hloop; simpl; [|done].
  set (params2 := foldl (λ params field, <[field := JStr root_dir]> params)
                    params1 path_fields).
  destruct (path_fields_fold params1 root_dir) as [Hpaths Hflag2].
  fold params2 in Hpaths, Hflag2.
  intros Hrest.
  assert (∃ params3 params4,
            mp = params4
            ∧ (params3 = params2 ∨ ∃ v, params3 = <["specter_dir" := v]> params2)
            ∧ (params4 = params3
               ∨ ∃ v v', params4 = <["mfr_checkpoint_dir" := v']>
                                     (<["mfr_feature_vocab_file" := v]> params3)))
    as (params3 & params4 & -> & H3 & H4).
  { unfold subscript in Hrest.
    destruct (json_contains "specter" model) as [[]|]; simpl in Hrest; [| |done].
    - destruct (server_config !! "SPECTER_DIR") as [sd|]; simpl in Hrest; [|done].
      destruct (json_contains "mfr" model) as [[]|]; simpl in Hrest; [| |done].
      + destruct (server_config !! "MFR_VOCAB_DIR") as [vd|]; simpl in Hrest; [|done].
        destruct (server_config !! "MFR_CHECKPOINT_DIR") as [cd|]; simpl in Hrest;
          [|done].
        injection Hrest as <-. eexists _, _. split_and!; [done|right; eauto|right; eauto].
      + injection Hrest as <-. eexists _, _. split_and!; [done|right; eauto|by left].
    - destruct (json_contains "mfr" model) as [[]|]; simpl in Hrest; [| |done].
      + destruct (server_config !! "MFR_VOCAB_DIR") as [vd|]; simpl in Hrest; [|done].
        destruct (server_config !! "MFR_CHECKPOINT_DIR") as [cd|]; simpl in Hrest;
          [|done].
        injection Hrest as <-. eexists _, _. split_and!; [done|by left|right; eauto].
      + injection Hrest as <-. eexists _, _. split_and!; [done|by left|by left]. }
  assert (∀ Q : gmap string json → Prop,
            (∀ p k v, k ∈ ["specter_dir"; "mfr_feature_vocab_file"; "mfr_checkpoint_dir"] →
                      Q p → Q (<[k := v]> p)) →
            Q params2 → Q params4) as Hlater.
  { intros Q HQ H2.
    assert (Q params3) as H3'.
    { destruct H3 as [->|[v ->]]; [done|]. apply HQ; [by_evaluation|done]. }
    destruct H4 as [->|(v & v' & ->)]; [done|].
    apply HQ; [by_evaluation|]. apply HQ; [by_evaluation|done]. }
  split.
  - intros field Hin.
    apply (Hlater (λ p, p !! field = Some (JStr root_dir))); [|by apply Hpaths].
    intros p k v Hk Hp. rewrite lookup_insert_ne; [done|].
    intros <-. revert Hin Hk. unfold path_fields.
    intros Hin Hk.
    repeat (apply elem_of_cons in Hk as [->|Hk];
            [revert Hin; by_evaluation|]).
    by apply elem_of_nil in Hk.
  - intros m Hm. rewrite Hm in Hloop. simpl in Hloop.
    case_bool_decide as Hempty.
    + destruct (model_params_fold _ _ _ _ Hloop) as (Hall & Hsc & _).
      split.
      * intros k Hk.
        change (k ∈ (list_to_set allowed_model_params : gset string)).
        rewrite elem_of_list_to_set.
        apply elem_of_dom in Hk as [v Hk].
        eapply Forall_forall in Hall; [exact Hall|].
        apply list_elem_of_fmap. exists (k, v). split; [done|].
        by apply elem_of_map_to_list.
      * intros [v Hv].
        apply (Hlater one_score_flag).
        -- intros p k v' Hk. apply one_score_flag_insert;
             intros ->; revert Hk; by_evaluation.
        -- apply Hflag2, Hsc.
           apply list_elem_of_fmap. exists ("scoreComputation", v).
           split; [done|]. by apply elem_of_map_to_list.
    + assert (m = ∅) as -> by by destruct (decide (m = ∅)).
      split; [by rewrite dom_empty_L|]. rewrite lookup_empty. by intros [? ?].
Qed.

(** A config that [from_request] returns has the model parameters of the
    request among the allowed ones only, and when the request chooses the
    score computation the flags [max_score] and [average_score] are
    booleans of which exactly one is set, as the constructor of
    [Specter2Predictor] asserts. *)
Theorem from_request_model_params api_request starting_config openreview_client
    server_config working_dir job_id now config starting_config' m :
  from_request api_request starting_config openreview_client server_config
    working_dir job_id now = (Ok config, starting_config') →
  api_model api_request = JObj m →
  dom m ⊆ list_to_set allowed_model_params
  ∧ (is_Some (m !! "scoreComputation") →
     ∃ mp average max,
       model_params config = JObj mp
       ∧ mp !! "average_score" = Some (JBool average)
       ∧ mp !! "max_score" = Some (JBool max)
       ∧ ∀ sparse_value,
           is_ok (Specter.__init__ (score := Z) average max sparse_value) = true).
Proof.
  intros Hreq Hm.
  destruct (from_request_Ok_inv _ _ _ _ _ _ _ _ _ Hreq)
    as (uid & baseurl & baseurl_v2 & w & dataset & mg & amg & pinv & pid & excl & mp
        & _ & _ & _ & _ & _ & _ & Hmp & ->).
  destruct (load_model_params_Ok _ _ _ _ _ _ Hmp) as [_ Hmodel].
  destruct (Hmodel m Hm) as [Hdom Hflag]. split; [done|].
  intros Hsc. destruct (Hflag Hsc) as (average & max & Ha & Hmax & Hxor).
  exists mp, average, max. split_and!; try done.
  intros sparse_value. unfold Specter.__init__. by rewrite Hxor.
Qed.

(** The server-side fields of a config that [from_request] returns: the job
    directory is the working directory joined with the job id, and the
    directory of the dataset and the four path parameters of the model are
    that directory; the config is in the state Initialized, created and
    modified at the same time. *)
Lemma from_request_server_fields api_request starting_config openreview_client
    server_config working_dir job_id now config starting_config' :
  from_request api_request starting_config openreview_client server_config
    working_dir job_id now = (Ok config, starting_config') →
  ∃ w d mp,
    working_dir = Some w
    ∧ Config.job_id config = JStr job_id
    ∧ job_dir config = JStr (path_join w job_id)
    ∧ dataset config = JObj d
    ∧ d !! "directory" = Some (JStr (path_join w job_id))
    ∧ model_params config = JObj mp
    ∧ (∀ field, field ∈ path_fields → mp !! field = Some (JStr (path_join w job_id)))
    ∧ status config = JStr "Initialized"
    ∧ cdate config = JNum now ∧ mdate config = JNum now.
Proof.
  intros Hreq.
  destruct (from_request_Ok_inv _ _ _ _ _ _ _ _ _ Hreq)
    as (uid & baseurl & baseurl_v2 & w & dataset & mg & amg & pinv & pid & excl & mp
        & _ & _ & _ & -> & Hd & _ & Hmp & ->).
  destruct (load_model_params_Ok _ _ _ _ _ _ Hmp) as [Hpaths _].
  exists w, dataset, mp. simpl. split_and!; try done.
  destruct Hd as [(_ & -> & _)|(d & _ & -> & _)].
  - by rewrite lookup_singleton_eq.
  - by rewrite lookup_insert_eq.
Qed.

(** *** The entities *)

Local Arguments _load_entity : simpl never.

Lemma load_entity_Ok entity_id v target :
  _load_entity entity_id v = Ok target →
  ∃ type, target !! "type" = Some type
          ∧ (json_is_str type "Note" = true → target !! "expertise" = None).
Proof.
  unfold _load_entity, _get_required_field.
  destruct v as [| | | | |m]; try done.
  destruct (m !! "type") as [type|]; simpl; [|done].
  destruct (json_is_str type "Group") eqn:Hgroup;
    [|destruct (json_is_str type "Note") eqn:Hnote].
  - assert (json_is_str type "Note" = false) as Hnote.
    { destruct type; try done. simpl in *.
      apply bool_decide_eq_true in Hgroup as ->. done. }
    destruct (delete "type" m !! "memberOf") as [member_of|]; simpl; [|done].
    destruct (delete "memberOf" (delete "type" m) !! "expertise"); simpl;
      case_bool_decide; try done; intros [= <-]; exists type;
      (split; [by rewrite ?lookup_insert_ne, lookup_singleton_eq by done|]);
      by rewrite Hnote.
  - destruct (delete "type" m !! "invitation"), (delete "type" m !! "id"); simpl;
      try done; case_bool_decide; try done; intros [= <-]; exists type;
      (split; [by rewrite ?lookup_insert_ne, lookup_singleton_eq by done|]);
      intros _; by rewrite lookup_insert_ne, lookup_singleton_ne by done.
  - done.
Qed.

Lemma APIRequest_init_Ok request self :
  APIRequest_init request = Ok self →
  ∃ entity_a entity_b,
    _load_entity "entityA" entity_a = Ok (api_entityA self)
    ∧ _load_entity "entityB" entity_b = Ok (api_entityB self).
Proof.
  unfold APIRequest_init.
  destruct (_get_required_field request "request" "name") as [[name r1]|]; simpl; [|done].
  destruct (_get_required_field r1 "request" "entityA") as [[ea r2]|]; simpl; [|done].
  destruct (_get_required_field r2 "request" "entityB") as [[eb r3]|]; simpl; [|done].
  destruct (_load_entity "entityA" ea) as [ta|] eqn:Ha; simpl; [|done].
  destruct (_load_entity "entityB" eb) as [tb|] eqn:Hb; simpl; [|done].
  case_bool_decide; [done|]. intros [= <-]. simpl. eauto.
Qed.

Lemma note_fields_no_expertise entity pinv pid excl :
  entity !! "expertise" = None →
  note_fields entity = Ok (pinv, pid, excl) → excl = JNull.
Proof.
  unfold note_fields. intros ->. simpl. by intros [= _ _ <-].
Qed.

(** The [expertise] of an entity never reaches the config: a request that
    [APIRequest] has accepted gives a config whose [exclusion_inv] is
    [None], since a Note entity with an [expertise] field is not accepted
    and that of a Group entity is not read. *)
Theorem from_request_exclusion_unset request api_request starting_config
    openreview_client server_config working_dir job_id now config starting_config' :
  APIRequest_init request = Ok api_request →
  from_request api_request starting_config openreview_client server_config
    working_dir job_id now = (Ok config, starting_config') →
  exclusion_inv config = JNull.
Proof.
  intros Hinit Hreq.
  destruct (from_request_Ok_inv _ _ _ _ _ _ _ _ _ Hreq)
    as (uid & baseurl & baseurl_v2 & w & dataset & mg & amg & pinv & pid & excl & mp
        & _ & _ & _ & _ & _ & Hent & _ & ->).
  simpl.
  destruct (APIRequest_init_Ok _ _ Hinit) as (ea & eb & Ha & Hb).
  destruct (load_entity_Ok _ _ _ Ha) as (type_a & Hta & Hna).
  destruct (load_entity_Ok _ _ _ Hb) as (type_b & Htb & Hnb).
  unfold load_entities, subscript in Hent. rewrite Hta, Htb in Hent.
  simpl in Hent.
  destruct (if json_is_str type_a "Group" then _ else _) as [mg'|]; simpl in Hent;
    [|done].
  destruct (if json_is_str type_b "Group" then _ else _) as [amg'|]; simpl in Hent;
    [|done].
  destruct (json_is_str type_a "Note") eqn:HA.
  - destruct (note_fields (api_entityA api_request)) as [[[pinv' pid'] excl']|] eqn:Hn;
      simpl in Hent; [|done].
    apply (note_fields_no_expertise _ _ _ _ (Hna eq_refl)) in Hn as ->.
    destruct (negb _ && _); [done|]. by injection Hent as _ _ _ _ <-.
  - destruct (json_is_str type_b "Note") eqn:HB.
    + destruct (note_fields (api_entityB api_request)) as [[[pinv' pid'] excl']|] eqn:Hn;
        simpl in Hent; [|done].
      apply (note_fields_no_expertise _ _ _ _ (Hnb eq_refl)) in Hn as ->.
      destruct (negb _ && _); [done|]. by injection Hent as _ _ _ _ <-.
    + simpl in Hent. destruct (negb _ && _); [done|]. by injection Hent as _ _ _ _ <-.
Qed.

Local Arguments truthy : simpl never.

(** A request for the papers of an invitation in [entityA] against a group
    in [entityB] is refused, whatever else it holds (the other order is the
    one that is served); the directory of this job has by then been written
    into the [dataset] object of the starting config, and stays there. *)
Theorem from_request_paper_and_group api_request starting_config openreview_client
    server_config job_id now uid baseurl baseurl_v2 w d inv member :
  get_user_id openreview_client = Ok uid →
  server_config !! "OPENREVIEW_BASEURL" = Some baseurl →
  server_config !! "OPENREVIEW_BASEURL_V2" = Some baseurl_v2 →
  starting_config !! "dataset" = Some (JObj d) →
  api_entityA api_request !! "type" = Some (JStr "Note") →
  api_entityA api_request !! "invitation" = Some inv → truthy inv = true →
  api_entityA api_request !! "expertise" = None →
  api_entityB api_request !! "type" = Some (JStr "Group") →
  api_entityB api_request !! "memberOf" = Some member →
  from_request api_request starting_config openreview_client server_config
    (Some w) job_id now
  = (Raise (OpenReviewException
       "Bad request: Cannot provide paper id/invitation and alternate match group"),
     <["dataset" := JObj (<["directory" := JStr (path_join w job_id)]> d)]>
       starting_config).
Proof.
  intros Huid Hb1 Hb2 Hd Hta Hinv Htruthy Hexp Htb Hmember.
  unfold from_request, subscript. rewrite Huid, Hb1, Hb2, Hd. simpl.
  unfold load_entities, subscript. rewrite Hta, Htb, Hmember. simpl.
  unfold note_fields. rewrite Hinv, Hexp. simpl. rewrite Htruthy. simpl.
  assert (is_None inv = false) as ->
    by (destruct inv; [by vm_compute in Htruthy|done..]).
  by rewrite orb_true_r.
Qed.

End from_request_facts.
(** * Further properties of the job records and of the service *)

(** ** [JobConfig.load_all_jobs] *)

Section load_all_jobs_facts.
Import Utils.
Implicit Types (st : store) (config : JobConfig) (user_id : string).

Lemma load_all_jobs_loop_purges user_id keys st :
  NoDup keys →
  (∀ k, k ∈ keys →
     ∃ config, db st !! k = Some config ∧ k = job_key (job_id config)
               ∧ (job_dir config ∉ dirs st → may_modify user_id config)) →
  ∃ configs st',
    load_all_jobs_loop user_id keys st = (Ok configs, st')
    ∧ dirs st' = dirs st
    ∧ (∀ k, db st' !! k
            = config ← db st !! k;
              if bool_decide (k ∈ keys ∧ job_dir config ∉ dirs st) then None
              else Some config)
    ∧ (∀ config, config ∈ configs ↔
         ∃ k, k ∈ keys ∧ db st !! k = Some config ∧ job_dir config ∈ dirs st
              ∧ may_modify user_id config).
Proof.
  revert st. induction keys as [|k keys IH]; intros st Hnd Hkeys.
  { exists [], st. split_and!; try done.
    - intros k. by destruct (db st !! k) as [config|].
    - intros config. split; [by intros ?%elem_of_nil|].
      by intros (k & ?%elem_of_nil & _). }
  apply NoDup_cons in Hnd as [Hk Hnd].
  destruct (Hkeys k) as (config & Hdb & Hkey & Hmay); [by left|].
  simpl. rewrite Hdb. case_bool_decide as Hstale.
  - unfold remove_job. rewrite <- Hkey, Hdb.
    assert (bool_decide (Utils.user_id config ≠ user_id)
            && bool_decide (user_id ∉ SUPERUSER_IDS) = false) as ->.
    { destruct (Hmay Hstale) as [Hown|Hsu].
      - by rewrite (bool_decide_eq_false_2 (_ ≠ _)) by (by intros ?).
      - rewrite (bool_decide_eq_false_2 (_ ∉ _)) by (by intros ?).
        by rewrite andb_false_r. }
    destruct (IH {| db := delete k (db st); dirs := dirs st |} Hnd)
      as (configs & st' & Hrun & Hdirs & Hdb' & Hconfigs).
    { intros k' Hk'. destruct (Hkeys k') as (config' & ? & ? & ?); [by right|].
      exists config'. simpl. rewrite lookup_delete_ne by (by intros ->). done. }
    exists configs, st'. split; [done|]. split; [done|]. split.
    + intros k'. rewrite Hdb'. simpl.
      destruct (decide (k' = k)) as [->|Hne].
      * rewrite lookup_delete_eq, Hdb. simpl.
        rewrite bool_decide_eq_true_2; [done|]. split; [by left|done].
      * rewrite lookup_delete_ne by done.
        destruct (db st !! k') as [config'|]; simpl; [|done].
        apply (f_equal (λ b : bool, if b then None else Some config')).
        apply bool_decide_ext. rewrite elem_of_cons. naive_solver.
    + intros config'. rewrite Hconfigs. simpl. split.
      * intros (k' & Hk' & Hdb'' & ?). exists k'.
        rewrite lookup_delete_ne in Hdb'' by (by intros ->).
        split; [by right|done].
      * intros (k' & [->|Hk']%elem_of_cons & Hdb'' & Hlive & ?).
        { rewrite Hdb in Hdb''. by injection Hdb'' as <-. }
        exists k'. by rewrite lookup_delete_ne by (by intros ->).
  - destruct (IH st Hnd) as (configs & st' & Hrun & Hdirs & Hdb' & Hconfigs).
    { intros k' Hk'. apply Hkeys. by right. }
    rewrite Hrun.
    assert (∀ k', db st' !! k'
                  = config' ← db st !! k';
                    if bool_decide (k' ∈ k :: keys ∧ job_dir config' ∉ dirs st)
                    then None else Some config') as Hdb''.
    { intros k'. rewrite Hdb'.
      destruct (db st !! k') as [config'|] eqn:Hk'; simpl; [|done].
      apply (f_equal (λ b : bool, if b then None else Some config')).
      apply bool_decide_ext. rewrite elem_of_cons.
      split; [naive_solver|]. intros [[->|?] ?]; [|done].
      rewrite Hdb in Hk'. by injection Hk' as <-. }
    destruct (bool_decide (Utils.user_id config = user_id)
              || bool_decide (user_id ∈ SUPERUSER_IDS)) eqn:Hvisible.
    + exists (config :: configs), st'. split_and!; try done.
      intros config'. rewrite elem_of_cons, Hconfigs. split.
      * intros [->|(k' & ? & ?)].
        -- exists k. split_and!; [by left|done|done|].
           apply orb_true_iff in Hvisible as [?%bool_decide_eq_true|?%bool_decide_eq_true];
             [by left|by right].
        -- exists k'. split; [by right|done].
      * intros (k' & [->|Hk']%elem_of_cons & Hdb3 & ?).
        -- left. rewrite Hdb in Hdb3. by injection Hdb3.
        -- right. by exists k'.
    + exists configs, st'. split_and!; try done.
      intros config'. rewrite Hconfigs. split.
      * intros (k' & ? & ?). exists k'. split; [by right|done].
      * intros (k' & [->|Hk']%elem_of_cons & Hdb3 & ? & Hmay').
        -- rewrite Hdb in Hdb3. injection Hdb3 as <-.
           apply orb_false_iff in Hvisible
             as [?%bool_decide_eq_false ?%bool_decide_eq_false].
           by destruct Hmay'.
        -- by exists k'.
Qed.

Lemma load_all_jobs_loop_blocked user_id keys st k config :
  NoDup keys →
  (∀ k, k ∈ keys → ∃ config, db st !! k = Some config ∧ k = job_key (job_id config)) →
  k ∈ keys → db st !! k = Some config → job_dir config ∉ dirs st →
  ¬ may_modify user_id config →
  ∃ st', load_all_jobs_loop user_id keys st
         = (Raise (OpenReviewException
                     "Forbidden: Insufficient permissions to modify job"), st')
         ∧ dirs st' = dirs st ∧ db st' ⊆ db st ∧ db st' !! k = Some config.
Proof.
  intros Hnd Hkeys Hk Hdb Hstale Hmay. revert st Hnd Hkeys Hk Hdb Hstale.
  induction keys as [|k0 keys IH]; intros st Hnd Hkeys Hk Hdb Hstale;
    [by apply elem_of_nil in Hk|].
  apply NoDup_cons in Hnd as [Hk0 Hnd].
  destruct (Hkeys k0) as (config0 & Hdb0 & Hkey0); [by left|].
  simpl. rewrite Hdb0. case_bool_decide as Hstale0.
  - unfold remove_job. rewrite <- Hkey0, Hdb0.
    destruct (bool_decide (Utils.user_id config0 ≠ user_id)
              && bool_decide (user_id ∉ SUPERUSER_IDS)) eqn:Hforbidden.
    + by exists st.
    + apply elem_of_cons in Hk as [->|Hk].
      { exfalso. rewrite Hdb in Hdb0. injection Hdb0 as <-. apply Hmay.
        apply andb_false_iff in Hforbidden
          as [Hf%bool_decide_eq_false|Hf%bool_decide_eq_false];
          [left|right]; by apply dec_stable. }
      destruct (IH {| db := delete k0 (db st); dirs := dirs st |})
        as (st' & Hrun & Hdirs & Hsub & Hk'); try done.
      * intros k' Hk'. destruct (Hkeys k') as (config' & ? & ?); [by right|].
        exists config'. simpl. by rewrite lookup_delete_ne by (by intros ->).
      * simpl. by rewrite lookup_delete_ne by (by intros ->).
      * exists st'. split_and!; try done.
        etrans; [exact Hsub|]. apply delete_subseteq.
  - apply elem_of_cons in Hk as [->|Hk].
    { rewrite Hdb in Hdb0. by injection Hdb0 as <-. }
    destruct (IH st) as (st' & Hrun & Hrest); try done.
    { intros k' Hk'. apply Hkeys. by right. }
    rewrite Hrun. by exists st'.
Qed.

Lemma scan_keys st :
  NoDup (filter (λ k, String.prefix "job:" k = true) (map_to_list (db st)).*1)
  ∧ ∀ k, k ∈ filter (λ k, String.prefix "job:" k = true) (map_to_list (db st)).*1
         ↔ String.prefix "job:" k = true ∧ is_Some (db st !! k).
Proof.
  split; [apply NoDup_filter, NoDup_fst_map_to_list|].
  intros k. rewrite list_elem_of_filter, list_elem_of_fmap.
  split.
  - intros [? [[k' config] [-> ?%elem_of_map_to_list]]]. eauto.
  - intros [? [config ?]]. split; [done|]. exists (k, config).
    split; [done|]. by apply elem_of_map_to_list.
Qed.

(** [load_all_jobs] on a store where every record is under the key of its
    own id, as [save] puts it: when the caller may modify every record
    whose directory is gone (the caller owns it, or is a superuser), the
    call returns the records with a directory that the caller may see, and
    has removed from the store exactly the records whose directory is
    gone. *)
Theorem load_all_jobs_purges user_id st :
  well_keyed st →
  (∀ k config, db st !! k = Some config → String.prefix "job:" k = true →
               job_dir config ∉ dirs st → may_modify user_id config) →
  ∃ configs st',
    load_all_jobs user_id st = (Ok configs, st')
    ∧ dirs st' = dirs st
    ∧ (∀ k, db st' !! k
            = config ← db st !! k;
              if bool_decide (String.prefix "job:" k = true
                              ∧ job_dir config ∉ dirs st) then None
              else Some config)
    ∧ (∀ config, config ∈ configs ↔
         ∃ k, String.prefix "job:" k = true ∧ db st !! k = Some config
              ∧ job_dir config ∈ dirs st ∧ may_modify user_id config).
Proof.
  intros Hkeyed Hmay. unfold load_all_jobs.
  destruct (scan_keys st) as [Hnd Hscan].
  destruct (load_all_jobs_loop_purges user_id _ st Hnd)
    as (configs & st' & Hrun & Hdirs & Hdb & Hconfigs).
  { intros k [Hpre [config Hk]]%Hscan. exists config. split_and!; eauto. }
  exists configs, st'. split_and!; try done.
  - intros k. rewrite Hdb. destruct (db st !! k) as [config|] eqn:Hk; simpl; [|done].
    apply (f_equal (λ b : bool, if b then None else Some config)).
    apply bool_decide_ext. rewrite Hscan. naive_solver.
  - intros config. rewrite Hconfigs. split.
    + intros (k & [? _]%Hscan & ?). by exists k.
    + intros (k & ? & Hk & ?). exists k. split; [|done]. apply Hscan. eauto.
Qed.

(** One record of somebody else whose directory is gone is enough for
    [load_all_jobs] to fail, for every caller who is no superuser: it raises
    'Forbidden' instead of listing the caller's own jobs.  The record that
    is in the way stays in the store. *)
Theorem load_all_jobs_blocked user_id st k config :
  well_keyed st →
  db st !! k = Some config → String.prefix "job:" k = true →
  job_dir config ∉ dirs st → ¬ may_modify user_id config →
  ∃ st', load_all_jobs user_id st
         = (Raise (OpenReviewException
                     "Forbidden: Insufficient permissions to modify job"), st')
         ∧ dirs st' = dirs st ∧ db st' ⊆ db st ∧ db st' !! k = Some config.
Proof.
  intros Hkeyed Hk Hpre Hstale Hmay. unfold load_all_jobs.
  destruct (scan_keys st) as [Hnd Hscan].
  apply (load_all_jobs_loop_blocked user_id _ st k config); try done.
  - intros k' [? [config' ?]]%Hscan. exists config'. eauto.
  - apply Hscan. eauto.
Qed.

End load_all_jobs_facts.
(** ** The jobs of the service: what a caller sees *)

Section subdirs_facts.
Import Expertise.
Implicit Types (w : world) (user_id job_id : string).

Lemma mapR_singletons {A} (f : A → result (list A)) (l : list A) ll :
  NoDup l → (∀ d r, f d = Ok r → r = [d] ∨ r = []) →
  mapR f l = Ok ll →
  NoDup (concat ll) ∧ ∀ d, d ∈ concat ll ↔ d ∈ l ∧ f d = Ok [d].
Proof.
  intros Hnd Hf. revert ll. induction Hnd as [|x l Hx Hnd IH]; intros ll; simpl.
  { intros [= <-]. split; [constructor|]. intros d. simpl.
    split; [by intros ?%elem_of_nil|by intros [?%elem_of_nil _]]. }
  destruct (f x) as [r|] eqn:Hr; simpl; [|done].
  destruct (mapR f l) as [rs|]; simpl; [|done].
  intros [= <-]. destruct (IH rs eq_refl) as [Hnd' Hin]. simpl.
  destruct (Hf x r Hr) as [->| ->]; simpl.
  - split.
    + constructor; [|done]. rewrite Hin. by intros [? _].
    + intros d. rewrite !elem_of_cons, Hin. split.
      * intros [->|[? ?]]; [by auto|by auto].
      * intros [[->|?] ?]; [by left|by right].
  - split; [done|]. intros d. rewrite Hin, elem_of_cons. split; [by intros [? ?]; auto|].
    intros [[->|?] Hd]; [|done]. rewrite Hr in Hd. by injection Hd.
Qed.

(** What [_get_subdirs] returns: the visible directories, each once. *)
Lemma get_subdirs_Ok user_id w dirs :
  _get_subdirs user_id w = Ok dirs →
  NoDup dirs ∧ ∀ d, d ∈ dirs ↔ visible user_id w d.
Proof.
  unfold _get_subdirs, visible. case_bool_decide as Hsu.
  - intros [= <-]. split; [apply NoDup_fst_map_to_list|].
    intros d. rewrite list_elem_of_fmap. split.
    + intros [[d' c] [-> ?%elem_of_map_to_list]]. eauto.
    + intros [c Hc]. exists (d, c). split; [done|]. by apply elem_of_map_to_list.
  - destruct (mapR _ _) as [ll|] eqn:Hll; simpl; [|done]. intros [= <-].
    apply mapR_singletons in Hll as [Hnd Hin];
      [|apply NoDup_fst_map_to_list|].
    + split; [done|]. intros d. rewrite Hin. split.
      * intros [_ Hd].
        destruct (job_dirs w !! d) as [[config|]|]; [|done..].
        unfold getitem in Hd.
        destruct (config !! "user_id") as [owner|] eqn:Howner; [|done].
        simpl in Hd. exists config, owner. split_and!; try done.
        by destruct (json_is_str owner user_id).
      * intros (config & owner & Hd & Howner & Hown). split.
        -- apply list_elem_of_fmap. exists (d, Some config).
           split; [done|]. by apply elem_of_map_to_list.
        -- rewrite Hd. unfold getitem. rewrite Howner. simpl. by rewrite Hown.
    + intros d r. destruct (job_dirs w !! d) as [[config|]|]; [|done..].
      unfold getitem. destruct (config !! "user_id") as [owner|]; [|done].
      simpl. intros [= <-]. destruct (json_is_str owner user_id); auto.
Qed.

Lemma filter_eq_NoDup (l : list string) (x : string) :
  NoDup l → filter (λ name, name = x) l = if decide (x ∈ l) then [x] else [].
Proof.
  induction 1 as [|y l Hy Hnd IH]; [done|].
  rewrite filter_cons. destruct (decide (y = x)) as [->|Hne].
  - rewrite decide_True by (by left).
    rewrite IH. by rewrite decide_False.
  - rewrite IH. destruct (decide (x ∈ l)).
    + rewrite decide_True by (by right). done.
    + rewrite decide_False; [done|]. by intros [?|?]%elem_of_cons.
Qed.

(** The status lookup of a job that the caller sees reads its config; the
    lookup of any other job is 'Job not found'. *)
Lemma status_of_subdirs user_id job_id w dirs :
  _get_subdirs user_id w = Ok dirs →
  get_expertise_status user_id job_id w
  = (if decide (job_id ∈ dirs)
     then config ← read_config job_id w; job_entry job_id config
     else Raise NotFound, w).
Proof.
  intros Hdirs. unfold get_expertise_status. rewrite Hdirs. simpl.
  destruct (get_subdirs_Ok _ _ _ Hdirs) as [Hnd _].
  rewrite filter_eq_NoDup by done.
  destruct (decide (job_id ∈ dirs)); [|done].
  unfold read_config. by destruct (job_dirs w !! job_id) as [[config|]|].
Qed.

Lemma job_entry_id job_dir config r :
  job_entry job_dir config = Ok r → r !! "job_id" = Some (JStr job_dir).
Proof.
  unfold job_entry.
  destruct (getitem config "status"); simpl; [|done].
  destruct (getitem config "description"); simpl; [|done].
  destruct (_filter_config config) as [fc|]; simpl; [|done].
  destruct (getitem fc "name"); simpl; [|done].
  destruct (getitem fc "cdate"); simpl; [|done].
  destruct (getitem fc "mdate"); simpl; [|done].
  intros [= <-]. by rewrite lookup_insert_eq.
Qed.

(** The list of [get_expertise_all_status] has one entry for every job that
    the caller sees, each job once, and the entry of a job is what
    [get_expertise_status] returns for it; for a job that is not in the list
    the single lookup is 'Job not found'.  So the list is there only when
    the lookup of every job that the caller sees succeeds. *)
Theorem all_status_agrees user_id w l :
  get_expertise_all_status user_id w = Ok l →
  ∃ dirs,
    NoDup dirs ∧ (∀ d, d ∈ dirs ↔ visible user_id w d)
    ∧ Forall2 (λ d r, get_expertise_status user_id d w = (Ok r, w)
                      ∧ r !! "job_id" = Some (JStr d)) dirs l
    ∧ ∀ job_id, ¬ visible user_id w job_id →
                get_expertise_status user_id job_id w = (Raise NotFound, w).
Proof.
  unfold get_expertise_all_status.
  destruct (_get_subdirs user_id w) as [dirs|] eqn:Hdirs; simpl; [|done].
  intros Hl. exists dirs.
  destruct (get_subdirs_Ok _ _ _ Hdirs) as [Hnd Hin].
  split_and!; try done.
  - assert (∀ ds l,
              (∀ d, d ∈ ds → d ∈ dirs) →
              mapR (λ job_dir, config ← read_config job_dir w;
                               job_entry job_dir config) ds = Ok l →
              Forall2 (λ d r, get_expertise_status user_id d w = (Ok r, w)
                              ∧ r !! "job_id" = Some (JStr d)) ds l) as Hgen.
    { clear l Hl. induction ds as [|d ds IH]; intros l Hsub; simpl.
      { intros [= <-]. constructor. }
      destruct (read_config d w ≫= job_entry d) as [r|] eqn:Hr; simpl; [|done].
      destruct (mapR _ ds) as [rs|] eqn:Hrs; simpl; [|done].
      intros [= <-]. constructor.
      - rewrite (status_of_subdirs _ _ _ _ Hdirs).
        rewrite decide_True by (apply Hsub; by left). split; [f_equal; exact Hr|].
        destruct (read_config d w) as [config|]; [|done].
        by apply (job_entry_id d config).
      - apply IH; [|done]. intros d' ?. apply Hsub. by right. }
    by apply Hgen.
  - intros job_id Hno. rewrite (status_of_subdirs _ _ _ _ Hdirs).
    rewrite decide_False; [done|]. by rewrite Hin.
Qed.

End subdirs_facts.
(** ** The index of jobs and the deletion of a job *)

Section delete_facts.
Import Expertise.
Context {F : Type} (float : string → option F).
Context (py_eq : json → json → bool) (py_repr : json → string).

Abbreviation json_eq := (json_eq py_eq).
Abbreviation list_remove := (list_remove py_eq).
Abbreviation _del_from_user_index := (_del_from_user_index py_eq).
Abbreviation clear_directory := (clear_directory py_eq).
Abbreviation del_expertise_job := (del_expertise_job py_eq).

Implicit Types (w : world) (s : world * job_files) (user_id job_id : string).
Implicit Types (config : gmap string json) (index : gmap string (list json)).

Lemma json_eq_str (y : json) (x : string) : json_eq y (JStr x) = true ↔ y = JStr x.
Proof.
  destruct y; simpl; try (split; [done|by intros [=]]).
  rewrite bool_decide_eq_true. split; [by intros ->|by intros [= ->]].
Qed.

(** Removing a string that was appended last. *)
Lemma list_remove_appended (x : string) (l : list json) :
  ∃ l', list_remove (JStr x) (l ++ [JStr x]) = Some l'
        ∧ l' ≡ₚ l ∧ (JStr x ∉ l → l' = l).
Proof.
  induction l as [|y l (l' & Hl' & Hperm & Hsame)]; simpl.
  { rewrite bool_decide_eq_true_2 by done. by exists []. }
  destruct (json_eq y (JStr x)) eqn:Hy.
  - apply json_eq_str in Hy as ->. exists (l ++ [JStr x]). split_and!; [done| |].
    + by rewrite Permutation_app_comm.
    + intros Hno. exfalso. apply Hno. by left.
  - rewrite Hl'. exists (y :: l'). split_and!; [done|by constructor|].
    intros Hno. f_equal. apply Hsame. intros ?. apply Hno. by right.
Qed.

(** Taking a job out of an index that [_add_to_user_index] has written. *)
Lemma del_after_add user_id job_id w w1 :
  index_file w1 = index_file (_add_to_user_index user_id (JStr job_id) w) →
  let before := default [] (default ∅ (index_file w) !! user_id) in
  ∃ jobs,
    _del_from_user_index (JStr user_id) (JStr job_id) w1
    = Return (write_index (<[user_id := jobs]> (default ∅ (index_file w))) w1)
    ∧ jobs ≡ₚ before ∧ (JStr job_id ∉ before → jobs = before).
Proof.
  intros Hindex before. subst before.
  unfold Expertise._del_from_user_index. rewrite Hindex.
  unfold _add_to_user_index. simpl.
  set (index := default ∅ (index_file w)).
  destruct (index !! user_id) as [jobs0|] eqn:Hjobs; simpl.
  - rewrite lookup_insert_eq.
    destruct (list_remove_appended job_id jobs0) as (jobs & -> & Hperm & Hsame).
    exists jobs. by rewrite insert_insert_eq.
  - rewrite lookup_insert_eq. simpl. rewrite bool_decide_eq_true_2 by done.
    exists []. by rewrite insert_insert_eq.
Qed.

(** A job that [_add_to_user_index] has recorded is taken out again by
    [_del_from_user_index], and the user stays in the index: with the jobs
    that were listed before, and with the empty list when there were none,
    where [_get_from_user_index] raised 'User not found' or 'no jobs have
    been submitted yet' before. *)
Theorem index_add_del user_id job_id w :
  let before := default [] (default ∅ (index_file w) !! user_id) in
  ∃ jobs w',
    _del_from_user_index (JStr user_id) (JStr job_id)
      (_add_to_user_index user_id (JStr job_id) w) = Return w'
    ∧ w' = write_index (<[user_id := jobs]> (default ∅ (index_file w))) w
    ∧ _get_from_user_index user_id w' = Ok jobs
    ∧ jobs ≡ₚ before ∧ (JStr job_id ∉ before → jobs = before).
Proof.
  intros before. subst before.
  destruct (del_after_add user_id job_id w _ eq_refl) as (jobs & Hdel & Hperm & Hsame).
  exists jobs. eexists. split; [exact Hdel|]. split_and!; try done.
  unfold _get_from_user_index. simpl. by rewrite lookup_insert_eq.
Qed.

(** What [clear_directory] has done when it returns. *)
Lemma clear_directory_Return job_dir config s s' :
  clear_directory job_dir config s = Return s' →
  ∃ owner job index jobs jobs',
    config !! "user_id" = Some (JStr owner) ∧ config !! "job_id" = Some job
    ∧ index_file s.1 = Some index ∧ index !! owner = Some jobs
    ∧ list_remove job jobs = Some jobs'
    ∧ s' = rmtree job_dir (write_index (<[owner := jobs']> index) s.1, s.2).
Proof.
  unfold Expertise.clear_directory, getitem.
  destruct (config !! "user_id") as [owner|]; simpl; [|done].
  destruct (config !! "job_id") as [job|]; simpl; [|done].
  unfold Expertise._del_from_user_index.
  destruct (index_file s.1) as [index|]; simpl; [|done].
  destruct owner as [| | |owner| |]; simpl; try done.
  destruct (index !! owner) as [jobs|] eqn:Hjobs; simpl; [|done].
  destruct (list_remove job jobs) as [jobs'|] eqn:Hrem; simpl; [|done].
  intros [= <-]. by exists owner, job, index, jobs, jobs'.
Qed.

(** [del_expertise_job] either fails and changes nothing, or has deleted
    the job: then the caller sees the job (it is the caller's, or the caller
    is a superuser), the job was listed in the index under its owner, the
    first entry of it has left the index, the directory of the job and its
    files are gone, and the call returns the config without 'baseurl' and
    'user_id' -- or, for a config without 'baseurl', raises [KeyError] after
    the deletion. *)
Theorem del_expertise_job_spec user_id job_id s r s' :
  del_expertise_job user_id job_id s = (r, s') →
  (s' = s ∧ ∃ e, r = Throw e)
  ∨ ∃ config owner job index jobs jobs',
      visible user_id s.1 job_id
      ∧ job_dirs s.1 !! job_id = Some (Some config)
      ∧ config !! "user_id" = Some (JStr owner) ∧ config !! "job_id" = Some job
      ∧ index_file s.1 = Some index ∧ index !! owner = Some jobs
      ∧ list_remove job jobs = Some jobs'
      ∧ s' = rmtree job_id (write_index (<[owner := jobs']> index) s.1, s.2)
      ∧ r = match config !! "baseurl" with
            | Some _ => Return (delete "user_id" (delete "baseurl" config))
            | None => Throw (Exn (KeyError "baseurl"))
            end.
Proof.
  unfold Expertise.del_expertise_job.
  destruct (_get_subdirs user_id s.1) as [dirs|] eqn:Hdirs;
    [|intros [= <- <-]; left; eauto].
  destruct (get_subdirs_Ok _ _ _ Hdirs) as [Hnd Hin].
  rewrite filter_eq_NoDup by done.
  destruct (decide (job_id ∈ dirs)) as [Hjob|]; [|intros [= <- <-]; left; eauto].
  unfold read_config.
  destruct (job_dirs s.1 !! job_id) as [[config|]|] eqn:Hconfig; simpl;
    [|intros [= <- <-]; left; eauto..].
  destruct (clear_directory job_id config s) as [s1|] eqn:Hclear; simpl;
    [|intros [= <- <-]; left; eauto].
  intros [= <- <-]. right.
  apply clear_directory_Return
    in Hclear as (owner & job & index & jobs & jobs' & Howner & ? & ? & ? & ? & ->).
  exists config, owner, job, index, jobs, jobs'.
  split_and!; try done; [by apply Hin|].
  unfold _filter_config, getitem.
  destruct (config !! "baseurl"); simpl; [|done].
  by rewrite lookup_delete_ne, Howner by done.
Qed.

End delete_facts.
(** ** The results of a job *)

Lemma is_dummy_cons (x : string) row :
  Expertise.is_dummy (x :: row) = bool_decide (x = "dummy").
Proof. unfold Expertise.is_dummy. apply bool_decide_ext. simpl. naive_solver. Qed.

(** What [rmtree] leaves. *)
Lemma rmtree_files dir s :
  Expertise.job_dirs (Expertise.rmtree dir s).1 = delete dir (Expertise.job_dirs s.1)
  ∧ (∀ file, Expertise.score_files (Expertise.rmtree dir s).2 !! (dir, file) = None)
  ∧ Expertise.metadata_files (Expertise.rmtree dir s).2 !! dir = None
  ∧ ∀ d file, d ≠ dir →
      Expertise.score_files (Expertise.rmtree dir s).2 !! (d, file)
      = Expertise.score_files s.2 !! (d, file)
      ∧ Expertise.metadata_files (Expertise.rmtree dir s).2 !! d
        = Expertise.metadata_files s.2 !! d.
Proof.
  unfold Expertise.rmtree. simpl. split_and!.
  - done.
  - intros file. apply map_lookup_filter_None. right. intros rows _ Hne. by apply Hne.
  - by rewrite lookup_delete_eq.
  - intros d file Hne. split; [|by rewrite lookup_delete_ne].
    apply option_eq. intros rows. rewrite map_lookup_filter_Some. naive_solver.
Qed.

Section results_facts.
Import Expertise.
Context {F : Type} (float : string → option F).
Context (py_eq : json → json → bool) (py_repr : json → string).

Abbreviation format_json := (format_json py_repr).
Abbreviation read_row := (read_row float).
Abbreviation read_rows := (read_rows float).
Abbreviation is_entry_of := (is_entry_of float).
Abbreviation _get_score_and_metadata_dir := (_get_score_and_metadata_dir py_repr).
Abbreviation get_expertise_results := (get_expertise_results float py_eq py_repr).

Implicit Types (w : world) (s : world * job_files) (user_id job_id : string).
Implicit Types (config : gmap string json) (rows : list (list string)).
Implicit Types (r : score_row F) (l : list (score_row F)).

Lemma is_entry_of_inj row r1 r2 : is_entry_of row r1 → is_entry_of row r2 → r1 = r2.
Proof.
  intros (v1 & rest1 & -> & Hv1) (v2 & rest2 & [= Hs Hu <- <-] & Hv2).
  destruct r1, r2. simpl in *. congruence.
Qed.

Lemma read_row_Return row l :
  read_row row = Return l ↔
  if is_dummy row then l = [] else ∃ r, l = [r] ∧ is_entry_of row r.
Proof.
  unfold Expertise.read_row, Expertise.is_entry_of.
  destruct row as [|submission row].
  { split; [done|]. by intros (r & _ & ? & ? & ? & _). }
  rewrite is_dummy_cons. case_bool_decide as Hdummy.
  { split; [by intros [= <-]|by intros ->]. }
  destruct row as [|user [|value rest]].
  - split; [done|]. by intros (r & _ & ? & ? & ? & _).
  - split; [done|]. by intros (r & _ & ? & ? & ? & _).
  - destruct (float value) as [x|] eqn:Hx.
    + split.
      * intros [= <-]. eexists. split; [done|]. by exists value, rest.
      * intros ([] & -> & v & rest' & [= <- <- <- <-] & Hv). simpl in *.
        congruence.
    + split; [done|].
      intros (r & _ & v & rest' & [= _ _ <- _] & Hv). congruence.
Qed.

Lemma read_rows_Return rows l :
  read_rows rows = Return l ↔
  Forall2 is_entry_of (filter (λ row, is_dummy row = false) rows) l.
Proof.
  revert l. induction rows as [|row rows IH]; intros l; simpl.
  { split; [intros [= <-]; constructor|by intros ->%Forall2_nil_inv_l]. }
  rewrite filter_cons. split.
  - destruct (read_row row) as [l1|] eqn:Hrow; simpl; [|done].
    destruct (read_rows rows) as [l2|]; simpl; [|done].
    intros [= <-]. apply read_row_Return in Hrow.
    destruct (is_dummy row).
    + subst l1. rewrite decide_False by done. by apply IH.
    + destruct Hrow as (r & -> & Hr). rewrite decide_True by done.
      constructor; [done|]. by apply IH.
  - destruct (is_dummy row) eqn:Hdummy.
    + rewrite decide_False by done. intros ->%IH.
      assert (read_row row = Return []) as ->
        by (apply read_row_Return; by rewrite Hdummy).
      done.
    + rewrite decide_True by done.
      intros (r & l' & Hr & ->%IH & ->)%Forall2_cons_inv_l.
      assert (read_row row = Return [r]) as ->
        by (apply read_row_Return; rewrite Hdummy; eauto).
      done.
Qed.

Local Ltac no_results :=
  intros (_ & ? & ? & ? & ? & ? & ? & ? & ? & [? ?] & ? & ? & ? & _);
  simplify_eq; congruence.

(** Without [delete_on_get], [get_expertise_results] returns exactly when
    the job has a directory and a config that names the caller (or the caller
    is a superuser), has the status 'Completed' and a description, and the
    score file named after the job and the metadata file are there, every row
    of the score file being a dummy row or a row of at least three fields
    whose third is a number; it returns one entry for every row that is no
    dummy row, in the order of the file, with the metadata, and changes
    nothing. *)
Theorem get_expertise_results_spec user_id job_id s result s' :
  get_expertise_results user_id job_id false s = (Return result, s') ↔
  s' = s
  ∧ ∃ config owner name rows,
      job_dirs s.1 !! job_id = Some (Some config)
      ∧ config !! "user_id" = Some owner
      ∧ (json_is_str owner user_id = true ∨ lower user_id ∈ SUPERUSER_IDS)
      ∧ config !! "status" = Some (JStr "Completed")
      ∧ is_Some (config !! "description")
      ∧ config !! "name" = Some name
      ∧ score_files s.2 !! (job_id, format_json name +:+ ".csv") = Some rows
      ∧ metadata_files s.2 !! job_id = Some (metadata result)
      ∧ Forall2 is_entry_of (filter (λ row, is_dummy row = false) rows)
          (results result).
Proof.
  unfold Expertise.get_expertise_results, Expertise._get_score_and_metadata_dir,
    read_config, getitem.
  destruct (job_dirs s.1 !! job_id) as [[config|]|] eqn:Hconfig; simpl;
    [|split; [done|no_results]..].
  destruct (config !! "user_id") as [owner|] eqn:Howner; simpl;
    [|split; [done|no_results]].
  destruct (negb (json_is_str owner user_id)
            && bool_decide (lower user_id ∉ SUPERUSER_IDS)) eqn:Hforbidden; simpl.
  { split; [done|].
    apply andb_true_iff in Hforbidden as [Hf%negb_true_iff Hsu%bool_decide_eq_true].
    intros (_ & ? & ? & ? & ? & ? & ? & [?|?] & _); simplify_eq; congruence. }
  assert (json_is_str owner user_id = true ∨ lower user_id ∈ SUPERUSER_IDS) as Hown.
  { apply andb_false_iff in Hforbidden as [Hf%negb_false_iff|Hsu%bool_decide_eq_false];
      [by left|right; by apply dec_stable]. }
  destruct (config !! "status") as [status|] eqn:Hstatus; simpl;
    [|split; [done|no_results]].
  destruct (config !! "description") as [description|] eqn:Hdescr; simpl;
    [|split; [done|no_results]].
  destruct (json_is_str status "Completed") eqn:Hcompleted; simpl.
  2:{ split; [done|].
      intros (_ & ? & ? & ? & ? & ? & ? & ? & ? & _);
        simplify_eq; try (by rewrite bool_decide_eq_true_2 in Hcompleted). }
  destruct status as [| | |status| |]; try done.
  apply bool_decide_eq_true in Hcompleted as ->.
  destruct (config !! "name") as [name|] eqn:Hname; simpl;
    [|split; [done|no_results]].
  destruct (score_files s.2 !! (job_id, format_json name +:+ ".csv"))
    as [rows|] eqn:Hrows; simpl.
  2:{ split; [by destruct (config !! "job_id")|no_results]. }
  destruct (metadata_files s.2 !! job_id) as [m|] eqn:Hm; simpl.
  2:{ split; [by destruct (config !! "job_id")|no_results]. }
  rewrite Hrows. simpl.
  destruct (read_rows rows) as [l|] eqn:Hl; simpl.
  - apply read_rows_Return in Hl. split.
    + intros [= <- <-]. split; [done|]. exists config, owner, name, rows.
      by split_and!.
    + intros (-> & config' & owner' & name' & rows' & ? & _ & _ & _ & _
              & Hname' & Hrows' & Hm' & Hl'). simplify_eq.
      f_equal. destruct result as [l' m']. simpl in *.
      assert (l = l') as ->; [|done].
      clear -Hl Hl'. revert l' Hl'.
      induction Hl as [|row r rows' l Hr Hl IH]; intros l' Hl'.
      * by apply Forall2_nil_inv_l in Hl'.
      * apply Forall2_cons_inv_l in Hl' as (r' & l'' & Hr' & Hl'' & ->).
        f_equal; [by apply (is_entry_of_inj row)|by apply IH].
  - split; [done|].
    intros (_ & config' & owner' & name' & rows' & ? & _ & _ & _ & _
            & Hname' & Hrows' & _ & Hl'). simplify_eq.
    apply read_rows_Return in Hl'. congruence.
Qed.

(** With [delete_on_get], a call that fails changes nothing -- also when
    the results were read and the job could not be taken out of the index.
    A call that returns gives what the call without [delete_on_get] gives,
    and has deleted the directory of the job with its files, and no file of
    another job: the results can be fetched once, every later call for the
    job is 'Job not found'. *)
Theorem results_delete_on_get user_id job_id s outcome s' :
  get_expertise_results user_id job_id true s = (outcome, s') →
  match outcome with
  | Throw e => s' = s
  | Return result =>
      get_expertise_results user_id job_id false s = (Return result, s)
      ∧ job_dirs s'.1 = delete job_id (job_dirs s.1)
      ∧ (∀ file, score_files s'.2 !! (job_id, file) = None)
      ∧ metadata_files s'.2 !! job_id = None
      ∧ (∀ d file, d ≠ job_id →
           score_files s'.2 !! (d, file) = score_files s.2 !! (d, file)
           ∧ metadata_files s'.2 !! d = metadata_files s.2 !! d)
      ∧ ∀ user_id' delete_on_get,
          get_expertise_results user_id' job_id delete_on_get s'
          = (Throw (Exn NotFound), s')
  end.
Proof.
  unfold Expertise.get_expertise_results at 1 2.
  match goal with
  | |- context [match ?M with Return _ => _ | Throw _ => _ end] =>
      destruct M as [[config result]|e] eqn:HM
  end; [|by intros [= <- <-]].
  destruct (clear_directory py_eq job_id config s) as [s1|e] eqn:Hclear;
    [|by intros [= <- <-]].
  intros [= <- <-]. split; [done|].
  apply clear_directory_Return
    in Hclear as (owner & job & index & jobs & jobs' & _ & _ & _ & _ & _ & ->).
  destruct (rmtree_files job_id (write_index (<[owner:=jobs']> index) s.1, s.2))
    as (Hdirs & Hscores & Hmeta & Hothers).
  split_and!; try done.
  intros user_id' delete_on_get. unfold Expertise.get_expertise_results.
  rewrite Hdirs, lookup_delete_eq. done.
Qed.

End results_facts.
(** ** A job that was just submitted *)

Section start_facts.
Import Expertise.
Context (shortuuid_random : nat → string) (clock : nat → Z).
Context (ServerConfig_to_json :
  gmap string json → gmap string json → result (gmap string json)).
Context (py_eq : json → json → bool).

Abbreviation _prepare_config := (_prepare_config clock ServerConfig_to_json).
Abbreviation start_expertise :=
  (start_expertise shortuuid_random clock ServerConfig_to_json).
Abbreviation del_expertise_job := (del_expertise_job py_eq).

Implicit Types (config cfg request : gmap string json) (w : world) (self : service).
Implicit Types (user_id job_id : string).

Local Arguments set_nested : simpl never.
Local Arguments set_model_paths : simpl never.
Local Arguments json_contains : simpl never.

(** [_prepare_config] leaves the other fields of the validated config as
    they are. *)
Lemma prepare_config_fields self request w config token w' cfg :
  _prepare_config self request w = (Ok (config, token), w') →
  ServerConfig_to_json (default_config self) request = Ok cfg →
  (∀ k, k ∉ prepared_fields → config !! k = cfg !! k)
  ∧ is_Some (config !! "cdate").
Proof.
  unfold Expertise._prepare_config. intros Hprep Hcfg. rewrite Hcfg in Hprep.
  simpl in Hprep. unfold getitem at 1 in Hprep.
  destruct (request !! "job_id") as [[| | |job_id| |]|] eqn:Hjob; simpl in Hprep;
    try done.
  destruct (set_nested cfg "dataset" "directory" _) as [c1|] eqn:H1;
    simpl in Hprep; [|done].
  destruct (set_nested c1 "model_params" "work_dir" _) as [c2|] eqn:H2;
    simpl in Hprep; [|done].
  destruct (set_nested c2 "model_params" "scores_path" _) as [c3|] eqn:H3;
    simpl in Hprep; [|done].
  destruct (set_nested c3 "model_params" "publications_path" _) as [c4|] eqn:H4;
    simpl in Hprep; [|done].
  destruct (set_nested c4 "model_params" "submissions_path" _) as [c5|] eqn:H5;
    simpl in Hprep; [|done].
  destruct (set_model_paths self _) as [c6|] eqn:H6; simpl in Hprep; [|done].
  unfold getitem in Hprep.
  destruct (c6 !! "token") as [tok|] eqn:Htok; simpl in Hprep; [|done].
  injection Hprep as <- <- <-. split.
  - intros k Hk.
    assert (k ≠ "dataset" ∧ k ≠ "model_params" ∧ k ≠ "job_dir" ∧ k ≠ "cdate"
            ∧ k ≠ "mdate" ∧ k ≠ "status" ∧ k ≠ "description" ∧ k ≠ "token")
      as (? & ? & ? & ? & ? & ? & ? & ?).
    { split_and!; intros ->; apply Hk; by_evaluation. }
    rewrite lookup_delete_ne by done.
    rewrite (set_model_paths_lookup_ne _ _ _ k H6) by done.
    rewrite !lookup_insert_ne by done.
    rewrite (set_nested_lookup_ne _ _ _ _ _ k H5) by done.
    rewrite (set_nested_lookup_ne _ _ _ _ _ k H4) by done.
    rewrite (set_nested_lookup_ne _ _ _ _ _ k H3) by done.
    rewrite (set_nested_lookup_ne _ _ _ _ _ k H2) by done.
    by rewrite (set_nested_lookup_ne _ _ _ _ _ k H1) by done.
  - rewrite lookup_delete_ne by done.
    rewrite (set_model_paths_lookup_ne _ _ _ "cdate" H6) by done.
    rewrite !lookup_insert_ne by done. by rewrite lookup_insert_eq.
Qed.

Lemma index_file_makedirs dir w : index_file (makedirs dir w) = index_file w.
Proof. unfold makedirs. by destruct (job_dirs w !! dir). Qed.

Lemma job_dirs_makedirs dir w c :
  <[dir := c]> (job_dirs (makedirs dir w)) = <[dir := c]> (job_dirs w).
Proof.
  unfold makedirs. destruct (job_dirs w !! dir); [done|]. simpl.
  by rewrite insert_insert_eq.
Qed.

Local Arguments Expertise._prepare_config : simpl never.

(** What a call of [start_expertise] that returns has done. *)
Lemma start_expertise_Ok_inv self request w job_id w' :
  start_expertise self request w = (Ok job_id, w') →
  ∃ cfg c1 token mdate owner config_job_id,
    ServerConfig_to_json (default_config self)
      (<["job_id" := JStr job_id]> request) = Ok cfg
    ∧ (∀ k, k ∉ prepared_fields → c1 !! k = cfg !! k)
    ∧ is_Some (c1 !! "cdate") ∧ c1 !! "token" = None
    ∧ c1 !! "user_id" = Some (JStr owner) ∧ c1 !! "job_id" = Some config_job_id
    ∧ job_dirs w' = <[job_id := Some (queued_config mdate c1)]> (job_dirs w)
    ∧ index_file w' = index_file (_add_to_user_index owner config_job_id w)
    ∧ queue w' = queue w ++ [(job_id, queued_config mdate c1, token)].
Proof.
  unfold Expertise.start_expertise. simpl.
  destruct (_prepare_config self _ _) as [[[c1 token]|e] w1] eqn:Hprep; [|done].
  pose proof Hprep as Hprep'.
  apply prepare_config_inv
    in Hprep as (cfg & jid & Hcfg & Hjid & Htok & Hc1 & Hst & ->).
  destruct (prepare_config_fields _ _ _ _ _ _ cfg Hprep' Hcfg) as [Hkeep Hcdate].
  rewrite lookup_insert_eq in Hjid. injection Hjid as <-.
  simpl. unfold getitem.
  rewrite !lookup_insert_ne by done.
  destruct (c1 !! "user_id") as [user|] eqn:Huser; simpl; [|done].
  destruct (c1 !! "job_id") as [config_job_id|] eqn:Hjob; simpl; [|done].
  destruct user as [| | |owner| |]; simpl; try done.
  destruct (c1 !! "job_dir") as [[| | |job_dir| |]|]; simpl; try (by intros [= ]).
  intros [= <- <-].
  eexists cfg, c1, token, _, owner, config_job_id.
  split_and!; try done.
  - simpl. by rewrite insert_insert_eq, job_dirs_makedirs.
  - simpl. by rewrite index_file_makedirs.
  - simpl. by rewrite queue_makedirs.
Qed.

Lemma queued_config_lookup mdate c1 :
  queued_config mdate c1 !! "status" = Some (JStr "Queued")
  ∧ queued_config mdate c1 !! "description"
    = Some (JStr "Job is waiting to start fetching OpenReview data")
  ∧ queued_config mdate c1 !! "mdate" = Some (JNum mdate)
  ∧ ∀ k, k ≠ "status" → k ≠ "description" → k ≠ "mdate" →
         queued_config mdate c1 !! k = c1 !! k.
Proof.
  unfold queued_config. split_and!.
  - rewrite lookup_insert_ne by done. by rewrite lookup_insert_eq.
  - by rewrite lookup_insert_eq.
  - rewrite !lookup_insert_ne by done. by rewrite lookup_insert_eq.
  - intros k ???. by rewrite !lookup_insert_ne by done.
Qed.

(** After a submission the submitter sees the new job. *)
Lemma submitted_job_listed user_id job_id w w' c :
  readable w ∨ lower user_id ∈ SUPERUSER_IDS →
  job_dirs w' = <[job_id := Some c]> (job_dirs w) →
  c !! "user_id" = Some (JStr user_id) →
  ∃ dirs, _get_subdirs user_id w' = Ok dirs ∧ NoDup dirs ∧ job_id ∈ dirs.
Proof.
  intros Hw Hdirs Huser.
  assert (∃ dirs, _get_subdirs user_id w' = Ok dirs) as [dirs Hget].
  { destruct (decide (lower user_id ∈ SUPERUSER_IDS)) as [Hsu|Hsu].
    - rewrite get_subdirs_superuser by done. eauto.
    - destruct Hw as [Hread|?]; [|done].
      destruct (get_subdirs_owned user_id w') as (dirs & ? & _); [|done|by eauto].
      intros d. rewrite Hdirs. destruct (decide (d = job_id)) as [->|Hne].
      + rewrite lookup_insert_eq. eauto.
      + rewrite lookup_insert_ne by done. apply Hread. }
  exists dirs. split; [done|].
  destruct (get_subdirs_Ok _ _ _ Hget) as [Hnd Hin]. split; [done|].
  apply Hin. unfold visible. rewrite Hdirs, lookup_insert_eq.
  case_bool_decide; [by eauto|]. exists c, (JStr user_id). split_and!; try done.
  simpl. by rewrite bool_decide_eq_true_2.
Qed.

(** The submitter of a job that [start_expertise] has accepted finds it
    with [get_expertise_status]: the job is 'Queued', and the config in the
    answer has no token, no 'baseurl' and no 'user_id'.  The validated config
    has to name the job and its base URL for that. *)
Theorem start_then_status self request w job_id w' cfg user_id name baseurl :
  start_expertise self request w = (Ok job_id, w') →
  readable w ∨ lower user_id ∈ SUPERUSER_IDS →
  ServerConfig_to_json (default_config self)
    (<["job_id" := JStr job_id]> request) = Ok cfg →
  cfg !! "user_id" = Some (JStr user_id) →
  cfg !! "name" = Some name → cfg !! "baseurl" = Some baseurl →
  ∃ r filtered_config,
    get_expertise_status user_id job_id w' = (Ok r, w')
    ∧ r !! "job_id" = Some (JStr job_id)
    ∧ r !! "name" = Some name
    ∧ r !! "status" = Some (JStr "Queued")
    ∧ r !! "description"
      = Some (JStr "Job is waiting to start fetching OpenReview data")
    ∧ r !! "config" = Some (JObj filtered_config)
    ∧ filtered_config !! "token" = None
    ∧ filtered_config !! "baseurl" = None
    ∧ filtered_config !! "user_id" = None.
Proof.
  intros Hstart Hw Hcfg Huser Hname Hbaseurl.
  apply start_expertise_Ok_inv in Hstart
    as (cfg' & c1 & token & mdate & owner & cjob & Hcfg' & Hkeep & [cdate Hcdate]
        & Htoken & Howner & _ & Hdirs & _ & _).
  rewrite Hcfg in Hcfg'. injection Hcfg' as <-.
  rewrite Hkeep in Howner by by_evaluation.
  rewrite Huser in Howner. injection Howner as <-.
  destruct (queued_config_lookup mdate c1) as (Hst & Hdescr & Hmdate & Hother).
  set (c2 := queued_config mdate c1) in *.
  assert (c2 !! "user_id" = Some (JStr user_id)) as Huser2.
  { rewrite Hother by done. by rewrite Hkeep by by_evaluation. }
  destruct (submitted_job_listed user_id job_id w w' c2 Hw Hdirs Huser2)
    as (dirs & Hget & _ & Hin).
  rewrite (status_of_subdirs _ _ _ _ Hget). rewrite decide_True by done.
  unfold read_config. rewrite Hdirs, lookup_insert_eq. simpl.
  unfold job_entry, _filter_config, getitem. rewrite Hst, Hdescr. simpl.
  rewrite (Hother "baseurl"), (Hkeep "baseurl"), Hbaseurl
    by (done || by_evaluation). simpl.
  rewrite lookup_delete_ne, Huser2 by done. simpl.
  rewrite !lookup_delete_ne by done.
  rewrite (Hother "name"), (Hkeep "name"), Hname by (done || by_evaluation). simpl.
  rewrite (Hother "cdate"), Hcdate by done. simpl. rewrite Hmdate. simpl.
  eexists _, _. split; [done|].
  split_and!.
  - by rewrite lookup_insert_eq.
  - rewrite lookup_insert_ne by done. by rewrite lookup_insert_eq.
  - rewrite !lookup_insert_ne by done. by rewrite lookup_insert_eq.
  - rewrite !lookup_insert_ne by done. by rewrite lookup_insert_eq.
  - rewrite !lookup_insert_ne by done. by rewrite lookup_singleton_eq.
  - rewrite !lookup_delete_ne by done. by rewrite Hother.
  - rewrite lookup_delete_ne by done. by rewrite lookup_delete_eq.
  - by rewrite lookup_delete_eq.
Qed.

(** Deleting a job that was just submitted: [del_expertise_job] by the
    submitter removes the directory and takes the job out of the index, where
    the submitter stays, with the jobs listed before.  The task that
    [start_expertise] has put in the queue stays there: the deletion does
    not reach the queue. *)
Theorem start_then_delete self request w job_id w' cfg user_id baseurl files :
  start_expertise self request w = (Ok job_id, w') →
  readable w ∨ lower user_id ∈ SUPERUSER_IDS →
  ServerConfig_to_json (default_config self)
    (<["job_id" := JStr job_id]> request) = Ok cfg →
  cfg !! "user_id" = Some (JStr user_id) →
  cfg !! "job_id" = Some (JStr job_id) → cfg !! "baseurl" = Some baseurl →
  let before := default [] (default ∅ (index_file w) !! user_id) in
  ∃ filtered_config s jobs task,
    del_expertise_job user_id job_id (w', files) = (Return filtered_config, s)
    ∧ filtered_config !! "token" = None
    ∧ job_dirs s.1 = delete job_id (job_dirs w)
    ∧ index_file s.1 = Some (<[user_id := jobs]> (default ∅ (index_file w)))
    ∧ jobs ≡ₚ before ∧ (JStr job_id ∉ before → jobs = before)
    ∧ queue w' = queue w ++ [task] ∧ task.1.1 = job_id
    ∧ queue s.1 = queue w'.
Proof.
  intros Hstart Hw Hcfg Huser Hjob Hbaseurl before.
  apply start_expertise_Ok_inv in Hstart
    as (cfg' & c1 & token & mdate & owner & cjob & Hcfg' & Hkeep & _
        & Htoken & Howner & Hcjob & Hdirs & Hindex & Hqueue).
  rewrite Hcfg in Hcfg'. injection Hcfg' as <-.
  rewrite Hkeep in Howner, Hcjob by by_evaluation.
  rewrite Huser in Howner. injection Howner as <-.
  rewrite Hjob in Hcjob. injection Hcjob as <-.
  destruct (queued_config_lookup mdate c1) as (_ & _ & _ & Hother).
  set (c2 := queued_config mdate c1) in *.
  assert (c2 !! "user_id" = Some (JStr user_id)) as Huser2.
  { rewrite Hother by done. by rewrite Hkeep by by_evaluation. }
  assert (c2 !! "job_id" = Some (JStr job_id)) as Hjob2.
  { rewrite Hother by done. by rewrite Hkeep by by_evaluation. }
  destruct (submitted_job_listed user_id job_id w w' c2 Hw Hdirs Huser2)
    as (dirs & Hget & Hnd & Hin).
  destruct (del_after_add py_eq user_id job_id w w' Hindex)
    as (jobs & Hdel & Hperm & Hsame).
  unfold Expertise.del_expertise_job. simpl. rewrite Hget.
  rewrite filter_eq_NoDup, decide_True by done.
  unfold read_config. rewrite Hdirs, lookup_insert_eq. simpl.
  unfold clear_directory, getitem. rewrite Huser2, Hjob2. simpl.
  rewrite Hdel. simpl.
  unfold _filter_config, getitem.
  rewrite (Hother "baseurl"), (Hkeep "baseurl"), Hbaseurl
    by (done || by_evaluation). simpl.
  rewrite lookup_delete_ne, Huser2 by done. simpl.
  eexists _, _, jobs, _. split; [done|]. simpl.
  split_and!; try done.
  - rewrite !lookup_delete_ne by done. by rewrite Hother.
  - by rewrite Hdirs, delete_insert_eq.
Qed.

End start_facts.
(** * The properties above on concrete inputs *)

(** A run is the tuple of its components, and a result that is no
    exception has a value. *)
Lemma run_eta2 {A B} (p : A * B) a : p.1 = a → p = (a, p.2).
Proof. destruct p. by intros <-. Qed.

Lemma run_eta5 {A B C D E} (p : A * B * C * D * E) a :
  p.1.1.1.1 = a → p = (a, p.1.1.1.2, p.1.1.2, p.1.2, p.2).
Proof. destruct p as [[[[??]?]?]?]. by intros <-. Qed.

Lemma is_ok_value {A} (r : result A) : is_ok r = true → ∃ a, r = Ok a.
Proof. destruct r; [by eauto|done]. Qed.

Lemma Return_value {A} (r : outcome A) :
  match r with Return _ => True | Throw _ => False end → ∃ a, r = Return a.
Proof. destruct r; [by eauto|done]. Qed.

(** ** Datasets and embedding files *)

Lemma set_archives_dataset_reviewers_witness :
  pub_author_ids_to_note_id (Data.archives_run Data.archives_untitled).1.1.1.2
  = Some [("~A", ["p1"; "p3"])]
  ∧ ∃ items,
      pub_author_ids_to_note_id (Data.archives_run Data.archives_untitled).1.1.1.2
      = Some items
      ∧ NoDup items.*1 ∧ Forall (λ item, item.2 ≠ []) items.
Proof.
  split; [vm_compute; reflexivity|].
  apply (set_archives_dataset_reviewers Data.clock "jobs/j1"
           (Data.predictor_of None None) Dataset.no_attrs Data.no_files 0%nat
           Data.archives_untitled
           (Data.archives_run Data.archives_untitled).1.1.1.1
           (Data.archives_run Data.archives_untitled).1.1.1.2
           (Data.archives_run Data.archives_untitled).1.1.2
           (Data.archives_run Data.archives_untitled).1.2
           (Data.archives_run Data.archives_untitled).2).
  by apply run_eta5.
Defined.

Lemma set_archives_dataset_outcome_witness :
  (Data.archives_run Data.archives_untitled).1.1.1.1
  = Some (AttributeError "'NoneType' object has no attribute 'strip'")
  ∧ ((Data.archives_run Data.archives_untitled).1.1.1.1 = None
     ↔ Forall (λ item, Forall (λ p, Dataset.has_strings p = true) item.2)
         Data.archives_untitled)
  ∧ ∀ e, (Data.archives_run Data.archives_untitled).1.1.1.1 = Some e →
         (∃ msg, e = AttributeError msg)
         ∧ (Data.archives_run Data.archives_untitled).1.2 = Data.no_files.
Proof.
  split; [vm_compute; reflexivity|].
  apply (set_archives_dataset_outcome Data.clock "jobs/j1"
           (Data.predictor_of None None) Dataset.no_attrs Data.no_files 0%nat
           Data.archives_untitled
           (Data.archives_run Data.archives_untitled).1.1.1.1
           (Data.archives_run Data.archives_untitled).1.1.1.2
           (Data.archives_run Data.archives_untitled).1.1.2
           (Data.archives_run Data.archives_untitled).1.2
           (Data.archives_run Data.archives_untitled).2).
  by apply run_eta5.
Defined.



Lemma set_submissions_dataset_files_witness :
  Dataset.paper_ids Data.submissions_run.2 !! Dataset.submission_paper_ids "jobs/j1"
  = Some (Dataset.ids_text ["s1"; "s2"; "s1"])
  ∧ ∃ output_dict,
      Dataset.paper_data Data.submissions_run.2
        !! Dataset.submission_paper_data "jobs/j1" = Some output_dict
      ∧ Dataset.paper_ids Data.submissions_run.2
          !! Dataset.submission_paper_ids "jobs/j1"
        = Some (Dataset.ids_text (Dataset.id <$> Data.submissions.*2))
      ∧ NoDup output_dict.*1
      ∧ (∀ sid, sid ∈ output_dict.*1 ↔ sid ∈ Dataset.id <$> Data.submissions.*2)
      ∧ (∀ sid q, (sid, q) ∈ output_dict →
           Dataset.paper_id q = sid ∧ Dataset.authors q = []
           ∧ Dataset.sub_note_id_to_title Data.submissions_run.1 !! sid
             = Some (Dataset.title q)
           ∧ Dataset.sub_note_id_to_abstract Data.submissions_run.1 !! sid
             = Some (Dataset.abstract q)).
Proof.
  split; [vm_compute; reflexivity|].
  apply (set_submissions_dataset_files (score := Z) "jobs/j1" Dataset.no_attrs
           Data.no_files Data.submissions
           Data.submissions_run.1 Data.submissions_run.2).
  by apply run_eta2.
Defined.

Lemma encode_rows texts : length (Data.encode texts) = length texts.
Proof. apply length_fmap. Qed.

Lemma embed_lines_witness :
  ∃ fs' data path lines,
    Data.embed_submissions_q Data.submissions_run.2 = Return fs'
    ∧ Dataset.paper_data Data.submissions_run.2
        !! Dataset.submission_paper_data "jobs/j1" = Some data
    ∧ 0 < 2 ∧ Some "jobs/j1/sub.jsonl" = Some path ∧ path ≠ ""
    ∧ fs' = {| Dataset.paper_data := Dataset.paper_data Data.submissions_run.2;
               Dataset.paper_ids := Dataset.paper_ids Data.submissions_run.2;
               Dataset.embeddings :=
                 <[path := lines]> (Dataset.embeddings Data.submissions_run.2) |}
    ∧ lines.*1 = Dataset.paper_id <$> data.*2.
Proof.
  destruct (Return_value (Data.embed_submissions_q Data.submissions_run.2))
    as [fs' Hrun]; [vm_compute; exact I|].
  destruct (embed_lines "[SEP]" Data.encode "jobs/j1" 2 (Some "jobs/j1/sub.jsonl")
              Data.submissions_run.2 fs' encode_rows) as [Hsub _].
  destruct (Hsub Hrun) as (data & path & lines & H).
  exists fs', data, path, lines. split; [exact Hrun|exact H].
Defined.

Lemma submissions_embedded_witness :
  ∃ fs2 path lines,
    Data.embed_submissions_q Data.submissions_run.2 = Return fs2
    ∧ Some "jobs/j1/sub.jsonl" = Some path
    ∧ Dataset.embeddings fs2 !! path = Some lines
    ∧ NoDup lines.*1
    ∧ ∀ sid, sid ∈ lines.*1 ↔ sid ∈ Dataset.id <$> Data.submissions.*2.
Proof.
  destruct (Return_value (Data.embed_submissions_q Data.submissions_run.2))
    as [fs2 Hrun]; [vm_compute; exact I|].
  destruct (submissions_embedded "[SEP]" Data.encode "jobs/j1" Dataset.no_attrs
              Data.no_files Data.submissions Data.submissions_run.1
              Data.submissions_run.2 2 (Some "jobs/j1/sub.jsonl") fs2 encode_rows)
    as (path & lines & H); [by apply run_eta2|exact Hrun|].
  exists fs2, path, lines. split; [exact Hrun|exact H].
Defined.

(** ** Requests and job records *)

Lemma from_request_model_params_witness :
  Utils.APIRequest_init Data.api_request_model = Ok Data.api_request_record
  ∧ ∃ config starting_config',
      Data.from_request_q Data.api_request_record = (Ok config, starting_config')
      ∧ dom Data.request_model ⊆ list_to_set Utils.Config.allowed_model_params
      ∧ (is_Some (Data.request_model !! "scoreComputation") →
         ∃ mp average max,
           Utils.Config.model_params config = JObj mp
           ∧ mp !! "average_score" = Some (JBool average)
           ∧ mp !! "max_score" = Some (JBool max)
           ∧ ∀ sparse_value,
               is_ok (Specter.__init__ (score := Z) average max sparse_value) = true).
Proof.
  split; [vm_compute; reflexivity|].
  destruct (is_ok_value (Data.from_request_q Data.api_request_record).1)
    as [config Hconfig]; [vm_compute; reflexivity|].
  apply run_eta2 in Hconfig. eexists config, _. split; [exact Hconfig|].
  exact (from_request_model_params _ _ _ _ _ _ _ _ _ Data.request_model Hconfig eq_refl).
Defined.

Lemma from_request_exclusion_unset_witness :
  ∃ config starting_config',
    Data.from_request_q Data.api_request_record = (Ok config, starting_config')
    ∧ Utils.Config.exclusion_inv config = JNull.
Proof.
  destruct (is_ok_value (Data.from_request_q Data.api_request_record).1)
    as [config Hconfig]; [vm_compute; reflexivity|].
  apply run_eta2 in Hconfig. eexists config, _. split; [exact Hconfig|].
  apply (from_request_exclusion_unset Data.api_request_model Data.api_request_record
           _ _ _ _ _ _ _ _ ltac:(vm_compute; reflexivity) Hconfig).
Defined.

Lemma from_request_paper_and_group_witness :
  Data.from_request_q Data.paper_against_group
  = (Raise (OpenReviewException
       "Bad request: Cannot provide paper id/invitation and alternate match group"),
     <["dataset" := JObj (<["directory" := JStr (path_join "jobs" "Ab3dE")]>
                            {[ "minimum_pub_date" := JNum 2015 ]})]>
       Data.starting_config).
Proof.
  apply (from_request_paper_and_group Data.paper_against_group Data.starting_config
           Data.openreview_client Data.server_config "Ab3dE" 1700000000000
           (JStr "~Alice1") (JStr "http://localhost:3000")
           (JStr "http://localhost:3001") "jobs" {[ "minimum_pub_date" := JNum 2015 ]}
           (JStr "ABC.cc/-/Submission") (JStr "ABC.cc")); vm_compute; reflexivity.
Defined.

Lemma load_all_jobs_purges_witness :
  ∃ configs st',
    Utils.load_all_jobs "~Alice1" Data.the_store = (Ok configs, st')
    ∧ Utils.dirs st' = Utils.dirs Data.the_store
    ∧ (∀ k, Utils.db st' !! k
            = config ← Utils.db Data.the_store !! k;
              if bool_decide (String.prefix "job:" k = true
                              ∧ Utils.job_dir config ∉ Utils.dirs Data.the_store)
              then None else Some config)
    ∧ (∀ config, config ∈ configs ↔
         ∃ k, String.prefix "job:" k = true
              ∧ Utils.db Data.the_store !! k = Some config
              ∧ Utils.job_dir config ∈ Utils.dirs Data.the_store
              ∧ Utils.may_modify "~Alice1" config).
Proof.
  apply (load_all_jobs_purges "~Alice1" Data.the_store).
  - change (map_Forall (λ k config, String.prefix "job:" k = true →
                                    k = Utils.job_key (Utils.job_id config))
              (Utils.db Data.the_store)).
    by_evaluation.
  - change (map_Forall (λ k config,
              String.prefix "job:" k = true →
              Utils.job_dir config ∉ Utils.dirs Data.the_store →
              Utils.user_id config = "~Alice1" ∨ "~Alice1" ∈ SUPERUSER_IDS)
              (Utils.db Data.the_store)).
    by_evaluation.
Defined.

Lemma load_all_jobs_blocked_witness :
  ∃ st',
    Utils.load_all_jobs "~Alice1" Data.shared_store
    = (Raise (OpenReviewException
                "Forbidden: Insufficient permissions to modify job"), st')
    ∧ Utils.dirs st' = Utils.dirs Data.shared_store
    ∧ Utils.db st' ⊆ Utils.db Data.shared_store
    ∧ Utils.db st' !! "job:j3" = Some Data.bob_job.
Proof.
  apply (load_all_jobs_blocked "~Alice1" Data.shared_store "job:j3" Data.bob_job).
  - change (map_Forall (λ k config, String.prefix "job:" k = true →
                                    k = Utils.job_key (Utils.job_id config))
              (Utils.db Data.shared_store)).
    by_evaluation.
  - vm_compute; reflexivity.
  - vm_compute; reflexivity.
  - by_evaluation.
  - unfold Utils.may_modify. by_evaluation.
Defined.

(** ** The service *)

Lemma all_status_agrees_witness :
  ∃ l dirs,
    Expertise.get_expertise_all_status "~Alice1" Data.the_world = Ok l
    ∧ NoDup dirs
    ∧ (∀ d, d ∈ dirs ↔ Expertise.visible "~Alice1" Data.the_world d)
    ∧ Forall2 (λ d r,
         Expertise.get_expertise_status "~Alice1" d Data.the_world
         = (Ok r, Data.the_world)
         ∧ r !! "job_id" = Some (JStr d)) dirs l
    ∧ ∀ job_id, ¬ Expertise.visible "~Alice1" Data.the_world job_id →
                Expertise.get_expertise_status "~Alice1" job_id Data.the_world
                = (Raise NotFound, Data.the_world).
Proof.
  destruct (is_ok_value (Expertise.get_expertise_all_status "~Alice1" Data.the_world))
    as [l Hrun]; [vm_compute; reflexivity|].
  destruct (all_status_agrees "~Alice1" Data.the_world l Hrun) as (dirs & H).
  exists l, dirs. split; [exact Hrun|exact H].
Defined.

Lemma del_expertise_job_spec_witness :
  (∃ filtered_config,
     (Expertise.del_expertise_job Data.py_eq "~Alice1" "j1" Data.the_state).1
     = Return filtered_config)
  ∧ (((Expertise.del_expertise_job Data.py_eq "~Alice1" "j1" Data.the_state).2
      = Data.the_state
      ∧ ∃ e, (Expertise.del_expertise_job Data.py_eq "~Alice1" "j1" Data.the_state).1
             = Throw e)
     ∨ ∃ config owner job index jobs jobs',
         Expertise.visible "~Alice1" Data.the_state.1 "j1"
         ∧ Expertise.job_dirs Data.the_state.1 !! "j1" = Some (Some config)
         ∧ config !! "user_id" = Some (JStr owner) ∧ config !! "job_id" = Some job
         ∧ Expertise.index_file Data.the_state.1 = Some index
         ∧ index !! owner = Some jobs
         ∧ Expertise.list_remove Data.py_eq job jobs = Some jobs'
         ∧ (Expertise.del_expertise_job Data.py_eq "~Alice1" "j1" Data.the_state).2
           = Expertise.rmtree "j1"
               (Expertise.write_index (<[owner := jobs']> index) Data.the_state.1,
                Data.the_state.2)
         ∧ (Expertise.del_expertise_job Data.py_eq "~Alice1" "j1" Data.the_state).1
           = match config !! "baseurl" with
             | Some _ => Return (delete "user_id" (delete "baseurl" config))
             | None => Throw (Exn (KeyError "baseurl"))
             end).
Proof.
  split; [apply Return_value; vm_compute; exact I|].
  apply (del_expertise_job_spec Data.py_eq "~Alice1" "j1" Data.the_state).
  apply surjective_pairing.
Defined.

Lemma get_expertise_results_spec_witness :
  ∃ result,
    Data.get_expertise_results_q "~Alice1" "j1" false Data.the_state
    = (Return result, Data.the_state)
    ∧ Expertise.results result
      = [{| Expertise.submission := "s1"; Expertise.user := "~A";
            Expertise.score := 1 # 2 |};
         {| Expertise.submission := "s2"; Expertise.user := "~A";
            Expertise.score := 1%Q |}]
    ∧ ∃ config owner name rows,
        Expertise.job_dirs Data.the_state.1 !! "j1" = Some (Some config)
        ∧ config !! "user_id" = Some owner
        ∧ (json_is_str owner "~Alice1" = true ∨ lower "~Alice1" ∈ SUPERUSER_IDS)
        ∧ config !! "status" = Some (JStr "Completed")
        ∧ is_Some (config !! "description")
        ∧ config !! "name" = Some name
        ∧ Expertise.score_files Data.the_state.2
            !! ("j1", Expertise.format_json Data.py_repr name +:+ ".csv") = Some rows
        ∧ Expertise.metadata_files Data.the_state.2 !! "j1"
          = Some (Expertise.metadata result)
        ∧ Forall2 (Expertise.is_entry_of Data.float)
            (filter (λ row, Expertise.is_dummy row = false) rows)
            (Expertise.results result).
Proof.
  destruct (Return_value
              (Data.get_expertise_results_q "~Alice1" "j1" false Data.the_state).1)
    as [result Hresult]; [vm_compute; exact I|].
  assert (match (Data.get_expertise_results_q "~Alice1" "j1" false Data.the_state).1
          with
          | Return result => Expertise.results result
          | Throw _ => []
          end
          = [{| Expertise.submission := "s1"; Expertise.user := "~A";
                Expertise.score := 1 # 2 |};
             {| Expertise.submission := "s2"; Expertise.user := "~A";
                Expertise.score := 1%Q |}]) as Hrows by (vm_compute; reflexivity).
  rewrite Hresult in Hrows. apply run_eta2 in Hresult.
  destruct (proj1 (get_expertise_results_spec Data.float Data.py_eq Data.py_repr
                     "~Alice1" "j1" Data.the_state result _) Hresult) as [Hsame H].
  exists result. split; [by rewrite <- Hsame at 2|]. split; [exact Hrows|exact H].
Defined.

Lemma results_delete_on_get_witness :
  (∃ result,
     (Data.get_expertise_results_q "~Alice1" "j1" true Data.the_state).1
     = Return result)
  ∧ match (Data.get_expertise_results_q "~Alice1" "j1" true Data.the_state).1 with
    | Throw e =>
        (Data.get_expertise_results_q "~Alice1" "j1" true Data.the_state).2
        = Data.the_state
    | Return result =>
        Data.get_expertise_results_q "~Alice1" "j1" false Data.the_state
        = (Return result, Data.the_state)
        ∧ Expertise.job_dirs
            (Data.get_expertise_results_q "~Alice1" "j1" true Data.the_state).2.1
          = delete "j1" (Expertise.job_dirs Data.the_state.1)
        ∧ (∀ file,
             Expertise.score_files
               (Data.get_expertise_results_q "~Alice1" "j1" true Data.the_state).2.2
               !! ("j1", file) = None)
        ∧ Expertise.metadata_files
            (Data.get_expertise_results_q "~Alice1" "j1" true Data.the_state).2.2
            !! "j1" = None
        ∧ (∀ d file, d ≠ "j1" →
             Expertise.score_files
               (Data.get_expertise_results_q "~Alice1" "j1" true Data.the_state).2.2
               !! (d, file)
             = Expertise.score_files Data.the_state.2 !! (d, file)
             ∧ Expertise.metadata_files
                 (Data.get_expertise_results_q "~Alice1" "j1" true Data.the_state).2.2
                 !! d
               = Expertise.metadata_files Data.the_state.2 !! d)
        ∧ ∀ user_id' delete_on_get,
            Data.get_expertise_results_q user_id' "j1" delete_on_get
              (Data.get_expertise_results_q "~Alice1" "j1" true Data.the_state).2
            = (Throw (Exn NotFound),
               (Data.get_expertise_results_q "~Alice1" "j1" true Data.the_state).2)
    end.
Proof.
  split; [apply Return_value; vm_compute; exact I|].
  apply (results_delete_on_get Data.float Data.py_eq Data.py_repr "~Alice1" "j1"
           Data.the_state).
  apply surjective_pairing.
Defined.

Lemma ServerConfig_model_accepts default_config request :
  filter (λ k, request !! k = None) Expertise.req_fields = [] →
  dom request ⊆ list_to_set (Expertise.req_fields ++ Expertise.optional_fields) →
  Expertise.ServerConfig_model default_config request = Ok (request ∪ default_config).
Proof.
  intros Hreq Hdom. unfold Expertise.ServerConfig_model. rewrite Hreq.
  by rewrite bool_decide_eq_true_2.
Qed.

Lemma start_then_status_witness :
  ∃ w' r filtered_config,
    Data.start_expertise_q Data.full_request Data.empty_world = (Ok "Ab3dE", w')
    ∧ Expertise.get_expertise_status "~Alice1" "Ab3dE" w' = (Ok r, w')
    ∧ r !! "job_id" = Some (JStr "Ab3dE")
    ∧ r !! "name" = Some (JStr "test_run")
    ∧ r !! "status" = Some (JStr "Queued")
    ∧ r !! "description"
      = Some (JStr "Job is waiting to start fetching OpenReview data")
    ∧ r !! "config" = Some (JObj filtered_config)
    ∧ filtered_config !! "token" = None
    ∧ filtered_config !! "baseurl" = None
    ∧ filtered_config !! "user_id" = None.
Proof.
  assert (Data.start_expertise_q Data.full_request Data.empty_world
          = (Ok "Ab3dE",
             (Data.start_expertise_q Data.full_request Data.empty_world).2)) as Hrun
    by (apply run_eta2; vm_compute; reflexivity).
  destruct (start_then_status Data.uuids Data.clock Expertise.ServerConfig_model
              Data.the_service Data.full_request Data.empty_world "Ab3dE" _
              (<["job_id" := JStr "Ab3dE"]> Data.full_request
               ∪ Expertise.default_config Data.the_service)
              "~Alice1" (JStr "test_run") (JStr "http://localhost:3000") Hrun)
    as (r & filtered_config & H).
  - left. intros d [c Hc]. simpl in Hc. by rewrite lookup_empty in Hc.
  - apply ServerConfig_model_accepts; by_evaluation.
  - vm_compute; reflexivity.
  - vm_compute; reflexivity.
  - vm_compute; reflexivity.
  - eexists _, r, filtered_config. split; [exact Hrun|exact H].
Defined.

Lemma start_then_delete_witness :
  ∃ w' filtered_config s jobs task,
    Data.start_expertise_q Data.full_request Data.empty_world = (Ok "Ab3dE", w')
    ∧ Expertise.del_expertise_job Data.py_eq "~Alice1" "Ab3dE" (w', Data.the_files)
      = (Return filtered_config, s)
    ∧ filtered_config !! "token" = None
    ∧ Expertise.job_dirs s.1 = delete "Ab3dE" (Expertise.job_dirs Data.empty_world)
    ∧ Expertise.index_file s.1
      = Some (<["~Alice1" := jobs]>
                (default ∅ (Expertise.index_file Data.empty_world)))
    ∧ jobs ≡ₚ default [] (default ∅ (Expertise.index_file Data.empty_world)
                            !! "~Alice1")
    ∧ (JStr "Ab3dE" ∉ default [] (default ∅ (Expertise.index_file Data.empty_world)
                                    !! "~Alice1") →
       jobs = default [] (default ∅ (Expertise.index_file Data.empty_world)
                            !! "~Alice1"))
    ∧ Expertise.queue w' = Expertise.queue Data.empty_world ++ [task]
    ∧ task.1.1 = "Ab3dE"
    ∧ Expertise.queue s.1 = Expertise.queue w'.
Proof.
  assert (Data.start_expertise_q Data.full_request Data.empty_world
          = (Ok "Ab3dE",
             (Data.start_expertise_q Data.full_request Data.empty_world).2)) as Hrun
    by (apply run_eta2; vm_compute; reflexivity).
  destruct (start_then_delete Data.uuids Data.clock Expertise.ServerConfig_model
              Data.py_eq Data.the_service Data.full_request Data.empty_world "Ab3dE" _
              (<["job_id" := JStr "Ab3dE"]> Data.full_request
               ∪ Expertise.default_config Data.the_service)
              "~Alice1" (JStr "http://localhost:3000") Data.the_files Hrun)
    as (filtered_config & s & jobs & task & H).
  - left. intros d [c Hc]. simpl in Hc. by rewrite lookup_empty in Hc.
  - apply ServerConfig_model_accepts; by_evaluation.
  - vm_compute; reflexivity.
  - vm_compute; reflexivity.
  - vm_compute; reflexivity.
  - eexists _, filtered_config, s, jobs, task. split; [exact Hrun|exact H].
Defined.
